(** * The two-phase query workflow of the Websters chat interface

    A shallow embedding of the client-side conversation state machine
    (hooks/use-chat-state.ts), the query strategies
    (services/query-strategies.ts), the API client (lib/api) and the chat
    orchestration controller (ChatInterface, MessageItem), followed by the
    properties the specification states about them.

    Conventions of the embedding:
    - a JS string is a [string]; its code units are the 8-bit characters
      of [ascii] (code units above 255 are not represented);
    - [Date.now()] and [new Date()] are integer clock readings in
      milliseconds, a [Z] supplied by the environment at each call;
    - a JSON [number] is a rational [Q] (every finite double is one);
    - an optional property [f?: T] is an [option T], [None] standing for
      [undefined]; a property typed [T | null] is an [option T] too;
    - a JS object used as a key/value store ([localStorage], the strategy
      table) is a [gmap] over its own keys, and a property read
      [table[key]] looks among them first and then among the names
      inherited from [Object.prototype]; a [Set<string>] is a [gset];
    - an [async] function is split at its [await]: the part that runs
      when it is called, and the part that runs when the awaited call
      settles, which receives the outcome of that call as an argument. *)

From Stdlib Require Import QArith Ascii.
From stdpp Require Import gmap strings list pretty.

Local Close Scope Q_scope.
#[local] Set Warnings "-clear-no-such-hyp".

Local Open Scope string_scope.
Local Open Scope Z_scope.

(** ** Data model (lib/api, hooks/use-chat-state.ts) *)

(** A value of TypeScript type [unknown] that arrived as JSON. *)
#[local] Unset Elimination Schemes.
Inductive Json : Type :=
  | JNull
  | JBool (b : bool)
  | JNumber (q : Q)
  | JString (s : string)
  | JArray (items : list Json)
  | JObject (props : list (string * Json)).
#[local] Set Elimination Schemes.

(** [Record<string, unknown>]: an object in key order. *)
Definition JsonRecord : Type := list (string * Json).

Module SourceNode.
Record t : Type := mk {
  text : string;
  metadata : option JsonRecord;
  score : option Q
}.
End SourceNode.

Module QueryResponse.
Record t : Type := mk {
  response : string;
  source_nodes : list SourceNode.t
}.
End QueryResponse.

(** Phase 1: local query. *)
Module LocalQueryResponse.
Record t : Type := mk {
  response : string;
  source_nodes : list SourceNode.t;
  metadata_context : JsonRecord;
  web_search_eligible : bool;
  preferred_sources : option (list string);
  suggested_search_context : option string;
  message_id : option string
}.
End LocalQueryResponse.

(** Phase 2: web enrichment. *)
Module WebSearchResult.
Record t : Type := mk {
  title : string;
  link : string;
  snippet : string;
  position : Q
}.
End WebSearchResult.

Module WebEnrichmentRequest.
Record t : Type := mk {
  query : string;
  message_id : option string;
  local_context : option string;
  preferred_sources : option (list string);
  keywords : option (list string);
  max_results : option Z;
  concise_mode : option bool
}.
End WebEnrichmentRequest.

Module WebEnrichmentResponse.
Record t : Type := mk {
  synthesized_keywords : list string;
  web_search_results : list WebSearchResult.t;
  enriched_response : string;
  sources_fetched : Q
}.
End WebEnrichmentResponse.

Module HealthResponse.
Inductive Status : Type := healthy | degraded.
Record t : Type := mk {
  status : Status;
  index_loaded : bool;
  index_path_exists : option bool;
  version : option string
}.
End HealthResponse.

Module QueryRequest.
Record t : Type := mk {
  query : string;
  top_k : Z;
  filters : option JsonRecord
}.
End QueryRequest.

(** [type QueryMode = 'basic' | 'combined' | 'enhanced']: at run time a
    string, and the strategy selector has a branch for a string that is
    none of the three. *)
Definition QueryMode : Type := string.

Inductive MessageType : Type := user | assistant.

Module Message.
Record t : Type := mk {
  id : string;
  type : MessageType;
  content : string;
  timestamp : Z;
  sources : option (list SourceNode.t);
  enhancedResponse : option LocalQueryResponse.t;
  webSearchResponse : option WebEnrichmentResponse.t;
  isWebSearchLoading : option bool;
  showWebSearchButton : option bool
}.
End Message.

(** [Partial<Message>]: every property may be absent.  The outer
    [option] says whether the object has the property as an own key;
    for the properties [Message] itself declares optional the inner
    [option] is the value, which may be [undefined]. *)
Module Updates.
Record t : Type := mk {
  id : option string;
  type : option MessageType;
  content : option string;
  timestamp : option Z;
  sources : option (option (list SourceNode.t));
  enhancedResponse : option (option LocalQueryResponse.t);
  webSearchResponse : option (option WebEnrichmentResponse.t);
  isWebSearchLoading : option (option bool);
  showWebSearchButton : option (option bool)
}.

(** The object literal [{}]. *)
Definition none : t := mk None None None None None None None None None.
End Updates.

(** [{ ...msg, ...updates }]: each own key of [updates] replaces the
    property of [msg]; every other property is copied from [msg]. *)
Definition spread (msg : Message.t) (updates : Updates.t) : Message.t :=
  {| Message.id := default (Message.id msg) (Updates.id updates);
     Message.type := default (Message.type msg) (Updates.type updates);
     Message.content := default (Message.content msg) (Updates.content updates);
     Message.timestamp :=
       default (Message.timestamp msg) (Updates.timestamp updates);
     Message.sources := default (Message.sources msg) (Updates.sources updates);
     Message.enhancedResponse :=
       default (Message.enhancedResponse msg) (Updates.enhancedResponse updates);
     Message.webSearchResponse :=
       default (Message.webSearchResponse msg)
               (Updates.webSearchResponse updates);
     Message.isWebSearchLoading :=
       default (Message.isWebSearchLoading msg)
               (Updates.isWebSearchLoading updates);
     Message.showWebSearchButton :=
       default (Message.showWebSearchButton msg)
               (Updates.showWebSearchButton updates) |}.

(** ** Conversation state machine (hooks/use-chat-state.ts) *)

Record ChatState : Type := mkChatState {
  messages : list Message.t;
  input : string;
  isLoading : bool;
  error : option string;
  isHealthy : option bool;
  healthDetails : option HealthResponse.t;
  expandedSources : gset string;
  queryMode : QueryMode
}.

(** The nine members of the union [ChatAction], each with its payload.
    [OTHER_ACTION] is a dispatched object whose [type] tag is none of the
    nine: the TypeScript type excludes it, the [switch] has a [default]
    branch for it. *)
Inductive ChatAction : Type :=
  | SET_INPUT (payload : string)
  | SET_LOADING (payload : bool)
  | SET_ERROR (payload : option string)
  | SET_HEALTH (isHealthy : option bool) (details : option HealthResponse.t)
  | SET_QUERY_MODE (payload : QueryMode)
  | ADD_MESSAGE (payload : Message.t)
  | UPDATE_MESSAGE (id : string) (updates : Updates.t)
  | CLEAR_INPUT
  | TOGGLE_SOURCES (payload : string)
  | OTHER_ACTION (type : string).



Definition initialState : ChatState :=
  {| messages := [];
     input := "";
     isLoading := false;
     error := None;
     isHealthy := None;
     healthDetails := None;
     expandedSources := ∅;
     queryMode := "enhanced" |}.

(** The [TOGGLE_SOURCES] branch: copy the set, then delete the id if the
    copy has it and add it otherwise. *)
Definition toggle (expanded : gset string) (messageId : string) : gset string :=
  if decide (messageId ∈ expanded)
  then expanded ∖ {[messageId]}
  else expanded ∪ {[messageId]}.

Definition chatReducer (state : ChatState) (action : ChatAction) : ChatState :=
  match action with
  | SET_INPUT payload =>
      {| messages := messages state; input := payload;
         isLoading := isLoading state; error := error state;
         isHealthy := isHealthy state; healthDetails := healthDetails state;
         expandedSources := expandedSources state;
         queryMode := queryMode state |}
  | SET_LOADING payload =>
      {| messages := messages state; input := input state;
         isLoading := payload; error := error state;
         isHealthy := isHealthy state; healthDetails := healthDetails state;
         expandedSources := expandedSources state;
         queryMode := queryMode state |}
  | SET_ERROR payload =>
      {| messages := messages state; input := input state;
         isLoading := isLoading state; error := payload;
         isHealthy := isHealthy state; healthDetails := healthDetails state;
         expandedSources := expandedSources state;
         queryMode := queryMode state |}
  | SET_HEALTH healthy details =>
      {| messages := messages state; input := input state;
         isLoading := isLoading state; error := error state;
         isHealthy := healthy; healthDetails := details;
         expandedSources := expandedSources state;
         queryMode := queryMode state |}
  | SET_QUERY_MODE payload =>
      {| messages := messages state; input := input state;
         isLoading := isLoading state; error := error state;
         isHealthy := isHealthy state; healthDetails := healthDetails state;
         expandedSources := expandedSources state;
         queryMode := payload |}
  | ADD_MESSAGE payload =>
      {| messages := messages state ++ [payload]; input := input state;
         isLoading := isLoading state; error := error state;
         isHealthy := isHealthy state; healthDetails := healthDetails state;
         expandedSources := expandedSources state;
         queryMode := queryMode state |}
  | UPDATE_MESSAGE id updates =>
      {| messages :=
           map (fun msg =>
                  if String.eqb (Message.id msg) id
                  then spread msg updates
                  else msg)
               (messages state);
         input := input state;
         isLoading := isLoading state; error := error state;
         isHealthy := isHealthy state; healthDetails := healthDetails state;
         expandedSources := expandedSources state;
         queryMode := queryMode state |}
  | CLEAR_INPUT =>
      {| messages := messages state; input := "";
         isLoading := isLoading state; error := error state;
         isHealthy := isHealthy state; healthDetails := healthDetails state;
         expandedSources := expandedSources state;
         queryMode := queryMode state |}
  | TOGGLE_SOURCES payload =>
      {| messages := messages state; input := input state;
         isLoading := isLoading state; error := error state;
         isHealthy := isHealthy state; healthDetails := healthDetails state;
         expandedSources := toggle (expandedSources state) payload;
         queryMode := queryMode state |}
  | OTHER_ACTION _ => state
  end.

(** Dispatching a list of actions in order. *)
Definition dispatch_all (state : ChatState) (actions : list ChatAction) : ChatState :=
  fold_left chatReducer actions state.

(** ** Thrown values and settled promises *)

(** What a [catch] clause can receive: an [AuthenticationError] (a
    subclass of [Error]), any other [Error], or a value that is no
    [Error] at all. *)
Inductive Thrown : Type :=
  | AuthenticationError (message : string)
  | Error (message : string)
  | NonError (value : Json).

(** [err instanceof AuthenticationError]. *)
Definition instanceof_AuthenticationError (err : Thrown) : bool :=
  match err with
  | AuthenticationError _ => true
  | _ => false
  end.

(** [err instanceof Error]. *)
Definition instanceof_Error (err : Thrown) : bool :=
  match err with
  | AuthenticationError _ | Error _ => true
  | NonError _ => false
  end.

(** [err.message], read where [err instanceof Error] holds. *)
Definition message_of (err : Thrown) : string :=
  match err with
  | AuthenticationError message | Error message => message
  | NonError _ => ""
  end.

(** How a call ends: with a value, or by throwing (for a promise:
    fulfilled or rejected). *)
Inductive Result (A : Type) : Type :=
  | Return (value : A)
  | Throw (err : Thrown).
Arguments Return {A} value.
Arguments Throw {A} err.

(** ** API client (lib/api) *)

(** The environment of the client: [Some store] in a browser, where
    [typeof window !== 'undefined'] and [store] is the content of
    [localStorage]; [None] where there is no [window]. *)
Definition Env : Type := option (gmap string string).

Definition getItem (key : string) (env : Env) : option string :=
  match env with
  | Some store => store !! key
  | None => None
  end.

(** [if (typeof window !== 'undefined') localStorage.removeItem(key)]. *)
Definition removeItem (key : string) (env : Env) : Env :=
  match env with
  | Some store => Some (delete key store)
  | None => None
  end.

(** [if (typeof window !== 'undefined') localStorage.setItem(key, value)]. *)
Definition setItem (key value : string) (env : Env) : Env :=
  match env with
  | Some store => Some (<[key := value]> store)
  | None => None
  end.

(** Truthiness of a string: every string but the empty one. *)
Definition truthy (s : string) : bool :=
  match s with
  | EmptyString => false
  | String _ _ => true
  end.

(** [value || undefined] for a [string | null]. *)
Definition or_undefined (value : option string) : option string :=
  match value with
  | Some s => if truthy s then Some s else None
  | None => None
  end.

(** What [fetch] resolves to, as far as the client reads it: the status
    line, and what [response.json()] settles to at the type the caller
    casts it to. *)
Record Response (A : Type) : Type := mkResponse {
  status : Z;
  statusText : string;
  json : Result A
}.
Arguments mkResponse {A} status statusText json.
Arguments status {A} r.
Arguments statusText {A} r.
Arguments json {A} r.

(** [response.ok]: the status is in the range 200-299. *)
Definition ok {A : Type} (response : Response A) : bool :=
  (200 <=? status response) && (status response <=? 299).

(** What [await fetch(...)] gives: a response, or the rejection of a
    transport failure. *)
Definition Fetched (A : Type) : Type := Result (Response A).

Definition getAuthHeaders (env : Env) : gmap string string :=
  let headers : gmap string string := {[ "Content-Type" := "application/json" ]} in
  match getItem "auth_token" env with
  | Some token =>
      if truthy token
      then <[ "Authorization" := "Bearer " +:+ token ]> headers
      else headers
  | None => headers
  end.

Definition handleAuthError {A : Type} (response : Response A) (env : Env)
  : Env * Result unit :=
  if status response =? 401
  then (removeItem "user" (removeItem "auth_token" env),
        Throw (AuthenticationError "Authentication failed. Please login again."))
  else (env, Return tt).

(** The body [JSON.stringify(request)] of a request, by the request it
    was made from. *)
Inductive RequestBody : Type :=
  | QueryBody (request : QueryRequest.t)
  | WebEnrichmentBody (request : WebEnrichmentRequest.t).

Record HttpRequest : Type := mkHttpRequest {
  endpoint : string;
  method : string;
  headers : gmap string string;
  body : option RequestBody
}.

(** Each protected call of [api] in two parts: the request it passes to
    [fetch], and what it does once [fetch] has settled.  The two awaits
    of a call ([fetch], then [response.json()]) are one settlement here:
    between them the client runs only [handleAuthError] and the [ok]
    test, which change nothing unless they throw. *)
Module api.

Definition query_request (request : QueryRequest.t) (useWebSearch : bool)
    (env : Env) : HttpRequest :=
  {| endpoint := if useWebSearch then "/query-combined" else "/query";
     method := "POST";
     headers := getAuthHeaders env;
     body := Some (QueryBody request) |}.

Definition query (fetched : Fetched QueryResponse.t) (env : Env)
  : Env * Result QueryResponse.t :=
  match fetched with
  | Throw err => (env, Throw err)
  | Return response =>
      match handleAuthError response env with
      | (env', Throw err) => (env', Throw err)
      | (env', Return _) =>
          if negb (ok response)
          then (env', Throw (Error ("Query failed: " +:+ statusText response)))
          else (env', json response)
      end
  end.

Definition queryEnhanced_request (request : QueryRequest.t) (env : Env)
  : HttpRequest :=
  {| endpoint := "/query-local";
     method := "POST";
     headers := getAuthHeaders env;
     body := Some (QueryBody request) |}.

Definition queryEnhanced (fetched : Fetched LocalQueryResponse.t) (env : Env)
  : Env * Result LocalQueryResponse.t :=
  match fetched with
  | Throw err => (env, Throw err)
  | Return response =>
      match handleAuthError response env with
      | (env', Throw err) => (env', Throw err)
      | (env', Return _) =>
          if negb (ok response)
          then (env', Throw (Error ("Enhanced query failed: "
                                    +:+ statusText response)))
          else (env', json response)
      end
  end.

Definition webSearchExplicit_request (request : WebEnrichmentRequest.t)
    (env : Env) : HttpRequest :=
  {| endpoint := "/query-web-enrich";
     method := "POST";
     headers := getAuthHeaders env;
     body := Some (WebEnrichmentBody request) |}.

Definition webSearchExplicit (fetched : Fetched WebEnrichmentResponse.t)
    (env : Env) : Env * Result WebEnrichmentResponse.t :=
  match fetched with
  | Throw err => (env, Throw err)
  | Return response =>
      match handleAuthError response env with
      | (env', Throw err) => (env', Throw err)
      | (env', Return _) =>
          if negb (ok response)
          then (env', Throw (Error ("Web search failed: "
                                    +:+ statusText response)))
          else (env', json response)
      end
  end.

Definition getFilters_request (env : Env) : HttpRequest :=
  {| endpoint := "/filters";
     method := "GET";
     headers := getAuthHeaders env;
     body := None |}.

Definition getFilters (fetched : Fetched JsonRecord) (env : Env)
  : Env * Result JsonRecord :=
  match fetched with
  | Throw err => (env, Throw err)
  | Return response =>
      match handleAuthError response env with
      | (env', Throw err) => (env', Throw err)
      | (env', Return _) =>
          if negb (ok response)
          then (env', Throw (Error ("Get filters failed: "
                                    +:+ statusText response)))
          else (env', json response)
      end
  end.

(** [healthCheck] sends no credentials and does not call
    [handleAuthError]. *)
Definition healthCheck (fetched : Fetched HealthResponse.t)
  : Result HealthResponse.t :=
  match fetched with
  | Throw err => Throw err
  | Return response =>
      if negb (ok response)
      then Throw (Error ("Health check failed: " +:+ statusText response))
      else json response
  end.

End api.

(** ** Constants (constants/chat.ts) *)

Module CHAT_CONSTANTS.
Definition DEFAULT_TOP_K : Z := 5.
Definition DEFAULT_WEB_SEARCH_RESULTS : Z := 5.
End CHAT_CONSTANTS.

Module QUERY_SETTINGS.
Module ENHANCED_MODE.
Definition top_k : Z := CHAT_CONSTANTS.DEFAULT_TOP_K.
End ENHANCED_MODE.
Module BASIC_MODE.
Definition top_k : Z := CHAT_CONSTANTS.DEFAULT_TOP_K.
End BASIC_MODE.
Module WEB_SEARCH.
Definition max_results : Z := CHAT_CONSTANTS.DEFAULT_WEB_SEARCH_RESULTS.
Definition concise_mode : bool := true.
End WEB_SEARCH.
End QUERY_SETTINGS.

(** ** Query strategies (services/query-strategies.ts) *)

(** [n.toString()] for an integer clock value: its decimal numeral. *)
Definition toString (n : Z) : string := pretty n.

(** Each [execute] in two parts, as the calls of [api]: the request, and
    the message built once the call of [api] has settled.  [now] is what
    [Date.now()] returns and [date] what [new Date()] reads at that
    moment. *)
Module BasicQueryStrategy.
Definition execute_request (query : string) (env : Env) : HttpRequest :=
  api.query_request
    {| QueryRequest.query := query;
       QueryRequest.top_k := QUERY_SETTINGS.BASIC_MODE.top_k;
       QueryRequest.filters := None |}
    false env.

Definition execute (fetched : Fetched QueryResponse.t) (now date : Z)
    (env : Env) : Env * Result Message.t :=
  match api.query fetched env with
  | (env', Throw err) => (env', Throw err)
  | (env', Return response) =>
      (env',
       Return {| Message.id := toString (now + 1);
                 Message.type := assistant;
                 Message.content := QueryResponse.response response;
                 Message.timestamp := date;
                 Message.sources := Some (QueryResponse.source_nodes response);
                 Message.enhancedResponse := None;
                 Message.webSearchResponse := None;
                 Message.isWebSearchLoading := None;
                 Message.showWebSearchButton := None |})
  end.
End BasicQueryStrategy.

Module CombinedQueryStrategy.
Definition execute_request (query : string) (env : Env) : HttpRequest :=
  api.query_request
    {| QueryRequest.query := query;
       QueryRequest.top_k := QUERY_SETTINGS.BASIC_MODE.top_k;
       QueryRequest.filters := None |}
    true env.

Definition execute (fetched : Fetched QueryResponse.t) (now date : Z)
    (env : Env) : Env * Result Message.t :=
  match api.query fetched env with
  | (env', Throw err) => (env', Throw err)
  | (env', Return response) =>
      (env',
       Return {| Message.id := toString (now + 1);
                 Message.type := assistant;
                 Message.content := QueryResponse.response response;
                 Message.timestamp := date;
                 Message.sources := Some (QueryResponse.source_nodes response);
                 Message.enhancedResponse := None;
                 Message.webSearchResponse := None;
                 Message.isWebSearchLoading := None;
                 Message.showWebSearchButton := None |})
  end.
End CombinedQueryStrategy.

Module EnhancedQueryStrategy.
Definition execute_request (query : string) (env : Env) : HttpRequest :=
  api.queryEnhanced_request
    {| QueryRequest.query := query;
       QueryRequest.top_k := QUERY_SETTINGS.ENHANCED_MODE.top_k;
       QueryRequest.filters := None |}
    env.

Definition execute (fetched : Fetched LocalQueryResponse.t) (now date : Z)
    (env : Env) : Env * Result Message.t :=
  match api.queryEnhanced fetched env with
  | (env', Throw err) => (env', Throw err)
  | (env', Return enhancedResponse) =>
      (env',
       Return {| Message.id := toString (now + 1);
                 Message.type := assistant;
                 Message.content :=
                   LocalQueryResponse.response enhancedResponse;
                 Message.timestamp := date;
                 Message.sources :=
                   Some (LocalQueryResponse.source_nodes enhancedResponse);
                 Message.enhancedResponse := Some enhancedResponse;
                 Message.webSearchResponse := None;
                 Message.isWebSearchLoading := None;
                 Message.showWebSearchButton :=
                   Some (LocalQueryResponse.web_search_eligible
                           enhancedResponse) |})
  end.
End EnhancedQueryStrategy.

(** The three strategy objects of the factory. *)
Inductive QueryStrategy : Type :=
  | Basic
  | Combined
  | Enhanced.

(** The settlement of the request a strategy made, at the type of the
    endpoint it went to. *)
Inductive Settlement : Type :=
  | QuerySettlement (fetched : Fetched QueryResponse.t)
  | LocalSettlement (fetched : Fetched LocalQueryResponse.t).

(** The property names every object literal inherits from
    [Object.prototype] (ECMAScript, with its Annex B). *)
Definition Object_prototype : list string :=
  [ "constructor"; "__defineGetter__"; "__defineSetter__"; "hasOwnProperty";
    "__lookupGetter__"; "__lookupSetter__"; "isPrototypeOf";
    "propertyIsEnumerable"; "toString"; "valueOf"; "__proto__";
    "toLocaleString" ].

(** What [this.strategies[mode]] evaluates to when it is not
    [undefined]: one of the table's own strategy objects, or, for a name
    the table inherits, the value [Object.prototype] has under that name
    (a built-in function, or the prototype itself for [__proto__]), which
    is truthy and has no [execute]. *)
Inductive StrategyValue : Type :=
  | strategy_object (strategy : QueryStrategy)
  | inherited_value (name : string).

Module QueryStrategyFactory.

(** The own properties of the table. *)
Definition strategies : gmap string QueryStrategy :=
  {[ "basic" := Basic; "combined" := Combined; "enhanced" := Enhanced ]}.

(** [this.strategies[mode]]: an own property first, then the prototype;
    [None] is [undefined]. *)
Definition strategies_get (mode : string) : option StrategyValue :=
  match strategies !! mode with
  | Some strategy => Some (strategy_object strategy)
  | None =>
      if bool_decide (mode ∈ Object_prototype)
      then Some (inherited_value mode)
      else None
  end.

(** Every value the read can give is truthy, so [!strategy] holds
    exactly for [undefined]. *)
Definition getStrategy (mode : QueryMode) : Result StrategyValue :=
  match strategies_get mode with
  | Some strategy => Return strategy
  | None => Throw (Error ("Unknown query mode: " +:+ mode))
  end.

End QueryStrategyFactory.

(** [strategy.execute(query)] up to its await: the request sent. *)
Definition execute_request (strategy : QueryStrategy) (query : string)
    (env : Env) : HttpRequest :=
  match strategy with
  | Basic => BasicQueryStrategy.execute_request query env
  | Combined => CombinedQueryStrategy.execute_request query env
  | Enhanced => EnhancedQueryStrategy.execute_request query env
  end.

(** [strategy.execute(query)] from its await on.  [None]: the settlement
    is not one of the endpoint this strategy calls. *)
Definition execute (strategy : QueryStrategy) (settled : Settlement)
    (now date : Z) (env : Env) : option (Env * Result Message.t) :=
  match strategy, settled with
  | Basic, QuerySettlement fetched =>
      Some (BasicQueryStrategy.execute fetched now date env)
  | Combined, QuerySettlement fetched =>
      Some (CombinedQueryStrategy.execute fetched now date env)
  | Enhanced, LocalSettlement fetched =>
      Some (EnhancedQueryStrategy.execute fetched now date env)
  | _, _ => None
  end.

(** ** Session state (contexts/auth-context.tsx) *)

Module User.
Record t : Type := mk {
  username : string;
  email : option string;
  is_active : bool
}.
End User.

(** The state of [AuthProvider]. *)
Module AuthContext.
Record t : Type := mk {
  user : option User.t;
  token : option string
}.

Definition isAuthenticated (auth : t) : bool :=
  match token auth, user auth with
  | Some _, Some _ => true
  | _, _ => false
  end.
End AuthContext.

(** ** Chat orchestration controller (ChatInterface, MessageItem) *)

(** JS whitespace among the code units below 256: TAB, LF, VT, FF, CR,
    SPACE and NBSP. *)
Definition is_whitespace (c : ascii) : bool :=
  let n := N_of_ascii c in
  ((9 <=? n) && (n <=? 13) || (n =? 32) || (n =? 160))%N.

Fixpoint trimStart (s : string) : string :=
  match s with
  | EmptyString => EmptyString
  | String c rest => if is_whitespace c then trimStart rest else s
  end.

Fixpoint trimEnd (s : string) : string :=
  match s with
  | EmptyString => EmptyString
  | String c rest =>
      match trimEnd rest with
      | EmptyString => if is_whitespace c then EmptyString else String c EmptyString
      | kept => String c kept
      end
  end.

(** [s.trim()]. *)
Definition trim (s : string) : string := trimEnd (trimStart s).

(** A call of [strategy.execute] suspended at its await. *)
Module PendingQuery.
Record t : Type := mk {
  strategy : QueryStrategy;
  request : HttpRequest
}.
End PendingQuery.

(** A call of [handleWebSearch] suspended at its await. *)
Module PendingWebSearch.
Record t : Type := mk {
  messageId : string;
  request : HttpRequest
}.
End PendingWebSearch.

(** Everything the controller reads or writes: the reducer state of
    [ChatInterface], the state of [AuthProvider], the browser storage,
    and the calls that are suspended at an await ([checkHealth], started
    once when the component mounts, and the two handlers). *)
Record World : Type := mkWorld {
  chat : ChatState;
  auth : AuthContext.t;
  env : Env;
  healthCheckPending : bool;
  pendingQueries : list PendingQuery.t;
  pendingWebSearches : list PendingWebSearch.t
}.

Definition with_chat (state : ChatState) (w : World) : World :=
  {| chat := state; auth := auth w; env := env w;
     healthCheckPending := healthCheckPending w;
     pendingQueries := pendingQueries w;
     pendingWebSearches := pendingWebSearches w |}.

Definition with_auth (a : AuthContext.t) (w : World) : World :=
  {| chat := chat w; auth := a; env := env w;
     healthCheckPending := healthCheckPending w;
     pendingQueries := pendingQueries w;
     pendingWebSearches := pendingWebSearches w |}.

Definition with_env (e : Env) (w : World) : World :=
  {| chat := chat w; auth := auth w; env := e;
     healthCheckPending := healthCheckPending w;
     pendingQueries := pendingQueries w;
     pendingWebSearches := pendingWebSearches w |}.

Definition with_healthCheckPending (b : bool) (w : World) : World :=
  {| chat := chat w; auth := auth w; env := env w;
     healthCheckPending := b;
     pendingQueries := pendingQueries w;
     pendingWebSearches := pendingWebSearches w |}.

Definition with_pendingQueries (l : list PendingQuery.t) (w : World) : World :=
  {| chat := chat w; auth := auth w; env := env w;
     healthCheckPending := healthCheckPending w;
     pendingQueries := l;
     pendingWebSearches := pendingWebSearches w |}.

Definition with_pendingWebSearches (l : list PendingWebSearch.t) (w : World)
  : World :=
  {| chat := chat w; auth := auth w; env := env w;
     healthCheckPending := healthCheckPending w;
     pendingQueries := pendingQueries w;
     pendingWebSearches := l |}.

Definition dispatch (action : ChatAction) (w : World) : World :=
  with_chat (chatReducer (chat w) action) w.

(** The [actions] object of [useChatState]. *)
Module actions.
Definition setInput (input : string) : World -> World :=
  dispatch (SET_INPUT input).
Definition setLoading (loading : bool) : World -> World :=
  dispatch (SET_LOADING loading).
Definition setError (error : option string) : World -> World :=
  dispatch (SET_ERROR error).
Definition setHealth (health : option bool)
    (details : option HealthResponse.t) : World -> World :=
  dispatch (SET_HEALTH health details).
Definition setQueryMode (mode : QueryMode) : World -> World :=
  dispatch (SET_QUERY_MODE mode).
Definition addMessage (message : Message.t) : World -> World :=
  dispatch (ADD_MESSAGE message).
Definition updateMessage (id : string) (updates : Updates.t)
  : World -> World :=
  dispatch (UPDATE_MESSAGE id updates).
Definition clearInput : World -> World :=
  dispatch CLEAR_INPUT.
Definition toggleSources (messageId : string) : World -> World :=
  dispatch (TOGGLE_SOURCES messageId).
End actions.

(** [logout] of the auth context. *)
Definition logout (w : World) : World :=
  with_env (removeItem "user" (removeItem "auth_token" (env w)))
    (with_auth {| AuthContext.user := None; AuthContext.token := None |} w).

(** [checkHealth] once [api.healthCheck()] has settled. *)
Definition checkHealth (fetched : Fetched HealthResponse.t) (w : World) : World :=
  match api.healthCheck fetched with
  | Return health =>
      actions.setHealth
        (Some (match HealthResponse.status health with
               | HealthResponse.healthy => HealthResponse.index_loaded health
               | HealthResponse.degraded => false
               end))
        (Some health) w
  | Throw _ => actions.setHealth (Some false) None w
  end.

(** The [catch] and [finally] clauses of [handleSubmit], entered with
    the outcome of the [try] block. *)
Definition handleSubmit_settled (outcome : Result Message.t) (w : World) : World :=
  let w' :=
    match outcome with
    | Return assistantMessage => actions.addMessage assistantMessage w
    | Throw err =>
        if instanceof_AuthenticationError err
        then logout w
        else actions.setError
               (Some (if instanceof_Error err
                      then message_of err
                      else "An error occurred")) w
    end in
  actions.setLoading false w'.

(** The [TypeError] that calling [strategy.execute] raises, inside the
    [try] block, when [strategy] is a value without that method.  It is
    an instance of [Error]; the message is the engine's (here V8's). *)
Definition execute_is_not_a_function : Thrown :=
  Error "strategy.execute is not a function".

(** [handleSubmit] up to the await of [strategy.execute]: [input],
    [isLoading] and [queryMode] are those of the state the handler was
    rendered with. *)
Definition handleSubmit (now date : Z) (w : World) : World :=
  let state := chat w in
  if negb (truthy (trim (input state))) || isLoading state then w
  else
    let userMessage :=
      {| Message.id := toString now;
         Message.type := user;
         Message.content := trim (input state);
         Message.timestamp := date;
         Message.sources := None;
         Message.enhancedResponse := None;
         Message.webSearchResponse := None;
         Message.isWebSearchLoading := None;
         Message.showWebSearchButton := None |} in
    let w1 := actions.addMessage userMessage w in
    let queryText := trim (input state) in
    let w2 := actions.clearInput w1 in
    let w3 := actions.setLoading true w2 in
    let w4 := actions.setError None w3 in
    match QueryStrategyFactory.getStrategy (queryMode state) with
    | Return (strategy_object strategy) =>
        with_pendingQueries
          (pendingQueries w4
             ++ [ {| PendingQuery.strategy := strategy;
                     PendingQuery.request :=
                       execute_request strategy queryText (env w4) |} ])
          w4
    | Return (inherited_value _) =>
        handleSubmit_settled (Throw execute_is_not_a_function) w4
    | Throw err => handleSubmit_settled (Throw err) w4
    end.

(** The [disabled] attribute of the submit button and of the input. *)
Definition submitDisabled (state : ChatState) : bool :=
  negb (truthy (trim (input state)))
  || isLoading state
  || match isHealthy state with Some false => true | _ => false end.

Definition inputDisabled (state : ChatState) : bool :=
  isLoading state
  || match isHealthy state with Some false => true | _ => false end.

(** [handleWebSearch] up to the await of [api.webSearchExplicit]. *)
Definition handleWebSearch (messageId originalQuery : string)
    (enhancedResponse : LocalQueryResponse.t) (w : World) : World :=
  let w1 :=
    actions.updateMessage messageId
      {| Updates.id := None; Updates.type := None; Updates.content := None;
         Updates.timestamp := None; Updates.sources := None;
         Updates.enhancedResponse := None;
         Updates.webSearchResponse := None;
         Updates.isWebSearchLoading := Some (Some true);
         Updates.showWebSearchButton := None |} w in
  let request :=
    api.webSearchExplicit_request
      {| WebEnrichmentRequest.query := originalQuery;
         WebEnrichmentRequest.message_id :=
           or_undefined (LocalQueryResponse.message_id enhancedResponse);
         WebEnrichmentRequest.local_context :=
           or_undefined
             (LocalQueryResponse.suggested_search_context enhancedResponse);
         WebEnrichmentRequest.preferred_sources :=
           LocalQueryResponse.preferred_sources enhancedResponse;
         WebEnrichmentRequest.keywords := None;
         WebEnrichmentRequest.max_results :=
           Some QUERY_SETTINGS.WEB_SEARCH.max_results;
         WebEnrichmentRequest.concise_mode :=
           Some QUERY_SETTINGS.WEB_SEARCH.concise_mode |}
      (env w1) in
  with_pendingWebSearches
    (pendingWebSearches w1
       ++ [ {| PendingWebSearch.messageId := messageId;
               PendingWebSearch.request := request |} ])
    w1.

(** [handleWebSearch] from the await on: the rest of the [try] block on
    success, the [catch] clause on failure. *)
Definition handleWebSearch_settled (messageId : string)
    (fetched : Fetched WebEnrichmentResponse.t) (w : World) : World :=
  match api.webSearchExplicit fetched (env w) with
  | (env', Return webSearchResponse) =>
      actions.updateMessage messageId
        {| Updates.id := None; Updates.type := None; Updates.content := None;
           Updates.timestamp := None; Updates.sources := None;
           Updates.enhancedResponse := None;
           Updates.webSearchResponse := Some (Some webSearchResponse);
           Updates.isWebSearchLoading := Some (Some false);
           Updates.showWebSearchButton := Some (Some false) |}
        (with_env env' w)
  | (env', Throw err) =>
      if instanceof_AuthenticationError err
      then logout (with_env env' w)
      else
        let w1 :=
          actions.setError
            (Some ("Web search failed: "
                   +:+ (if instanceof_Error err
                        then message_of err
                        else "Unknown error")))
            (with_env env' w) in
        actions.updateMessage messageId
          {| Updates.id := None; Updates.type := None; Updates.content := None;
             Updates.timestamp := None; Updates.sources := None;
             Updates.enhancedResponse := None;
             Updates.webSearchResponse := None;
             Updates.isWebSearchLoading := Some (Some false);
             Updates.showWebSearchButton := None |} w1
  end.

(** [MessageItem]: the condition under which the web-search button is
    rendered, [message.showWebSearchButton && message.enhancedResponse &&
    !message.webSearchResponse], and its [disabled] attribute. *)
Definition offersWebSearch (message : Message.t) : bool :=
  match Message.showWebSearchButton message,
        Message.enhancedResponse message,
        Message.webSearchResponse message with
  | Some true, Some _, None => true
  | _, _, _ => false
  end.

Definition webSearchDisabled (message : Message.t) : bool :=
  match Message.isWebSearchLoading message with
  | Some true => true
  | _ => false
  end.

(** [handleWebSearchClick] of the item rendered for [messages[i]].  The
    [find] compares positions of message objects ([indexOf]), so it
    yields the message just before position [i] when that one is a user
    message, and nothing otherwise. *)
Definition handleWebSearchClick (i : nat) (message : Message.t) (w : World)
  : World :=
  let userQuery :=
    match i with
    | O => ""
    | S j =>
        match messages (chat w) !! j with
        | Some m =>
            match Message.type m with
            | user => Message.content m
            | assistant => ""
            end
        | None => ""
        end
    end in
  match Message.enhancedResponse message with
  | Some enhancedResponse =>
      handleWebSearch (Message.id message) userQuery enhancedResponse w
  | None => w
  end.

(** The values of [QUERY_MODES] (config/query-modes.ts), which are what
    the mode dropdown can pass to [setQueryMode]. *)
Definition QUERY_MODES : list QueryMode := ["basic"; "combined"; "enhanced"].

(** What can happen to the mounted controller: a user action on an
    enabled control, or the settlement of a suspended call.  A clock
    reading is part of the event at which the code takes it. *)
Inductive Event : Type :=
  | HealthSettled (fetched : Fetched HealthResponse.t)
  | InputChanged (value : string)
  | ModeSelected (mode : QueryMode)
  | ErrorDismissed
  | FormSubmitted (now date : Z)
  | QuerySettled (k : nat) (settled : Settlement) (now date : Z)
  | WebSearchClicked (i : nat)
  | WebSearchSettled (k : nat) (fetched : Fetched WebEnrichmentResponse.t).

Definition step (w : World) (ev : Event) : World :=
  match ev with
  | HealthSettled fetched =>
      if healthCheckPending w
      then checkHealth fetched (with_healthCheckPending false w)
      else w
  | InputChanged value =>
      if inputDisabled (chat w) then w else actions.setInput value w
  | ModeSelected mode =>
      if bool_decide (mode ∈ QUERY_MODES) then actions.setQueryMode mode w else w
  | ErrorDismissed =>
      match error (chat w) with
      | Some text => if truthy text then actions.setError None w else w
      | None => w
      end
  | FormSubmitted now date =>
      if submitDisabled (chat w) then w else handleSubmit now date w
  | QuerySettled k settled now date =>
      match pendingQueries w !! k with
      | Some pending =>
          match execute (PendingQuery.strategy pending) settled now date (env w) with
          | Some (env', outcome) =>
              handleSubmit_settled outcome
                (with_env env'
                   (with_pendingQueries (delete k (pendingQueries w)) w))
          | None => w
          end
      | None => w
      end
  | WebSearchClicked i =>
      match messages (chat w) !! i with
      | Some message =>
          if offersWebSearch message && negb (webSearchDisabled message)
          then handleWebSearchClick i message w
          else w
      | None => w
      end
  | WebSearchSettled k fetched =>
      match pendingWebSearches w !! k with
      | Some pending =>
          handleWebSearch_settled (PendingWebSearch.messageId pending) fetched
            (with_pendingWebSearches (delete k (pendingWebSearches w)) w)
      | None => w
      end
  end.

Definition run (w : World) (events : list Event) : World :=
  fold_left step events w.

(** The controller as mounted for a session: the initial reducer state,
    the health check under way, nothing else suspended. *)
Definition mount (session : AuthContext.t) (e : Env) : World :=
  {| chat := initialState;
     auth := session;
     env := e;
     healthCheckPending := true;
     pendingQueries := [];
     pendingWebSearches := [] |}.

(** * Vocabulary of the statements *)

(** What [spread] does to each property, by whether [updates] names it. *)
Definition merged (msg : Message.t) (updates : Updates.t) (msg' : Message.t)
  : Prop :=
  Message.id msg' = default (Message.id msg) (Updates.id updates)
  /\ Message.type msg' = default (Message.type msg) (Updates.type updates)
  /\ Message.content msg'
     = default (Message.content msg) (Updates.content updates)
  /\ Message.timestamp msg'
     = default (Message.timestamp msg) (Updates.timestamp updates)
  /\ Message.sources msg'
     = default (Message.sources msg) (Updates.sources updates)
  /\ Message.enhancedResponse msg'
     = default (Message.enhancedResponse msg) (Updates.enhancedResponse updates)
  /\ Message.webSearchResponse msg'
     = default (Message.webSearchResponse msg)
               (Updates.webSearchResponse updates)
  /\ Message.isWebSearchLoading msg'
     = default (Message.isWebSearchLoading msg)
               (Updates.isWebSearchLoading updates)
  /\ Message.showWebSearchButton msg'
     = default (Message.showWebSearchButton msg)
               (Updates.showWebSearchButton updates).

(** The properties of [msg] that [updates] does not name are those of
    [msg']. *)
Definition unnamed_kept (msg : Message.t) (updates : Updates.t)
    (msg' : Message.t) : Prop :=
  (Updates.id updates = None -> Message.id msg' = Message.id msg)
  /\ (Updates.type updates = None -> Message.type msg' = Message.type msg)
  /\ (Updates.content updates = None
      -> Message.content msg' = Message.content msg)
  /\ (Updates.timestamp updates = None
      -> Message.timestamp msg' = Message.timestamp msg)
  /\ (Updates.sources updates = None
      -> Message.sources msg' = Message.sources msg)
  /\ (Updates.enhancedResponse updates = None
      -> Message.enhancedResponse msg' = Message.enhancedResponse msg)
  /\ (Updates.webSearchResponse updates = None
      -> Message.webSearchResponse msg' = Message.webSearchResponse msg)
  /\ (Updates.isWebSearchLoading updates = None
      -> Message.isWebSearchLoading msg' = Message.isWebSearchLoading msg)
  /\ (Updates.showWebSearchButton updates = None
      -> Message.showWebSearchButton msg' = Message.showWebSearchButton msg).

(** The list the [UPDATE_MESSAGE] branch builds. *)
Definition update_in (id : string) (updates : Updates.t)
    (l : list Message.t) : list Message.t :=
  map (fun msg => if String.eqb (Message.id msg) id
                  then spread msg updates else msg) l.

(** A message with the given id and role and nothing else set. *)
Definition plain_message (id : string) (type : MessageType) (content : string)
    (timestamp : Z) : Message.t :=
  {| Message.id := id; Message.type := type; Message.content := content;
     Message.timestamp := timestamp; Message.sources := None;
     Message.enhancedResponse := None; Message.webSearchResponse := None;
     Message.isWebSearchLoading := None; Message.showWebSearchButton := None |}.

(** A state whose history is [l], otherwise the initial one. *)
Definition state_with (l : list Message.t) : ChatState :=
  {| messages := l; input := input initialState;
     isLoading := isLoading initialState; error := error initialState;
     isHealthy := isHealthy initialState;
     healthDetails := healthDetails initialState;
     expandedSources := expandedSources initialState;
     queryMode := queryMode initialState |}.

(** The partial record [{ id, type, timestamp }]. *)
Definition rename_updates (id : string) (type : MessageType) (timestamp : Z)
  : Updates.t :=
  {| Updates.id := Some id; Updates.type := Some type;
     Updates.content := None; Updates.timestamp := Some timestamp;
     Updates.sources := None; Updates.enhancedResponse := None;
     Updates.webSearchResponse := None; Updates.isWebSearchLoading := None;
     Updates.showWebSearchButton := None |}.

(** The three partial records the controller passes to [updateMessage]. *)
Definition loading_updates (loading : bool) : Updates.t :=
  {| Updates.id := None; Updates.type := None; Updates.content := None;
     Updates.timestamp := None; Updates.sources := None;
     Updates.enhancedResponse := None; Updates.webSearchResponse := None;
     Updates.isWebSearchLoading := Some (Some loading);
     Updates.showWebSearchButton := None |}.

Definition enrichment_updates (webSearchResponse : WebEnrichmentResponse.t)
  : Updates.t :=
  {| Updates.id := None; Updates.type := None; Updates.content := None;
     Updates.timestamp := None; Updates.sources := None;
     Updates.enhancedResponse := None;
     Updates.webSearchResponse := Some (Some webSearchResponse);
     Updates.isWebSearchLoading := Some (Some false);
     Updates.showWebSearchButton := Some (Some false) |}.

(** An update record that names none of [id], [type] and [timestamp]. *)
Definition keeps_identity (updates : Updates.t) : Prop :=
  Updates.id updates = None
  /\ Updates.type updates = None
  /\ Updates.timestamp updates = None.

(** The storage after both session keys have been removed. *)
Definition discard_session (e : Env) : Env :=
  removeItem "user" (removeItem "auth_token" e).

(** [after] holds neither the token nor the user record, and holds under
    every other key what [before] holds. *)
Definition session_discarded (before after : Env) : Prop :=
  getItem "auth_token" after = None
  /\ getItem "user" after = None
  /\ forall key, key <> "auth_token" -> key <> "user" ->
       getItem key after = getItem key before.

(** The auth context after [logout]. *)
Definition logged_out (w : World) : Prop :=
  AuthContext.user (auth w) = None
  /\ AuthContext.token (auth w) = None
  /\ AuthContext.isAuthenticated (auth w) = false.

(** The request of [strategy] was answered with HTTP status 401. *)
Definition answered_401 (strategy : QueryStrategy) (settled : Settlement)
  : Prop :=
  match strategy, settled with
  | Basic, QuerySettlement (Return response)
  | Combined, QuerySettlement (Return response) => status response = 401
  | Enhanced, LocalSettlement (Return response) => status response = 401
  | _, _ => False
  end.

(** [after] is [before] position by position: a message with another id
    is the same message, a message with id [messageId] is related to its
    successor by [P]. *)
Definition each_message (messageId : string)
    (P : Message.t -> Message.t -> Prop) (before after : list Message.t)
  : Prop :=
  length after = length before
  /\ forall i msg, before !! i = Some msg ->
       exists msg', after !! i = Some msg'
                    /\ (Message.id msg <> messageId -> msg' = msg)
                    /\ (Message.id msg = messageId -> P msg msg').

(** Every property but [isWebSearchLoading] is the same. *)
Definition same_but_loading (msg msg' : Message.t) : Prop :=
  Message.id msg' = Message.id msg
  /\ Message.type msg' = Message.type msg
  /\ Message.content msg' = Message.content msg
  /\ Message.timestamp msg' = Message.timestamp msg
  /\ Message.sources msg' = Message.sources msg
  /\ Message.enhancedResponse msg' = Message.enhancedResponse msg
  /\ Message.webSearchResponse msg' = Message.webSearchResponse msg
  /\ Message.showWebSearchButton msg' = Message.showWebSearchButton msg.

(** Every property that is not one of the three the enrichment sets is
    the same. *)
Definition same_but_enrichment (msg msg' : Message.t) : Prop :=
  Message.id msg' = Message.id msg
  /\ Message.type msg' = Message.type msg
  /\ Message.content msg' = Message.content msg
  /\ Message.timestamp msg' = Message.timestamp msg
  /\ Message.sources msg' = Message.sources msg
  /\ Message.enhancedResponse msg' = Message.enhancedResponse msg.

(** The text the web-search handler puts in the banner for [err]. *)
Definition web_search_error (err : Thrown) : string :=
  "Web search failed: "
  +:+ (if instanceof_Error err then message_of err else "Unknown error").

(** A string with no character other than whitespace (the empty string
    is one). *)
Fixpoint whitespace_only (s : string) : Prop :=
  match s with
  | EmptyString => True
  | String c rest => is_whitespace c = true /\ whitespace_only rest
  end.

(** The condition under which the specification calls submission
    disabled. *)
Definition submission_blocked (state : ChatState) : Prop :=
  whitespace_only (input state)
  \/ isLoading state = true
  \/ isHealthy state = Some false.

(** No event of the list is the settlement of a submitted query. *)
Definition no_query_settles (events : list Event) : Prop :=
  Forall (fun ev => match ev with
                    | QuerySettled _ _ _ _ => False
                    | _ => True
                    end) events.

(** The user message [handleSubmit] builds from the input. *)
Definition userMessage_of (now date : Z) (state : ChatState) : Message.t :=
  plain_message (toString now) user (trim (input state)) date.

(** The four ways one event can change the history. *)
Inductive history_step (l : list Message.t) : list Message.t -> Prop :=
  | history_same : history_step l l
  | history_added (msg : Message.t) : history_step l (l ++ [msg])
  | history_loading (id : string) (loading : bool) :
      history_step l (update_in id (loading_updates loading) l)
  | history_enriched (id : string) (response : WebEnrichmentResponse.t) :
      history_step l (update_in id (enrichment_updates response) l).

(** The ids of the history, in order. *)
Definition ids (w : World) : list string :=
  Message.id <$> messages (chat w).

(** A run whose clock readings never go back, and in which every
    submission reads the clock at least two milliseconds after the
    reading before it ([last] is the reading before the run). *)
Fixpoint paced (last : Z) (events : list Event) : Prop :=
  match events with
  | [] => True
  | FormSubmitted now _ :: rest => last + 2 <= now /\ paced now rest
  | QuerySettled _ _ now _ :: rest => last <= now /\ paced now rest
  | _ :: rest => paced last rest
  end.

(** Every id is the numeral of a clock value at most [bound]. *)
Definition ids_up_to (bound : Z) (l : list string) : Prop :=
  Forall (fun id => exists n, id = toString n /\ n <= bound) l.

(** What holds of the controller after a paced run whose last clock
    reading was [last]: the ids are distinct; at most one query is
    pending, and then [isLoading] is set; the ids are numerals of clock
    values up to [last], or up to [last + 1] when no query is pending. *)
Definition paced_invariant (last : Z) (w : World) : Prop :=
  NoDup (ids w)
  /\ (pendingQueries w = []
      \/ exists pending, pendingQueries w = [pending]
                         /\ isLoading (chat w) = true)
  /\ ids_up_to (match pendingQueries w with
                | [] => last + 1
                | _ => last
                end) (ids w).

(** A successful phase-1 response with the given flag, and the run in
    which the clock reads 1421 at the second submission, one more than it
    read when the answer to the first was built. *)
Definition eligible_response (eligible : bool) : LocalQueryResponse.t :=
  {| LocalQueryResponse.response := "Answer";
     LocalQueryResponse.source_nodes := [];
     LocalQueryResponse.metadata_context := [];
     LocalQueryResponse.web_search_eligible := eligible;
     LocalQueryResponse.preferred_sources := None;
     LocalQueryResponse.suggested_search_context := None;
     LocalQueryResponse.message_id := Some "m1" |}.

Definition signed_in : AuthContext.t :=
  {| AuthContext.user :=
       Some {| User.username := "ada"; User.email := None;
               User.is_active := true |};
     AuthContext.token := Some "t0k3n" |}.

Definition signed_in_storage : Env :=
  Some (<[ "auth_token" := "t0k3n" ]> {[ "user" := "{...}" ]}).

Definition colliding_run : list Event :=
  [ InputChanged "What is X";
    FormSubmitted 1000 1000;
    QuerySettled 0
      (LocalSettlement
         (Return (mkResponse 200 "OK" (Return (eligible_response true)))))
      1420 1420;
    InputChanged "And Y?";
    FormSubmitted 1421 1421 ].

(** The run of [colliding_run] with the second submission at clock value
    5000 instead. *)
Definition paced_run : list Event :=
  [ InputChanged "What is X";
    FormSubmitted 1000 1000;
    QuerySettled 0
      (LocalSettlement
         (Return (mkResponse 200 "OK" (Return (eligible_response true)))))
      1420 1420;
    InputChanged "And Y?";
    FormSubmitted 5000 5000 ].

(** The controller with one question submitted and its query pending,
    and with that question answered in enhanced mode. *)
Definition asked : World :=
  run (mount signed_in signed_in_storage)
      [ InputChanged "What is X"; FormSubmitted 1000 1000 ].

Definition answered (eligible : bool) : World :=
  step asked
       (QuerySettled 0
          (LocalSettlement
             (Return (mkResponse 200 "OK"
                        (Return (eligible_response eligible)))))
          1420 1420).

(** A 401 response, whose body is not read. *)
Definition unauthorized {A : Type} : Response A :=
  mkResponse 401 "Unauthorized" (Throw (Error "body not read")).

(** A phase-2 response. *)
Definition enrichment : WebEnrichmentResponse.t :=
  {| WebEnrichmentResponse.synthesized_keywords := [];
     WebEnrichmentResponse.web_search_results := [];
     WebEnrichmentResponse.enriched_response := "Enriched";
     WebEnrichmentResponse.sources_fetched := 0%Q |}.

(** The backend answer [{response: "Answer", source_nodes: []}]. *)
Definition plain_answer : QueryResponse.t :=
  {| QueryResponse.response := "Answer"; QueryResponse.source_nodes := [] |}.

(** A basic-mode conversation: one question, one answer. *)
Definition basic_run : list Event :=
  [ ModeSelected "basic";
    InputChanged "What is X";
    FormSubmitted 1000 1000;
    QuerySettled 0
      (QuerySettlement (Return (mkResponse 200 "OK" (Return plain_answer))))
      1420 1420 ].

(** An enhanced-mode conversation followed by a web search on the
    answer. *)
Definition enriched_run : list Event :=
  [ InputChanged "What is X";
    FormSubmitted 1000 1000;
    QuerySettled 0
      (LocalSettlement
         (Return (mkResponse 200 "OK" (Return (eligible_response true)))))
      1420 1420;
    WebSearchClicked 1;
    WebSearchSettled 0 (Return (mkResponse 200 "OK" (Return enrichment))) ].

(** Either nothing is pending and [isLoading] is clear, or one query is
    pending and [isLoading] is set. *)
Definition one_query_at_a_time (w : World) : Prop :=
  (pendingQueries w = [] /\ isLoading (chat w) = false)
  \/ (exists pending, pendingQueries w = [pending]
                      /\ isLoading (chat w) = true).

(** The component of the state an action writes. *)
Inductive Component : Type :=
  | in_messages
  | in_input
  | in_isLoading
  | in_error
  | in_health
  | in_queryMode
  | in_expandedSources
  | in_nothing.

Definition component (action : ChatAction) : Component :=
  match action with
  | SET_INPUT _ | CLEAR_INPUT => in_input
  | SET_LOADING _ => in_isLoading
  | SET_ERROR _ => in_error
  | SET_HEALTH _ _ => in_health
  | SET_QUERY_MODE _ => in_queryMode
  | ADD_MESSAGE _ | UPDATE_MESSAGE _ _ => in_messages
  | TOGGLE_SOURCES _ => in_expandedSources
  | OTHER_ACTION _ => in_nothing
  end.

(** The actions that overwrite their component with a value that does
    not depend on the state. *)
Definition overwrites (action : ChatAction) : bool :=
  match action with
  | SET_INPUT _ | CLEAR_INPUT | SET_LOADING _ | SET_ERROR _
  | SET_HEALTH _ _ | SET_QUERY_MODE _ => true
  | _ => false
  end.

(** The first and the last character of a string, if it has one. *)
Definition first_char (s : string) : option ascii :=
  match s with
  | EmptyString => None
  | String c _ => Some c
  end.

Fixpoint last_char (s : string) : option ascii :=
  match s with
  | EmptyString => None
  | String c EmptyString => Some c
  | String _ rest => last_char rest
  end.

(** A string that neither starts nor ends with whitespace. *)
Definition no_outer_whitespace (s : string) : Prop :=
  (forall c, first_char s = Some c -> is_whitespace c = false)
  /\ (forall c, last_char s = Some c -> is_whitespace c = false).

(** What the four protected calls have in common, for a call that
    labels its errors with [label]: a transport failure is passed on; the
    storage is written only under a 401; a value is returned only from a
    2xx response whose body parses, and then it is that body; any other
    status is an [Error] whose message is the label followed by the
    status text. *)
Definition protected_call {A : Type} (label : string)
    (call : Fetched A -> Env -> Env * Result A) : Prop :=
  (forall err e, call (Throw err) e = (e, Throw err))
  /\ (forall fetched e,
         fst (call fetched e) = e
         \/ exists response, fetched = Return response /\ status response = 401)
  /\ (forall fetched e e' value,
         call fetched e = (e', Return value) ->
         e' = e
         /\ exists response,
              fetched = Return response
              /\ 200 <= status response <= 299
              /\ json response = Return value)
  /\ (forall response e,
         200 <= status response <= 299 ->
         call (Return response) e = (e, json response))
  /\ (forall response e,
         status response <> 401 ->
         ~ 200 <= status response <= 299 ->
         call (Return response) e
         = (e, Throw (Error (label +:+ statusText response)))).

(** The health endpoint answered with a 2xx response whose body parses
    to [health]. *)
Definition health_reported (fetched : Fetched HealthResponse.t)
    (health : HealthResponse.t) : Prop :=
  exists response,
    fetched = Return response
    /\ 200 <= status response <= 299
    /\ json response = Return health.

(** The controller after a health check that failed: the status is
    [false], the check is not pending any more, no query is pending. *)
Definition unhealthy (w : World) : Prop :=
  isHealthy (chat w) = Some false
  /\ healthCheckPending w = false
  /\ pendingQueries w = [].


(** The endpoint each mode's strategy calls. *)
Definition endpoint_of (strategy : QueryStrategy) : string :=
  match strategy with
  | Basic => "/query"
  | Combined => "/query-combined"
  | Enhanced => "/query-local"
  end.



(** The request a submission in the state [state] sends, by the strategy
    of its mode and the storage at that moment. *)
Definition submitted_request (strategy : QueryStrategy) (state : ChatState)
    (e : Env) : HttpRequest :=
  {| endpoint := endpoint_of strategy;
     method := "POST";
     headers := getAuthHeaders e;
     body := Some (QueryBody {| QueryRequest.query := trim (input state);
                                QueryRequest.top_k := 5;
                                QueryRequest.filters := None |}) |}.

(** The strategy the table holds for each mode of the dropdown. *)
Definition strategy_of_mode (mode : QueryMode) (strategy : QueryStrategy)
  : Prop :=
  (mode = "basic" /\ strategy = Basic)
  \/ (mode = "combined" /\ strategy = Combined)
  \/ (mode = "enhanced" /\ strategy = Enhanced).

(** The message a basic or combined answer becomes. *)
Definition plain_answer_message (body : QueryResponse.t) (now date : Z)
  : Message.t :=
  {| Message.id := toString (now + 1);
     Message.type := assistant;
     Message.content := QueryResponse.response body;
     Message.timestamp := date;
     Message.sources := Some (QueryResponse.source_nodes body);
     Message.enhancedResponse := None;
     Message.webSearchResponse := None;
     Message.isWebSearchLoading := None;
     Message.showWebSearchButton := None |}.

(** A history in which every assistant message directly follows a user
    message, and every user message has a content that is not empty and
    no phase-1 response. *)
Definition asks_before_answers (l : list Message.t) : Prop :=
  forall i msg, l !! i = Some msg ->
    match Message.type msg with
    | user =>
        Message.enhancedResponse msg = None /\ Message.content msg <> ""
    | assistant =>
        exists j question,
          i = S j /\ l !! j = Some question /\ Message.type question = user
    end.

(** What holds of the controller in every state it reaches: the history
    is as above, at most one query is pending, and while one is pending
    the last message is the user's question. *)
Definition conversation_invariant (w : World) : Prop :=
  asks_before_answers (messages (chat w))
  /\ one_query_at_a_time w
  /\ (pendingQueries w <> [] ->
      exists question,
        last (messages (chat w)) = Some question
        /\ Message.type question = user).

(** An update record that names none of [type], [content] and
    [enhancedResponse]. *)
Definition keeps_role (updates : Updates.t) : Prop :=
  Updates.type updates = None
  /\ Updates.content updates = None
  /\ Updates.enhancedResponse updates = None.

(** The phase-2 request for the answer [enhancedResponse] to the
    question [originalQuery]. *)
Definition enrichment_request (originalQuery : string)
    (enhancedResponse : LocalQueryResponse.t) : WebEnrichmentRequest.t :=
  {| WebEnrichmentRequest.query := originalQuery;
     WebEnrichmentRequest.message_id :=
       or_undefined (LocalQueryResponse.message_id enhancedResponse);
     WebEnrichmentRequest.local_context :=
       or_undefined
         (LocalQueryResponse.suggested_search_context enhancedResponse);
     WebEnrichmentRequest.preferred_sources :=
       LocalQueryResponse.preferred_sources enhancedResponse;
     WebEnrichmentRequest.keywords := None;
     WebEnrichmentRequest.max_results := Some 5;
     WebEnrichmentRequest.concise_mode := Some true |}.

(** * The auth provider and its screens (contexts/auth-context.tsx,
      ProtectedWrapper, LoginModal) *)

Module LoginResponse.
Record t : Type := mk {
  access_token : string;
  token_type : string;
  user : User.t
}.
End LoginResponse.

(** The value of [errorData?.detail], where [errorData] is what
    [response.json().catch(() => null)] gives, as far as [login] reads
    it.  It is [undefined] when the body does not parse, is no object or
    has no [detail]; it is a string; or it is another JSON value (FastAPI
    sends an array of objects with a 422), of which [login] reads only
    whether it is truthy, for [||], and what [new Error(...)] makes of
    it, [String(value)]: "[object Object]" for an object, the elements
    joined by commas for an array. *)
Module Detail.
Inductive t : Type :=
  | undefined
  | a_string (s : string)
  | other (truthy : bool) (text : string).

Definition ToBoolean (detail : t) : bool :=
  match detail with
  | undefined => false
  | a_string s => truthy s
  | other truthy _ => truthy
  end.

Definition ToString (detail : t) : string :=
  match detail with
  | undefined => "undefined"
  | a_string s => s
  | other _ text => text
  end.
End Detail.

(** What [fetch] resolves to for [/login], as far as [login] reads it:
    the status line; [detail], the value of [errorData?.detail]; and
    [data], what [response.json()] settles to at the type
    [LoginResponse].  [login] reads [detail] only when the status is not
    2xx and [data] only when it is. *)
Module LoginHttpResponse.
Record t : Type := mk {
  status : Z;
  statusText : string;
  detail : Detail.t;
  data : Result LoginResponse.t
}.

Definition ok (response : t) : bool :=
  (200 <=? status response) && (status response <=? 299).
End LoginHttpResponse.

(** The state of [AuthProvider]: the context value and [loading]. *)
Module AuthProvider.
Record t : Type := mk {
  context : AuthContext.t;
  loading : bool
}.

(** [useState(null)], [useState(null)], [useState(true)]. *)
Definition initial : t :=
  {| context := {| AuthContext.user := None; AuthContext.token := None |};
     loading := true |}.

(** The body [JSON.stringify({ username, password })] of the request. *)
Record LoginRequest : Type := mkLoginRequest {
  url : string;
  request_method : string;
  request_headers : gmap string string;
  username : string;
  password : string
}.

Definition login_request (username password : string) : LoginRequest :=
  {| url := "/login";
     request_method := "POST";
     request_headers := {[ "Content-Type" := "application/json" ]};
     username := username;
     password := password |}.

Section JSON.

(** [JSON.stringify] at the type [User] and [JSON.parse] of a stored
    string, whose result is a user, [null], or a thrown [SyntaxError]. *)
Variable JSON_stringify : User.t -> string.
Variable JSON_parse : string -> Result (option User.t).

(** The effect that runs once when the provider mounts. *)
Definition hydrate (p : t) (e : Env) : t * Env :=
  match e with
  | Some store =>
      match store !! "auth_token", store !! "user" with
      | Some savedToken, Some savedUser =>
          if truthy savedToken && truthy savedUser
          then
            match JSON_parse savedUser with
            | Return parsed =>
                ({| context := {| AuthContext.user := parsed;
                                  AuthContext.token := Some savedToken |};
                    loading := false |}, e)
            | Throw _ =>
                ({| context := {| AuthContext.user :=
                                    AuthContext.user (context p);
                                  AuthContext.token := Some savedToken |};
                    loading := false |},
                 removeItem "user" (removeItem "auth_token" e))
            end
          else ({| context := context p; loading := false |}, e)
      | _, _ => ({| context := context p; loading := false |}, e)
      end
  | None => ({| context := context p; loading := false |}, e)
  end.

(** [login] once [fetch] has settled. *)
Definition login (fetched : Result LoginHttpResponse.t) (p : t) (e : Env)
  : t * Env * Result LoginResponse.t :=
  match fetched with
  | Throw err => (p, e, Throw err)
  | Return response =>
      if negb (LoginHttpResponse.ok response)
      then
        (p, e,
         Throw (Error
                  (if Detail.ToBoolean (LoginHttpResponse.detail response)
                   then Detail.ToString (LoginHttpResponse.detail response)
                   else "Login failed: "
                        +:+ LoginHttpResponse.statusText response)))
      else
        match LoginHttpResponse.data response with
        | Throw err => (p, e, Throw err)
        | Return data =>
            ({| context :=
                  {| AuthContext.user := Some (LoginResponse.user data);
                     AuthContext.token :=
                       Some (LoginResponse.access_token data) |};
                loading := loading p |},
             setItem "user" (JSON_stringify (LoginResponse.user data))
               (setItem "auth_token" (LoginResponse.access_token data) e),
             Return data)
        end
  end.

End JSON.

Definition logout (p : t) (e : Env) : t * Env :=
  ({| context := {| AuthContext.user := None; AuthContext.token := None |};
      loading := loading p |},
   removeItem "user" (removeItem "auth_token" e)).

End AuthProvider.

(** What [ProtectedWrapper] renders. *)
Inductive Screen : Type :=
  | LoadingScreen
  | LoginScreen
  | ProtectedContent.

Definition ProtectedWrapper (p : AuthProvider.t) : Screen :=
  if AuthProvider.loading p then LoadingScreen
  else if negb (AuthContext.isAuthenticated (AuthProvider.context p))
          || match AuthContext.user (AuthProvider.context p) with
             | Some _ => false
             | None => true
             end
       then LoginScreen
       else ProtectedContent.

(** [AuthNavbar] renders something ([true]) or [null] ([false]). *)
Definition AuthNavbar (p : AuthProvider.t) : bool :=
  negb (negb (AuthContext.isAuthenticated (AuthProvider.context p))
        || match AuthContext.user (AuthProvider.context p) with
           | Some _ => false
           | None => true
           end).

(** The state of [LoginModal]. *)
Module LoginModal.
Record t : Type := mk {
  username : string;
  password : string;
  error : option string;
  isLoading : bool
}.

(** The [disabled] attribute of the submit button. *)
Definition submitDisabled (m : t) : bool :=
  isLoading m || negb (truthy (trim (username m)))
  || negb (truthy (trim (password m))).

(** [handleSubmit] up to its await: the new state, and the arguments of
    the call of [login] if it makes one. *)
Definition handleSubmit (m : t) : t * option (string * string) :=
  if negb (truthy (trim (username m))) || negb (truthy (trim (password m)))
  then ({| username := username m; password := password m;
           error := Some "Please enter both username and password";
           isLoading := isLoading m |}, None)
  else if (String.length (username m) <? 3)%nat
  then ({| username := username m; password := password m;
           error := Some "Username must be at least 3 characters";
           isLoading := isLoading m |}, None)
  else ({| username := username m; password := password m;
           error := None; isLoading := true |},
        Some (trim (username m), password m)).

(** [handleSubmit] once [login] has settled. *)
Definition handleSubmit_settled (outcome : Result LoginResponse.t) (m : t)
  : t :=
  match outcome with
  | Return _ =>
      {| username := ""; password := ""; error := error m;
         isLoading := false |}
  | Throw err =>
      {| username := username m; password := password m;
         error := Some (if instanceof_Error err then message_of err
                        else "Login failed");
         isLoading := false |}
  end.
End LoginModal.

(** The storage holds a non-empty string under [key]. *)
Definition holds (key : string) (e : Env) : Prop :=
  exists value, getItem key e = Some value /\ value <> "".

(** [after] differs from [before] at most under the two session keys. *)
Definition same_but_session (before after : Env) : Prop :=
  forall key, key <> "auth_token" -> key <> "user" ->
    getItem key after = getItem key before.

(** A toy serialisation of users for the examples: the user name. *)
Definition name_of_user (u : User.t) : string := User.username u.

Definition user_of_name (s : string) : Result (option User.t) :=
  if String.eqb s "null" then Return None
  else if String.eqb s "{" then Throw (Error "Unexpected end of JSON input")
  else Return (Some {| User.username := s; User.email := None;
                       User.is_active := true |}).

Definition ada : User.t :=
  {| User.username := "ada"; User.email := None; User.is_active := true |}.

Definition login_success : LoginHttpResponse.t :=
  {| LoginHttpResponse.status := 200;
     LoginHttpResponse.statusText := "OK";
     LoginHttpResponse.detail := Detail.undefined;
     LoginHttpResponse.data :=
       Return {| LoginResponse.access_token := "t0k3n";
                 LoginResponse.token_type := "bearer";
                 LoginResponse.user := ada |} |}.

Definition login_refused : LoginHttpResponse.t :=
  {| LoginHttpResponse.status := 401;
     LoginHttpResponse.statusText := "Unauthorized";
     LoginHttpResponse.detail :=
       Detail.a_string "Incorrect username or password";
     LoginHttpResponse.data := Throw (Error "body not read") |}.

(** A 422 whose [detail] is an array holding one object. *)
Definition login_invalid : LoginHttpResponse.t :=
  {| LoginHttpResponse.status := 422;
     LoginHttpResponse.statusText := "Unprocessable Entity";
     LoginHttpResponse.detail := Detail.other true "[object Object]";
     LoginHttpResponse.data := Throw (Error "body not read") |}.

(** * Mode configuration (config/query-modes.ts) *)

Module QueryModeConfig.
Record t : Type := mk {
  value : QueryMode;
  label : string;
  description : string;
  icon : string;
  behavior : QueryMode;
  default : option bool
}.
End QueryModeConfig.

Module query_modes.

Definition QUERY_MODES : list QueryModeConfig.t :=
  [ {| QueryModeConfig.value := "basic";
       QueryModeConfig.label := "Basic";
       QueryModeConfig.icon := "Database";
       QueryModeConfig.description := "Database only";
       QueryModeConfig.behavior := "basic";
       QueryModeConfig.default := None |};
    {| QueryModeConfig.value := "combined";
       QueryModeConfig.label := "Web Enhanced";
       QueryModeConfig.icon := "Globe";
       QueryModeConfig.description := "Automatic web search";
       QueryModeConfig.behavior := "combined";
       QueryModeConfig.default := None |};
    {| QueryModeConfig.value := "enhanced";
       QueryModeConfig.label := "Two Step";
       QueryModeConfig.icon := "Sparkles";
       QueryModeConfig.description := "Controlled web search";
       QueryModeConfig.behavior := "enhanced";
       QueryModeConfig.default := Some true |} ].

(** The list of the second copy of the file (src/unnamed/part_000), with
    its own order and labels. *)
Definition QUERY_MODES_second : list QueryModeConfig.t :=
  [ {| QueryModeConfig.value := "basic";
       QueryModeConfig.label := "Basic Search";
       QueryModeConfig.icon := "Database";
       QueryModeConfig.description := "Only Embedding Search";
       QueryModeConfig.behavior := "basic";
       QueryModeConfig.default := None |};
    {| QueryModeConfig.value := "enhanced";
       QueryModeConfig.label := "Two Step";
       QueryModeConfig.icon := "Sparkles";
       QueryModeConfig.description := "Embedding + Manual Web Search";
       QueryModeConfig.behavior := "enhanced";
       QueryModeConfig.default := Some true |};
    {| QueryModeConfig.value := "combined";
       QueryModeConfig.label := "Auto Web Search";
       QueryModeConfig.icon := "Globe";
       QueryModeConfig.description := "Embedding + ChatGPT Web Search";
       QueryModeConfig.behavior := "combined";
       QueryModeConfig.default := None |} ].

(** [modes.find((m) => m.value === value) ?? modes[0]]: [None] is the
    [undefined] an empty list gives. *)
Definition getModeByValue (value : QueryMode)
    (modes : list QueryModeConfig.t) : option QueryModeConfig.t :=
  match List.find (fun m => String.eqb (QueryModeConfig.value m) value) modes with
  | Some m => Some m
  | None => head modes
  end.

(** [(modes.find((m) => m.default) ?? modes[0]).value]: reading [value]
    of the [undefined] an empty list gives throws a [TypeError]. *)
Definition getDefaultModeValue (modes : list QueryModeConfig.t)
  : Result QueryMode :=
  match List.find (fun m => match QueryModeConfig.default m with
                            | Some true => true
                            | _ => false
                            end) modes with
  | Some m => Return (QueryModeConfig.value m)
  | None =>
      match head modes with
      | Some m => Return (QueryModeConfig.value m)
      | None =>
          Throw (Error "Cannot read properties of undefined (reading 'value')")
      end
  end.

End query_modes.

(** [getCurrentModeConfig] of [ChatInterface]: icon, label and
    description of the configuration found for the mode ([None] where
    reading a property of [undefined] throws). *)
Definition getCurrentModeConfig (state : ChatState)
  : option (string * string * string) :=
  match query_modes.getModeByValue (queryMode state) query_modes.QUERY_MODES with
  | Some cfg =>
      Some (QueryModeConfig.icon cfg, QueryModeConfig.label cfg,
            QueryModeConfig.description cfg)
  | None => None
  end.

(** [config] is the first element of [modes] that satisfies [test]. *)
Definition first_such {A : Type} (test : A -> bool) (modes : list A)
    (config : A) : Prop :=
  exists before after,
    modes = (before ++ config :: after)%list
    /\ test config = true
    /\ forall m, m ∈ before -> test m = false.

(** * The list of sources (SourcesList) and text formatting
      (utils/markdown.tsx) *)

Module SourcesList.

(** From [CHAT_CONSTANTS] (constants/chat.ts). *)
Definition SOURCE_TEXT_PREVIEW_LENGTH : nat := 400.
Definition MAX_METADATA_TAGS : nat := 6.
Definition EXCLUDED_METADATA_KEYS : list string := ["source_type"; "web_sources"].

(** The text shown for a source: the whole text, or its first 400
    characters followed by "...". *)
Definition text_preview (text : string) : string :=
  if (SOURCE_TEXT_PREVIEW_LENGTH <? String.length text)%nat
  then String.substring 0 SOURCE_TEXT_PREVIEW_LENGTH text +:+ "..."
  else text.

(** [!EXCLUDED_METADATA_KEYS.includes(key)]. *)
Definition not_excluded (key : string) : bool :=
  negb (existsb (String.eqb key) EXCLUDED_METADATA_KEYS).

(** [Object.entries(metadata).filter(([key]) => ...)]. *)
Definition tag_entries (metadata : JsonRecord) : JsonRecord :=
  List.filter (fun entry => not_excluded entry.1) metadata.

(** [....slice(0, MAX_METADATA_TAGS)]: the entries that are rendered. *)
Definition shown_entries (metadata : JsonRecord) : JsonRecord :=
  take MAX_METADATA_TAGS (tag_entries metadata).

(** The number in "+N more", when that is rendered. *)
Definition more_count (metadata : JsonRecord) : option nat :=
  if (MAX_METADATA_TAGS <? length (tag_entries metadata))%nat
  then Some (length (tag_entries metadata) - MAX_METADATA_TAGS)%nat
  else None.

(** Whether the block of metadata tags is rendered for a source. *)
Definition tags_rendered (source : SourceNode.t) : bool :=
  match SourceNode.metadata source with
  | Some metadata => (0 <? length (tag_entries metadata))%nat
  | None => false
  end.

(** Whether the component renders anything ([!sources ||
    sources.length === 0] returns [null]), for the [message.sources ||
    []] that [MessageItem] passes. *)
Definition renders (sources : option (list SourceNode.t)) : bool :=
  match sources with
  | Some (_ :: _) => true
  | _ => false
  end.

End SourcesList.

(** The newline character. *)
Definition newline : ascii := ascii_of_nat 10.

Definition is_newline (c : ascii) : bool := Ascii.eqb c newline.

(** [s.replace(/\n\n/g, '\n')]: each pair of newlines found from left to
    right, without overlap, becomes one newline. *)
Fixpoint halve_newline_pairs (s : string) : string :=
  match s with
  | EmptyString => EmptyString
  | String a tail =>
      match tail with
      | String b rest =>
          if is_newline a && is_newline b
          then String newline (halve_newline_pairs rest)
          else String a (halve_newline_pairs tail)
      | EmptyString => String a EmptyString
      end
  end.

(** [s.replace(/\n/g, '\n')]. *)
Fixpoint replace_newlines (s : string) : string :=
  match s with
  | EmptyString => EmptyString
  | String c rest =>
      String (if is_newline c then newline else c) (replace_newlines rest)
  end.

Definition formatBasicText (content : string) : string :=
  replace_newlines (halve_newline_pairs content).

(** A string of [n] newlines. *)
Fixpoint newlines (n : nat) : string :=
  match n with
  | O => EmptyString
  | S n' => String newline (newlines n')
  end.

(** No two newlines in a row. *)
Fixpoint no_blank_line (s : string) : Prop :=
  match s with
  | EmptyString => True
  | String a tail =>
      match tail with
      | String b _ => (is_newline a && is_newline b = false) /\ no_blank_line tail
      | EmptyString => True
      end
  end.

(** The characters of a string that are not newlines, in order. *)
Fixpoint without_newlines (s : string) : string :=
  match s with
  | EmptyString => EmptyString
  | String c rest =>
      if is_newline c then without_newlines rest
      else String c (without_newlines rest)
  end.

(** Whether a string starts with a newline. *)
Definition starts_with_newline (s : string) : bool :=
  match s with
  | String c _ => is_newline c
  | EmptyString => false
  end.

(** A metadata entry that is shown as a tag: its key is none of the
    excluded ones. *)
Definition qualifies (entry : string * Json) : Prop :=
  entry.1 <> "source_type" /\ entry.1 <> "web_sources".

(** * Properties *)

(** ** Worked examples *)

Example toString_example : toString (1730534400000 + 1) = "1730534400001".
Proof. vm_compute. reflexivity. Qed.

Example getStrategy_example :
  QueryStrategyFactory.getStrategy "combined"
  = Return (strategy_object Combined)
  /\ QueryStrategyFactory.getStrategy "hybrid"
     = Throw (Error "Unknown query mode: hybrid").
Proof. split; vm_compute; reflexivity. Qed.

Example trim_example : trim "  What is X  " = "What is X" /\ trim "   " = "".
Proof. split; reflexivity. Qed.

(** ** The reducer *)

Lemma spread_merged msg updates : merged msg updates (spread msg updates).
Proof. repeat split. Qed.

Lemma spread_unnamed_kept msg updates :
  unnamed_kept msg updates (spread msg updates).
Proof.
  unfold unnamed_kept, spread; simpl.
  repeat split; intros ->; reflexivity.
Qed.

Lemma spread_none msg : spread msg Updates.none = msg.
Proof. destruct msg; reflexivity. Qed.

Lemma messages_update state id updates :
  messages (chatReducer state (UPDATE_MESSAGE id updates))
  = update_in id updates (messages state).
Proof. reflexivity. Qed.

Lemma update_in_lookup id updates l i msg :
  l !! i = Some msg ->
  update_in id updates l !! i
  = Some (if String.eqb (Message.id msg) id then spread msg updates else msg).
Proof.
  intros Hi. unfold update_in.
  change (map ?f l) with (f <$> l).
  rewrite list_lookup_fmap, Hi. reflexivity.
Qed.

Lemma update_in_absent id updates l :
  (forall msg, msg ∈ l -> Message.id msg <> id) ->
  update_in id updates l = l.
Proof.
  induction l as [|m l IH]; intros Hl; [reflexivity|].
  simpl. destruct (String.eqb_spec (Message.id m) id) as [E|_].
  - exfalso. apply (Hl m); [left | exact E].
  - f_equal. apply IH. intros msg Hin. apply Hl. right. exact Hin.
Qed.

Lemma state_eta state :
  {| messages := messages state; input := input state;
     isLoading := isLoading state; error := error state;
     isHealthy := isHealthy state; healthDetails := healthDetails state;
     expandedSources := expandedSources state;
     queryMode := queryMode state |} = state.
Proof. destruct state; reflexivity. Qed.

(** C2.  [UPDATE_MESSAGE] with an id and a partial record: every component
    of the state other than the history is kept; the history keeps its
    length; a message with another id is kept as it is; a message with
    that id becomes the merge, in which every property the record does
    not name is the one it had; and when no message has the id the
    reducer returns a state equal to the one it was given. *)
Theorem update_message_frame (state : ChatState) (id : string)
    (updates : Updates.t) :
  let state' := chatReducer state (UPDATE_MESSAGE id updates) in
  (input state' = input state
   /\ isLoading state' = isLoading state
   /\ error state' = error state
   /\ isHealthy state' = isHealthy state
   /\ healthDetails state' = healthDetails state
   /\ expandedSources state' = expandedSources state
   /\ queryMode state' = queryMode state)
  /\ length (messages state') = length (messages state)
  /\ (forall i msg, messages state !! i = Some msg ->
        Message.id msg <> id -> messages state' !! i = Some msg)
  /\ (forall i msg, messages state !! i = Some msg ->
        Message.id msg = id ->
        exists msg', messages state' !! i = Some msg'
                     /\ merged msg updates msg'
                     /\ unnamed_kept msg updates msg')
  /\ ((forall msg, msg ∈ messages state -> Message.id msg <> id) ->
      state' = state).
Proof.
  cbv zeta. split; [repeat split|].
  rewrite messages_update. split; [|split; [|split]].
  - unfold update_in. apply length_map.
  - intros i msg Hi Hne. rewrite (update_in_lookup _ _ _ _ _ Hi).
    destruct (String.eqb_spec (Message.id msg) id); [contradiction|reflexivity].
  - intros i msg Hi He. exists (spread msg updates).
    rewrite (update_in_lookup _ _ _ _ _ Hi).
    rewrite (proj2 (String.eqb_eq _ _) He).
    split; [reflexivity|]. split; [apply spread_merged|apply spread_unnamed_kept].
  - intros Habsent. simpl.
    fold (update_in id updates (messages state)).
    rewrite (update_in_absent _ _ _ Habsent). apply state_eta.
Qed.

(** C5, as stated, fails: a partial record that names [id], [type] and
    [timestamp] overwrites all three in the targeted message. *)
Lemma update_message_overwrites_identity :
  let before := plain_message "1" user "hello" 1000 in
  let state' :=
    chatReducer (state_with [before])
                (UPDATE_MESSAGE "1" (rename_updates "2" assistant 2000)) in
  (Message.id before, Message.type before, Message.timestamp before)
  = ("1", user, 1000)
  /\ (fun after => (Message.id after, Message.type after,
                    Message.timestamp after)) <$> messages state'
     = [("2", assistant, 2000)].
Proof. split; reflexivity. Qed.

(** C5, amended.  [UPDATE_MESSAGE] leaves the [id], [type] and [timestamp]
    of a targeted message as they were whenever the partial record names
    none of them, which holds for the three records the controller
    dispatches; a property the record does name takes the record's
    value. *)
Theorem update_message_keeps_identity (state : ChatState) (id : string)
    (updates : Updates.t) (i : nat) (msg : Message.t) :
  messages state !! i = Some msg ->
  Message.id msg = id ->
  exists msg',
    messages (chatReducer state (UPDATE_MESSAGE id updates)) !! i = Some msg'
    /\ (keeps_identity updates ->
        Message.id msg' = Message.id msg
        /\ Message.type msg' = Message.type msg
        /\ Message.timestamp msg' = Message.timestamp msg)
    /\ (forall v, Updates.id updates = Some v -> Message.id msg' = v)
    /\ (forall v, Updates.type updates = Some v -> Message.type msg' = v)
    /\ (forall v, Updates.timestamp updates = Some v ->
                  Message.timestamp msg' = v)
    /\ (forall loading response,
           keeps_identity (loading_updates loading)
           /\ keeps_identity (enrichment_updates response)).
Proof.
  intros Hi He. exists (spread msg updates).
  rewrite messages_update, (update_in_lookup _ _ _ _ _ Hi).
  rewrite (proj2 (String.eqb_eq _ _) He).
  split; [reflexivity|]. split; [|split; [|split; [|split]]].
  - intros (Hid & Hty & Hts). unfold spread; simpl.
    rewrite Hid, Hty, Hts. repeat split.
  - intros v Hv. unfold spread; simpl. rewrite Hv. reflexivity.
  - intros v Hv. unfold spread; simpl. rewrite Hv. reflexivity.
  - intros v Hv. unfold spread; simpl. rewrite Hv. reflexivity.
  - intros loading response. repeat split.
Qed.

Lemma update_message_keeps_identity_witness :
  exists msg',
    messages (chatReducer (state_with [plain_message "1" user "hello" 1000])
                          (UPDATE_MESSAGE "1" (loading_updates true))) !! 0%nat
    = Some msg'
    /\ Message.id msg' = "1".
Proof.
  destruct (update_message_keeps_identity
              (state_with [plain_message "1" user "hello" 1000]) "1"
              (loading_updates true) 0 (plain_message "1" user "hello" 1000)
              eq_refl eq_refl)
    as (msg' & Hlookup & Hkeep & _).
  exists msg'. split; [exact Hlookup|].
  destruct Hkeep as (Hid & _); [repeat split|]. exact Hid.
Defined.

Lemma messages_add_all state (added : list Message.t) :
  messages (dispatch_all state (ADD_MESSAGE <$> added))
  = (messages state ++ added)%list.
Proof.
  unfold dispatch_all. revert state.
  induction added as [|m added IH]; intros state; simpl.
  - symmetry. apply app_nil_r.
  - rewrite IH. simpl. rewrite <- app_assoc. reflexivity.
Qed.

(** C8.  Dispatching [ADD_MESSAGE] for each message of a list, in order,
    gives the starting history followed by that list, so the length grows
    by the number of additions; and an action that is not [ADD_MESSAGE]
    keeps the length and keeps every position, whose message is either
    the one it was or, under [UPDATE_MESSAGE] with its id, its merge with
    the update record. *)
Theorem history_is_append_only (state : ChatState) :
  (forall added : list Message.t,
      let state' := dispatch_all state (ADD_MESSAGE <$> added) in
      messages state' = (messages state ++ added)%list
      /\ length (messages state')
         = (length (messages state) + length added)%nat)
  /\ (forall action : ChatAction,
         (forall msg, action <> ADD_MESSAGE msg) ->
         let state' := chatReducer state action in
         length (messages state') = length (messages state)
         /\ forall i msg, messages state !! i = Some msg ->
              messages state' !! i = Some msg
              \/ exists id updates,
                   action = UPDATE_MESSAGE id updates
                   /\ Message.id msg = id
                   /\ messages state' !! i = Some (spread msg updates)).
Proof.
  split.
  - intros added. cbv zeta. rewrite messages_add_all.
    split; [reflexivity|apply length_app].
  - intros action Hnot. cbv zeta.
    destruct action as [p|p|p|h d|p|m|id updates| |p|t];
      try (split; [reflexivity|intros i msg Hi; left; exact Hi]).
    + exfalso. exact (Hnot m eq_refl).
    + rewrite messages_update. split; [apply length_map|].
      intros i msg Hi. rewrite (update_in_lookup _ _ _ _ _ Hi).
      destruct (String.eqb_spec (Message.id msg) id) as [E|_].
      * right. exists id, updates. repeat split. exact E.
      * left. reflexivity.
Qed.

Lemma toggle_toggle (expanded : gset string) (messageId : string) :
  toggle (toggle expanded messageId) messageId = expanded.
Proof.
  unfold toggle. destruct (decide (messageId ∈ expanded)) as [Hin|Hout].
  - rewrite decide_False by set_solver.
    apply set_eq. intros x. rewrite elem_of_union, elem_of_difference,
      elem_of_singleton.
    destruct (decide (x = messageId)) as [->|Hne]; naive_solver.
  - rewrite decide_True by set_solver.
    apply set_eq. intros x. rewrite elem_of_difference, elem_of_union,
      elem_of_singleton.
    destruct (decide (x = messageId)) as [->|Hne]; naive_solver.
Qed.

Lemma toggle_flips (expanded : gset string) (messageId : string) :
  messageId ∈ toggle expanded messageId <-> messageId ∉ expanded.
Proof.
  unfold toggle. destruct (decide (messageId ∈ expanded)); set_solver.
Qed.

Lemma toggle_other (expanded : gset string) (messageId other : string) :
  other <> messageId ->
  other ∈ toggle expanded messageId <-> other ∈ expanded.
Proof.
  intros Hne. unfold toggle.
  destruct (decide (messageId ∈ expanded)); set_solver.
Qed.

(** C9.  [TOGGLE_SOURCES] with the same id twice gives back the expanded
    set, and with it the whole state; applied once it flips the
    membership of that id, keeps the membership of every other id, and
    keeps every other component of the state. *)
Theorem toggle_sources_twice (state : ChatState) (messageId : string) :
  let once := chatReducer state (TOGGLE_SOURCES messageId) in
  let twice := chatReducer once (TOGGLE_SOURCES messageId) in
  expandedSources twice = expandedSources state
  /\ twice = state
  /\ (messageId ∈ expandedSources once <-> messageId ∉ expandedSources state)
  /\ (forall other, other <> messageId ->
        (other ∈ expandedSources once <-> other ∈ expandedSources state))
  /\ messages once = messages state
  /\ input once = input state
  /\ isLoading once = isLoading state
  /\ error once = error state
  /\ isHealthy once = isHealthy state
  /\ healthDetails once = healthDetails state
  /\ queryMode once = queryMode state.
Proof.
  cbv zeta. simpl. rewrite toggle_toggle.
  split; [reflexivity|]. split; [apply state_eta|].
  split; [apply toggle_flips|]. split; [apply toggle_other|].
  repeat split.
Qed.

Lemma strategies_own (mode : string) :
  mode ∉ QUERY_MODES -> QueryStrategyFactory.strategies !! mode = None.
Proof.
  intros Hmode. unfold QueryStrategyFactory.strategies.
  assert (mode <> "basic" /\ mode <> "combined" /\ mode <> "enhanced")
    as (H1 & H2 & H3).
  { unfold QUERY_MODES in Hmode. repeat split; intros ->; apply Hmode;
      set_solver. }
  rewrite !lookup_insert_ne by congruence.
  apply lookup_singleton_ne. congruence.
Qed.





(** ** The API client and the 401 policy *)

Lemma discard_session_discarded (e : Env) :
  session_discarded e (discard_session e).
Proof.
  unfold session_discarded, discard_session.
  destruct e as [store|]; simpl; [|repeat split].
  split; [|split].
  - rewrite lookup_delete_ne by discriminate. apply lookup_delete_eq.
  - apply lookup_delete_eq.
  - intros key Htoken Huser.
    rewrite lookup_delete_ne by congruence.
    apply lookup_delete_ne. congruence.
Qed.

Lemma handleAuthError_401 {A : Type} (response : Response A) (e : Env) :
  status response = 401 ->
  handleAuthError response e
  = (discard_session e,
     Throw (AuthenticationError "Authentication failed. Please login again.")).
Proof. intros H. unfold handleAuthError. rewrite H. reflexivity. Qed.

Lemma execute_401 strategy settled now date (e : Env) :
  answered_401 strategy settled ->
  execute strategy settled now date e
  = Some (discard_session e,
          Throw (AuthenticationError
                   "Authentication failed. Please login again.")).
Proof.
  destruct strategy, settled as [[response|err]|[response|err]];
    simpl; try contradiction; intros H;
    unfold BasicQueryStrategy.execute, CombinedQueryStrategy.execute,
      EnhancedQueryStrategy.execute, api.query, api.queryEnhanced;
    rewrite (handleAuthError_401 _ _ H); reflexivity.
Qed.

Lemma logout_logged_out (w : World) : logged_out (logout w).
Proof. repeat split. Qed.

Lemma session_discarded_twice (e : Env) :
  session_discarded e (discard_session (discard_session e)).
Proof.
  destruct (discard_session_discarded e) as (H1 & H2 & H3).
  destruct (discard_session_discarded (discard_session e)) as (G1 & G2 & G3).
  split; [exact G1|]. split; [exact G2|].
  intros key Ht Hu. rewrite (G3 key Ht Hu). apply H3; assumption.
Qed.

(** C1.  Each of the four protected calls, when the response it awaited
    has status 401, ends with both session keys removed from the storage
    and with an [AuthenticationError] thrown.  When that is how the
    request of a pending submission, or of a pending web search, settles,
    the handler leaves the error banner as it was, logs out, and the
    storage holds neither key; the submission handler also clears the
    loading flag and appends no message. *)
Theorem unauthorized_discards_session_and_logs_out :
  (forall (response : Response QueryResponse.t) (e : Env),
      status response = 401 ->
      exists message,
        api.query (Return response) e
        = (discard_session e, Throw (AuthenticationError message)))
  /\ (forall (response : Response LocalQueryResponse.t) (e : Env),
         status response = 401 ->
         exists message,
           api.queryEnhanced (Return response) e
           = (discard_session e, Throw (AuthenticationError message)))
  /\ (forall (response : Response WebEnrichmentResponse.t) (e : Env),
         status response = 401 ->
         exists message,
           api.webSearchExplicit (Return response) e
           = (discard_session e, Throw (AuthenticationError message)))
  /\ (forall (response : Response JsonRecord) (e : Env),
         status response = 401 ->
         exists message,
           api.getFilters (Return response) e
           = (discard_session e, Throw (AuthenticationError message)))
  /\ (forall e : Env, session_discarded e (discard_session e))
  /\ (forall (w : World) k pending settled now date,
         pendingQueries w !! k = Some pending ->
         answered_401 (PendingQuery.strategy pending) settled ->
         let w' := step w (QuerySettled k settled now date) in
         error (chat w') = error (chat w)
         /\ messages (chat w') = messages (chat w)
         /\ isLoading (chat w') = false
         /\ logged_out w'
         /\ session_discarded (env w) (env w'))
  /\ (forall (w : World) k pending
             (response : Response WebEnrichmentResponse.t),
         pendingWebSearches w !! k = Some pending ->
         status response = 401 ->
         let w' := step w (WebSearchSettled k (Return response)) in
         error (chat w') = error (chat w)
         /\ messages (chat w') = messages (chat w)
         /\ logged_out w'
         /\ session_discarded (env w) (env w')).
Proof.
  split; [|split; [|split; [|split; [|split; [|split]]]]].
  - intros response e H. eexists. unfold api.query.
    rewrite (handleAuthError_401 _ _ H). reflexivity.
  - intros response e H. eexists. unfold api.queryEnhanced.
    rewrite (handleAuthError_401 _ _ H). reflexivity.
  - intros response e H. eexists. unfold api.webSearchExplicit.
    rewrite (handleAuthError_401 _ _ H). reflexivity.
  - intros response e H. eexists. unfold api.getFilters.
    rewrite (handleAuthError_401 _ _ H). reflexivity.
  - exact discard_session_discarded.
  - intros w k pending settled now date Hk H401. cbv zeta.
    unfold step. rewrite Hk, (execute_401 _ _ now date (env w) H401).
    simpl. do 3 (split; [reflexivity|]). split; [repeat split|].
    apply session_discarded_twice.
  - intros w k pending response Hk H401. cbv zeta.
    unfold step. rewrite Hk. unfold handleWebSearch_settled, api.webSearchExplicit.
    simpl env. rewrite (handleAuthError_401 _ _ H401).
    simpl. do 2 (split; [reflexivity|]). split; [repeat split|].
    apply session_discarded_twice.
Qed.

(** ** The web-enrichment handler *)

Lemma update_in_each_message messageId updates
    (P : Message.t -> Message.t -> Prop) (l : list Message.t) :
  (forall msg, P msg (spread msg updates)) ->
  each_message messageId P l (update_in messageId updates l).
Proof.
  intros HP. split; [apply length_map|].
  intros i msg Hi. rewrite (update_in_lookup _ _ _ _ _ Hi).
  destruct (String.eqb_spec (Message.id msg) messageId) as [E|N].
  - eexists. split; [reflexivity|]. split; [contradiction|]. intros _. apply HP.
  - eexists. split; [reflexivity|]. split; [reflexivity|contradiction].
Qed.

Lemma handleWebSearch_messages messageId originalQuery enhancedResponse w :
  messages (chat (handleWebSearch messageId originalQuery enhancedResponse w))
  = update_in messageId (loading_updates true) (messages (chat w)).
Proof. reflexivity. Qed.

Lemma handleWebSearch_settled_success messageId fetched w e' response :
  api.webSearchExplicit fetched (env w) = (e', Return response) ->
  handleWebSearch_settled messageId fetched w
  = actions.updateMessage messageId (enrichment_updates response)
      (with_env e' w).
Proof. intros H. unfold handleWebSearch_settled. rewrite H. reflexivity. Qed.

Lemma handleWebSearch_settled_failure messageId fetched w e' err :
  api.webSearchExplicit fetched (env w) = (e', Throw err) ->
  instanceof_AuthenticationError err = false ->
  handleWebSearch_settled messageId fetched w
  = actions.updateMessage messageId (loading_updates false)
      (actions.setError (Some (web_search_error err)) (with_env e' w)).
Proof.
  intros H Hauth. unfold handleWebSearch_settled. rewrite H, Hauth.
  reflexivity.
Qed.

(** C3.  [handleWebSearch], called with a message id and a phase-1
    result, first sets [isWebSearchLoading] to [true] in the message with
    that id and changes nothing else in the history or the banner.  When
    the phase-2 call succeeds, that message gets the result as its
    [webSearchResponse], [isWebSearchLoading] [false] and
    [showWebSearchButton] [false], and the banner is not touched.  When
    the call fails with anything but an [AuthenticationError], the banner
    is set to the handler's error text and the message only has its
    [isWebSearchLoading] set to [false]: [showWebSearchButton] and every
    other property are as they were, so the button is rendered for it as
    before and is not disabled. *)
Theorem web_search_handler_updates_its_message (w : World)
    (messageId originalQuery : string)
    (enhancedResponse : LocalQueryResponse.t) :
  (let w1 := handleWebSearch messageId originalQuery enhancedResponse w in
   each_message messageId
     (fun msg msg' => Message.isWebSearchLoading msg' = Some true
                      /\ same_but_loading msg msg')
     (messages (chat w)) (messages (chat w1))
   /\ error (chat w1) = error (chat w))
  /\ (forall fetched e' response,
         api.webSearchExplicit fetched (env w) = (e', Return response) ->
         let w2 := handleWebSearch_settled messageId fetched w in
         each_message messageId
           (fun msg msg' =>
              Message.webSearchResponse msg' = Some response
              /\ Message.isWebSearchLoading msg' = Some false
              /\ Message.showWebSearchButton msg' = Some false
              /\ same_but_enrichment msg msg')
           (messages (chat w)) (messages (chat w2))
         /\ error (chat w2) = error (chat w))
  /\ (forall fetched e' err,
         api.webSearchExplicit fetched (env w) = (e', Throw err) ->
         instanceof_AuthenticationError err = false ->
         let w2 := handleWebSearch_settled messageId fetched w in
         error (chat w2) = Some (web_search_error err)
         /\ each_message messageId
              (fun msg msg' => Message.isWebSearchLoading msg' = Some false
                               /\ same_but_loading msg msg'
                               /\ offersWebSearch msg' = offersWebSearch msg
                               /\ webSearchDisabled msg' = false)
              (messages (chat w)) (messages (chat w2))).
Proof.
  split; [|split].
  - cbv zeta. rewrite handleWebSearch_messages. split; [|reflexivity].
    apply update_in_each_message. intros msg. repeat split.
  - intros fetched e' response H. cbv zeta.
    rewrite (handleWebSearch_settled_success _ _ _ _ _ H).
    split; [|reflexivity].
    apply (update_in_each_message messageId (enrichment_updates response)).
    intros msg. repeat split.
  - intros fetched e' err H Hauth. cbv zeta.
    rewrite (handleWebSearch_settled_failure _ _ _ _ _ H Hauth).
    split; [reflexivity|].
    apply (update_in_each_message messageId (loading_updates false)).
    intros msg. repeat split.
Qed.

(** ** Submission *)

Lemma trimStart_whitespace_only s : whitespace_only s -> trimStart s = "".
Proof.
  induction s as [|c rest IH]; simpl; [reflexivity|].
  intros [Hc Hrest]. rewrite Hc. apply IH, Hrest.
Qed.

Lemma trim_whitespace_only s : whitespace_only s -> trim s = "".
Proof. intros H. unfold trim. rewrite (trimStart_whitespace_only _ H). reflexivity. Qed.

Lemma blocked_submitDisabled state :
  submission_blocked state -> submitDisabled state = true.
Proof.
  unfold submitDisabled. intros [Hws|[Hl|Hh]].
  - rewrite (trim_whitespace_only _ Hws). reflexivity.
  - rewrite Hl. apply orb_true_iff. left. apply orb_true_r.
  - rewrite Hh. apply orb_true_r.
Qed.

Lemma step_submit_disabled w now date :
  submitDisabled (chat w) = true -> step w (FormSubmitted now date) = w.
Proof. intros Hd. simpl. rewrite Hd. reflexivity. Qed.

Lemma handleSubmit_guard now date w :
  whitespace_only (input (chat w)) \/ isLoading (chat w) = true ->
  handleSubmit now date w = w.
Proof.
  unfold handleSubmit. intros [Hws|Hl].
  - rewrite (trim_whitespace_only _ Hws). reflexivity.
  - rewrite Hl, orb_true_r. reflexivity.
Qed.

Lemma handleSubmit_accepted now date w strategy :
  submitDisabled (chat w) = false ->
  QueryStrategyFactory.getStrategy (queryMode (chat w))
  = Return (strategy_object strategy) ->
  let w1 := step w (FormSubmitted now date) in
  messages (chat w1)
  = (messages (chat w) ++ [userMessage_of now date (chat w)])%list
  /\ isLoading (chat w1) = true
  /\ error (chat w1) = None
  /\ input (chat w1) = ""
  /\ pendingQueries w1
     = (pendingQueries w
          ++ [ {| PendingQuery.strategy := strategy;
                  PendingQuery.request :=
                    execute_request strategy (trim (input (chat w))) (env w)
               |} ])%list.
Proof.
  intros Hen Hs. cbv zeta. unfold step. rewrite Hen.
  unfold submitDisabled in Hen.
  apply orb_false_iff in Hen as [Hen _].
  unfold handleSubmit. rewrite Hen, Hs. repeat split.
Qed.

Lemma step_keeps_loading w ev :
  match ev with QuerySettled _ _ _ _ => False | _ => True end ->
  isLoading (chat w) = true ->
  isLoading (chat (step w ev)) = true.
Proof.
  intros Hev Hl. destruct ev as [f|v|m| |now date|k s now date|i|k f];
    simpl; try contradiction.
  - destruct (healthCheckPending w); [|exact Hl].
    unfold checkHealth. destruct (api.healthCheck f); exact Hl.
  - destruct (inputDisabled (chat w)); exact Hl.
  - destruct (bool_decide _); exact Hl.
  - destruct (error (chat w)) as [text|]; [|exact Hl].
    destruct (truthy text); exact Hl.
  - unfold submitDisabled. rewrite Hl, orb_true_r. exact Hl.
  - destruct (messages (chat w) !! i) as [message|]; [|exact Hl].
    destruct (offersWebSearch message && negb (webSearchDisabled message));
      [|exact Hl].
    unfold handleWebSearchClick.
    destruct (Message.enhancedResponse message); exact Hl.
  - destruct (pendingWebSearches w !! k) as [pending|]; [|exact Hl].
    unfold handleWebSearch_settled. simpl env.
    destruct (api.webSearchExplicit f (env w)) as [e' [r|err]]; [exact Hl|].
    destruct (instanceof_AuthenticationError err); exact Hl.
Qed.

Lemma run_keeps_loading events w :
  no_query_settles events ->
  isLoading (chat w) = true ->
  isLoading (chat (run w events)) = true.
Proof.
  unfold run, no_query_settles. revert w.
  induction events as [|ev events IH]; intros w Hall Hl; [exact Hl|].
  inversion Hall as [|? ? Hev Hrest]; subst. simpl.
  apply IH; [exact Hrest|]. apply step_keeps_loading; assumption.
Qed.

(** C7.  When the input is empty or all whitespace, or [isLoading] is
    set, or the health check has reported the backend unreachable, the
    submit button is disabled and a submission changes nothing: no
    message is appended and no strategy call is started; for the first
    two conditions the handler itself returns at its guard.  After a
    submission that did start a strategy call, and after any further
    events none of which settles a query, [isLoading] is still set and a
    further submission changes nothing. *)
Theorem blocked_submission_changes_nothing :
  (forall (w : World) (now date : Z),
      submission_blocked (chat w) ->
      submitDisabled (chat w) = true
      /\ step w (FormSubmitted now date) = w)
  /\ (forall (w : World) (now date : Z),
         whitespace_only (input (chat w)) \/ isLoading (chat w) = true ->
         handleSubmit now date w = w)
  /\ (forall (w : World) (now date : Z) strategy between now' date',
         submitDisabled (chat w) = false ->
         QueryStrategyFactory.getStrategy (queryMode (chat w))
         = Return (strategy_object strategy) ->
         no_query_settles between ->
         let w1 := step w (FormSubmitted now date) in
         let w2 := run w1 between in
         messages (chat w1)
         = (messages (chat w) ++ [userMessage_of now date (chat w)])%list
         /\ isLoading (chat w2) = true
         /\ step w2 (FormSubmitted now' date') = w2).
Proof.
  split; [|split].
  - intros w now date Hb. pose proof (blocked_submitDisabled _ Hb) as Hd.
    split; [exact Hd|]. apply step_submit_disabled, Hd.
  - intros w now date. apply handleSubmit_guard.
  - intros w now date strategy between now' date' Hen Hs Hbetween.
    cbv zeta.
    destruct (handleSubmit_accepted now date w strategy Hen Hs)
      as (Hm & Hl & _).
    split; [exact Hm|].
    pose proof (run_keeps_loading between _ Hbetween Hl) as Hl2.
    split; [exact Hl2|].
    apply step_submit_disabled. unfold submitDisabled.
    rewrite Hl2, orb_true_r. reflexivity.
Qed.

(** ** How the controller changes the history *)

Lemma handleSubmit_settled_messages outcome w :
  messages (chat (handleSubmit_settled outcome w))
  = match outcome with
    | Return assistantMessage => (messages (chat w) ++ [assistantMessage])%list
    | Throw _ => messages (chat w)
    end.
Proof.
  destruct outcome as [m|err]; [reflexivity|].
  unfold handleSubmit_settled.
  destruct (instanceof_AuthenticationError err); reflexivity.
Qed.

Lemma handleSubmit_messages now date w :
  messages (chat (handleSubmit now date w))
  = if negb (truthy (trim (input (chat w)))) || isLoading (chat w)
    then messages (chat w)
    else (messages (chat w) ++ [userMessage_of now date (chat w)])%list.
Proof.
  unfold handleSubmit.
  destruct (negb (truthy (trim (input (chat w)))) || isLoading (chat w));
    [reflexivity|].
  destruct (QueryStrategyFactory.getStrategy (queryMode (chat w)))
    as [[strategy|name]|err]; [reflexivity| |];
    rewrite handleSubmit_settled_messages; reflexivity.
Qed.

Lemma handleWebSearch_settled_messages messageId fetched w :
  history_step (messages (chat w))
    (messages (chat (handleWebSearch_settled messageId fetched w))).
Proof.
  unfold handleWebSearch_settled.
  destruct (api.webSearchExplicit fetched (env w)) as [e' [response|err]].
  - apply (history_enriched _ messageId response).
  - destruct (instanceof_AuthenticationError err).
    + apply history_same.
    + apply (history_loading _ messageId false).
Qed.

Lemma step_history w ev :
  history_step (messages (chat w)) (messages (chat (step w ev))).
Proof.
  destruct ev as [f|v|m| |now date|k s now date|i|k f]; simpl.
  - destruct (healthCheckPending w); [|constructor].
    unfold checkHealth. destruct (api.healthCheck f); constructor.
  - destruct (inputDisabled (chat w)); constructor.
  - destruct (bool_decide _); constructor.
  - destruct (error (chat w)) as [text|]; [|constructor].
    destruct (truthy text); constructor.
  - destruct (submitDisabled (chat w)); [constructor|].
    rewrite handleSubmit_messages.
    destruct (negb _ || _); constructor.
  - destruct (pendingQueries w !! k) as [pending|]; [|constructor].
    destruct (execute _ s now date (env w)) as [[e' outcome]|]; [|constructor].
    rewrite handleSubmit_settled_messages.
    destruct outcome; constructor.
  - destruct (messages (chat w) !! i) as [message|]; [|constructor].
    destruct (offersWebSearch message && negb (webSearchDisabled message));
      [|constructor].
    unfold handleWebSearchClick.
    destruct (Message.enhancedResponse message); [|constructor].
    apply (history_loading _ (Message.id message) true).
  - destruct (pendingWebSearches w !! k) as [pending|]; [|constructor].
    apply (handleWebSearch_settled_messages _ f
             (with_pendingWebSearches (delete k (pendingWebSearches w)) w)).
Qed.

Lemma offers_after_loading msg loading :
  offersWebSearch (spread msg (loading_updates loading)) = offersWebSearch msg.
Proof. reflexivity. Qed.

Lemma offers_after_enrichment msg response :
  offersWebSearch (spread msg (enrichment_updates response)) = false.
Proof. reflexivity. Qed.

Lemma history_step_keeps_unoffered l l' i msg :
  history_step l l' ->
  l !! i = Some msg -> offersWebSearch msg = false ->
  exists msg', l' !! i = Some msg' /\ offersWebSearch msg' = false.
Proof.
  intros Hstep Hi Hoff. destruct Hstep as [|added|id loading|id response].
  - exists msg. split; assumption.
  - exists msg. split; [|assumption].
    apply lookup_app_l_Some. exact Hi.
  - rewrite (update_in_lookup _ _ _ _ _ Hi).
    destruct (String.eqb (Message.id msg) id).
    + eexists. split; [reflexivity|].
      rewrite offers_after_loading. exact Hoff.
    + exists msg. split; [reflexivity|exact Hoff].
  - rewrite (update_in_lookup _ _ _ _ _ Hi).
    destruct (String.eqb (Message.id msg) id).
    + eexists. split; [reflexivity|]. apply offers_after_enrichment.
    + exists msg. split; [reflexivity|exact Hoff].
Qed.

Lemma run_keeps_unoffered events w i msg :
  messages (chat w) !! i = Some msg -> offersWebSearch msg = false ->
  exists msg', messages (chat (run w events)) !! i = Some msg'
               /\ offersWebSearch msg' = false.
Proof.
  unfold run. revert w msg.
  induction events as [|ev events IH]; intros w msg Hi Hoff; simpl.
  - exists msg. split; assumption.
  - destruct (history_step_keeps_unoffered _ _ i msg (step_history w ev) Hi Hoff)
      as (msg1 & Hi1 & Hoff1).
    apply (IH _ msg1 Hi1 Hoff1).
Qed.

Lemma enhanced_execute_flag fetched now date (e e' : Env) msg :
  EnhancedQueryStrategy.execute fetched now date e = (e', Return msg) ->
  exists response enhancedResponse,
    fetched = Return response
    /\ json response = Return enhancedResponse
    /\ Message.enhancedResponse msg = Some enhancedResponse
    /\ Message.showWebSearchButton msg
       = Some (LocalQueryResponse.web_search_eligible enhancedResponse)
    /\ offersWebSearch msg
       = LocalQueryResponse.web_search_eligible enhancedResponse.
Proof.
  unfold EnhancedQueryStrategy.execute, api.queryEnhanced.
  destruct fetched as [response|err]; [|discriminate].
  destruct (handleAuthError response e) as [e1 [[]|err]]; [|discriminate].
  destruct (negb (ok response)); [discriminate|].
  destruct (json response) as [enhancedResponse|err] eqn:Hjson;
    [|discriminate].
  intros H. injection H as _ <-.
  exists response, enhancedResponse. simpl.
  repeat split; try assumption.
  unfold offersWebSearch; simpl.
  destruct (LocalQueryResponse.web_search_eligible enhancedResponse);
    reflexivity.
Qed.

Lemma enhanced_execute_returns (response : Response LocalQueryResponse.t)
    enhancedResponse now date (e : Env) :
  ok response = true ->
  json response = Return enhancedResponse ->
  exists msg,
    EnhancedQueryStrategy.execute (Return response) now date e
    = (e, Return msg).
Proof.
  intros Hok Hjson.
  unfold EnhancedQueryStrategy.execute, api.queryEnhanced, handleAuthError.
  assert ((status response =? 401) = false) as ->.
  { unfold ok in Hok. apply andb_true_iff in Hok as [_ H]. lia. }
  rewrite Hok, Hjson. simpl. eexists. reflexivity.
Qed.

(** C4.  A message the enhanced strategy returns carries the phase-1
    response it was built from, and its [showWebSearchButton] is that
    response's [web_search_eligible]; the web-search button is rendered
    for it exactly when the flag is set.  The strategy does return a
    message for every 2xx response whose body parses.  A message for
    which the button is not rendered, at whatever position of the
    history, is after any events still a message for which it is not
    rendered, and a click on its web-search button is not possible (the
    event changes nothing).  So when a pending enhanced query settles
    with a response whose flag is [false], the message appended to the
    history has [showWebSearchButton] [false], and after any further
    events the button is still not rendered for it. *)
Theorem enhanced_button_follows_eligibility :
  (forall fetched now date (e e' : Env) msg,
      EnhancedQueryStrategy.execute fetched now date e = (e', Return msg) ->
      exists response enhancedResponse,
        fetched = Return response
        /\ json response = Return enhancedResponse
        /\ Message.enhancedResponse msg = Some enhancedResponse
        /\ Message.showWebSearchButton msg
           = Some (LocalQueryResponse.web_search_eligible enhancedResponse)
        /\ offersWebSearch msg
           = LocalQueryResponse.web_search_eligible enhancedResponse)
  /\ (forall (response : Response LocalQueryResponse.t) enhancedResponse
             now date (e : Env),
         ok response = true ->
         json response = Return enhancedResponse ->
         exists msg,
           EnhancedQueryStrategy.execute (Return response) now date e
           = (e, Return msg))
  /\ (forall (w : World) (events : list Event) (i : nat) msg,
         messages (chat w) !! i = Some msg ->
         offersWebSearch msg = false ->
         exists msg',
           messages (chat (run w events)) !! i = Some msg'
           /\ offersWebSearch msg' = false
           /\ step (run w events) (WebSearchClicked i) = run w events)
  /\ (forall (w : World) k pending
             (response : Response LocalQueryResponse.t) enhancedResponse
             now date (events : list Event),
         pendingQueries w !! k = Some pending ->
         PendingQuery.strategy pending = Enhanced ->
         ok response = true ->
         json response = Return enhancedResponse ->
         LocalQueryResponse.web_search_eligible enhancedResponse = false ->
         let w1 :=
           step w (QuerySettled k (LocalSettlement (Return response))
                                now date) in
         let i := length (messages (chat w)) in
         exists msg msg',
           messages (chat w1) !! i = Some msg
           /\ Message.type msg = assistant
           /\ Message.showWebSearchButton msg = Some false
           /\ messages (chat (run w1 events)) !! i = Some msg'
           /\ offersWebSearch msg' = false).
Proof.
  split; [exact enhanced_execute_flag|].
  split; [exact enhanced_execute_returns|].
  assert (forall (w : World) (events : list Event) (i : nat) msg,
             messages (chat w) !! i = Some msg ->
             offersWebSearch msg = false ->
             exists msg',
               messages (chat (run w events)) !! i = Some msg'
               /\ offersWebSearch msg' = false
               /\ step (run w events) (WebSearchClicked i) = run w events)
    as Hstays.
  { intros w events i msg Hi Hoff.
    destruct (run_keeps_unoffered events w i msg Hi Hoff)
      as (msg' & Hi' & Hoff').
    exists msg'. split; [exact Hi'|]. split; [exact Hoff'|].
    simpl. rewrite Hi', Hoff'. reflexivity. }
  split; [exact Hstays|].
  intros w k pending response enhancedResponse now date events
         Hk Hstrategy Hok Hjson Hflag. cbv zeta.
  destruct (enhanced_execute_returns response enhancedResponse now date
              (env w) Hok Hjson) as (msg & Hmsg).
  destruct (enhanced_execute_flag _ _ _ _ _ _ Hmsg)
    as (response' & enhancedResponse' & Hfetched & Hjson' & _ & Hshow & Hoffers).
  injection Hfetched as <-. rewrite Hjson in Hjson'. injection Hjson' as <-.
  rewrite Hflag in Hshow, Hoffers.
  assert (Message.type msg = assistant) as Htype.
  { revert Hmsg. unfold EnhancedQueryStrategy.execute.
    destruct (api.queryEnhanced (Return response) (env w)) as [e1 [r|err]];
      [|discriminate].
    intros H. injection H as _ <-. reflexivity. }
  assert (messages
            (chat (step w (QuerySettled k (LocalSettlement (Return response))
                                        now date)))
          = (messages (chat w) ++ [msg])%list) as Hafter.
  { simpl. rewrite Hk, Hstrategy. simpl. rewrite Hmsg.
    apply handleSubmit_settled_messages. }
  assert (messages
            (chat (step w (QuerySettled k (LocalSettlement (Return response))
                                        now date)))
          !! length (messages (chat w)) = Some msg) as Hat.
  { rewrite Hafter. apply list_lookup_middle. reflexivity. }
  destruct (Hstays _ events _ msg Hat Hoffers) as (msg' & Hi' & Hoff' & _).
  exists msg, msg'. repeat split; assumption.
Qed.

(** ** Message identifiers *)

(** C6, as stated, fails: the second user message of this run gets the
    id of the assistant message before it. *)
Lemma colliding_run_repeats_an_id :
  ids (run (mount signed_in signed_in_storage) colliding_run)
  = ["1000"; "1421"; "1421"]
  /\ Message.type <$> messages (chat (run (mount signed_in signed_in_storage)
                                          colliding_run))
     = [user; assistant; user].
Proof. split; vm_compute; reflexivity. Qed.

Lemma toString_inj n m : toString n = toString m -> n = m.
Proof. unfold toString. apply (inj pretty). Qed.

Lemma update_in_ids id updates (l : list Message.t) :
  Updates.id updates = None ->
  Message.id <$> update_in id updates l = Message.id <$> l.
Proof.
  intros Hid. induction l as [|m l IH]; [reflexivity|].
  simpl. f_equal; [|exact IH].
  destruct (String.eqb (Message.id m) id); [|reflexivity].
  unfold spread; simpl. rewrite Hid. reflexivity.
Qed.

Lemma history_step_ids l l' :
  history_step l l' ->
  Message.id <$> l' = Message.id <$> l \/ exists msg, l' = (l ++ [msg])%list.
Proof.
  intros [|msg|id loading|id response].
  - left. reflexivity.
  - right. exists msg. reflexivity.
  - left. apply update_in_ids. reflexivity.
  - left. apply update_in_ids. reflexivity.
Qed.

(** Events that neither submit nor settle a query leave the ids, the
    pending queries and the loading flag alone. *)
Lemma step_quiet w ev :
  match ev with
  | FormSubmitted _ _ | QuerySettled _ _ _ _ => False
  | _ => True
  end ->
  ids (step w ev) = ids w
  /\ pendingQueries (step w ev) = pendingQueries w
  /\ isLoading (chat (step w ev)) = isLoading (chat w).
Proof.
  intros Hev. unfold ids.
  destruct ev as [f|v|m| |now date|k s now date|i|k f];
    simpl; try contradiction.
  - destruct (healthCheckPending w); [|repeat split].
    unfold checkHealth. destruct (api.healthCheck f); repeat split.
  - destruct (inputDisabled (chat w)); repeat split.
  - destruct (bool_decide _); repeat split.
  - destruct (error (chat w)) as [text|]; [|repeat split].
    destruct (truthy text); repeat split.
  - destruct (messages (chat w) !! i) as [message|]; [|repeat split].
    destruct (offersWebSearch message && negb (webSearchDisabled message));
      [|repeat split].
    unfold handleWebSearchClick.
    destruct (Message.enhancedResponse message); [|repeat split].
    split; [|split; reflexivity].
    rewrite handleWebSearch_messages. apply update_in_ids. reflexivity.
  - destruct (pendingWebSearches w !! k) as [pending|]; [|repeat split].
    unfold handleWebSearch_settled. simpl env.
    destruct (api.webSearchExplicit f (env w)) as [e' [response|err]].
    + split; [|split; reflexivity].
      apply (update_in_ids _ (enrichment_updates response)). reflexivity.
    + destruct (instanceof_AuthenticationError err); [repeat split|].
      split; [|split; reflexivity].
      apply (update_in_ids _ (loading_updates false)). reflexivity.
Qed.

Lemma execute_id strategy settled now date (e e' : Env) msg :
  execute strategy settled now date e = Some (e', Return msg) ->
  Message.id msg = toString (now + 1).
Proof.
  destruct strategy, settled as [fetched|fetched]; simpl; try discriminate;
    unfold BasicQueryStrategy.execute, CombinedQueryStrategy.execute,
      EnhancedQueryStrategy.execute.
  - destruct (api.query fetched e) as [e1 [r|err]]; [|discriminate].
    intros H. injection H as _ <-. reflexivity.
  - destruct (api.query fetched e) as [e1 [r|err]]; [|discriminate].
    intros H. injection H as _ <-. reflexivity.
  - destruct (api.queryEnhanced fetched e) as [e1 [r|err]]; [|discriminate].
    intros H. injection H as _ <-. reflexivity.
Qed.

Lemma ids_up_to_mono b b' l : b <= b' -> ids_up_to b l -> ids_up_to b' l.
Proof.
  intros Hb Hl. unfold ids_up_to. eapply Forall_impl; [exact Hl|].
  intros id (n & -> & Hn). exists n. split; [reflexivity|lia].
Qed.

Lemma ids_up_to_fresh b l n : ids_up_to b l -> b < n -> toString n ∉ l.
Proof.
  intros Hl Hn Hin. unfold ids_up_to in Hl.
  rewrite Forall_forall in Hl. destruct (Hl _ Hin) as (m & Heq & Hm).
  apply toString_inj in Heq. lia.
Qed.

Lemma ids_up_to_snoc b l n :
  ids_up_to b l -> n <= b -> ids_up_to b (l ++ [toString n]).
Proof.
  intros Hl Hn. apply Forall_app. split; [exact Hl|].
  constructor; [|constructor]. exists n. split; [reflexivity|exact Hn].
Qed.

Lemma NoDup_snoc_fresh (l : list string) (x : string) :
  NoDup l -> x ∉ l -> NoDup (l ++ [x]).
Proof.
  intros Hl Hx. apply NoDup_app. split; [exact Hl|]. split.
  - intros y Hy Hin. apply list_elem_of_singleton in Hin. subst. contradiction.
  - apply NoDup_singleton.
Qed.

Lemma paced_invariant_later last last' w :
  last <= last' -> paced_invariant last w -> paced_invariant last' w.
Proof.
  intros Hle (Hnd & Hpend & Hids). split; [exact Hnd|]. split; [exact Hpend|].
  revert Hids. apply ids_up_to_mono. destruct (pendingQueries w); lia.
Qed.

Lemma paced_invariant_quiet last w ev :
  match ev with
  | FormSubmitted _ _ | QuerySettled _ _ _ _ => False
  | _ => True
  end ->
  paced_invariant last w -> paced_invariant last (step w ev).
Proof.
  intros Hev (Hnd & Hpend & Hids).
  destruct (step_quiet w ev Hev) as (Hi & Hp & Hl).
  unfold paced_invariant. rewrite Hi, Hp, Hl. repeat split; assumption.
Qed.

Lemma paced_invariant_submit last w now date :
  last + 2 <= now ->
  paced_invariant last w ->
  paced_invariant now (step w (FormSubmitted now date)).
Proof.
  intros Hnow Hinv.
  assert (paced_invariant now w) as Hlater
    by (apply (paced_invariant_later last); [lia|exact Hinv]).
  simpl. destruct (submitDisabled (chat w)); [exact Hlater|].
  unfold handleSubmit.
  destruct (negb (truthy (trim (input (chat w)))) || isLoading (chat w))
    eqn:Hguard; [exact Hlater|].
  apply orb_false_iff in Hguard as [_ Hloading].
  destruct Hinv as (Hnd & Hpend & Hids).
  assert (pendingQueries w = []) as Hnone.
  { destruct Hpend as [H|(p & _ & H)]; [exact H|congruence]. }
  rewrite Hnone in Hids.
  assert (NoDup (ids w ++ [toString now])) as Hnd'.
  { apply NoDup_snoc_fresh; [exact Hnd|].
    apply (ids_up_to_fresh (last + 1)); [exact Hids|lia]. }
  destruct (QueryStrategyFactory.getStrategy (queryMode (chat w)))
    as [[strategy|name]|err];
    [|generalize execute_is_not_a_function; intros err|].
  - unfold paced_invariant, ids. simpl. rewrite Hnone. simpl.
    rewrite fmap_app. simpl. split; [exact Hnd'|]. split.
    + right. eexists. split; reflexivity.
    + apply ids_up_to_snoc; [|lia].
      apply (ids_up_to_mono (last + 1)); [lia|exact Hids].
  - unfold paced_invariant, ids, handleSubmit_settled.
    destruct (instanceof_AuthenticationError err); simpl;
      rewrite Hnone, fmap_app; simpl;
      (split; [exact Hnd'|]); (split; [left; reflexivity|]);
      (apply ids_up_to_snoc; [|lia]);
      (apply (ids_up_to_mono (last + 1)); [lia|exact Hids]).
  - unfold paced_invariant, ids, handleSubmit_settled.
    destruct (instanceof_AuthenticationError err); simpl;
      rewrite Hnone, fmap_app; simpl;
      (split; [exact Hnd'|]); (split; [left; reflexivity|]);
      (apply ids_up_to_snoc; [|lia]);
      (apply (ids_up_to_mono (last + 1)); [lia|exact Hids]).
Qed.

Lemma paced_invariant_settle last w k settled now date :
  last <= now ->
  paced_invariant last w ->
  paced_invariant now (step w (QuerySettled k settled now date)).
Proof.
  intros Hnow Hinv.
  assert (paced_invariant now w) as Hlater
    by (apply (paced_invariant_later last); [lia|exact Hinv]).
  simpl. destruct (pendingQueries w !! k) as [pending|] eqn:Hk;
    [|exact Hlater].
  destruct (execute (PendingQuery.strategy pending) settled now date (env w))
    as [[e' outcome]|] eqn:Hexec; [|exact Hlater].
  destruct Hinv as (Hnd & Hpend & Hids).
  destruct Hpend as [Hnone|(p & Hone & Hloading)];
    [rewrite Hnone in Hk; discriminate|].
  rewrite Hone in Hids, Hk.
  destruct k as [|k]; [|discriminate].
  unfold paced_invariant, ids. rewrite Hone.
  destruct outcome as [msg|err].
  - simpl. rewrite fmap_app. simpl.
    rewrite (execute_id _ _ _ _ _ _ _ Hexec).
    split; [|split; [left; reflexivity|]].
    + apply NoDup_snoc_fresh; [exact Hnd|].
      apply (ids_up_to_fresh last); [exact Hids|lia].
    + apply ids_up_to_snoc; [|lia].
      apply (ids_up_to_mono last); [lia|exact Hids].
  - unfold handleSubmit_settled.
    destruct (instanceof_AuthenticationError err); simpl;
      (split; [exact Hnd|]); (split; [left; reflexivity|]);
      (apply (ids_up_to_mono last); [lia|exact Hids]).
Qed.

Lemma paced_invariant_run events last w :
  paced last events ->
  paced_invariant last w ->
  exists last', paced_invariant last' (run w events).
Proof.
  unfold run. revert last w.
  induction events as [|ev events IH]; intros last w Hpaced Hinv.
  - exists last. exact Hinv.
  - destruct ev as [f|v|m| |now date|k s now date|i|k f]; simpl in Hpaced;
      try (apply (IH last); [exact Hpaced|];
           apply paced_invariant_quiet; [exact I|exact Hinv]).
    + destruct Hpaced as [Hnow Hrest]. apply (IH now); [exact Hrest|].
      apply (paced_invariant_submit last); assumption.
    + destruct Hpaced as [Hnow Hrest]. apply (IH now); [exact Hrest|].
      apply (paced_invariant_settle last); assumption.
Qed.

Lemma paced_invariant_mount session (e : Env) last :
  paced_invariant last (mount session e).
Proof.
  split; [apply NoDup_nil_2|]. split; [left; reflexivity|]. constructor.
Qed.

(** C6, amended.  Start from the mounted controller and let the clock
    never go back and every submission read it at least two milliseconds
    after the reading before it: then the ids of the history are pairwise
    distinct after any run of events. *)
Theorem paced_run_has_distinct_ids (session : AuthContext.t) (e : Env)
    (start : Z) (events : list Event) :
  paced start events ->
  NoDup (ids (run (mount session e) events)).
Proof.
  intros Hpaced.
  destruct (paced_invariant_run events start (mount session e) Hpaced
              (paced_invariant_mount session e start))
    as (last' & Hnd & _).
  exact Hnd.
Qed.

Lemma paced_run_has_distinct_ids_witness :
  NoDup (ids (run (mount signed_in signed_in_storage) paced_run)).
Proof.
  apply (paced_run_has_distinct_ids signed_in signed_in_storage 0 paced_run).
  simpl. repeat split; lia.
Defined.

Example paced_run_ids :
  ids (run (mount signed_in signed_in_storage) paced_run)
  = ["1000"; "1421"; "5000"].
Proof. vm_compute. reflexivity. Qed.

(** ** The statements at concrete inputs *)

Lemma unauthorized_discards_session_and_logs_out_witness :
  let w' := step asked (QuerySettled 0 (LocalSettlement (Return unauthorized))
                                     1420 1420) in
  error (chat w') = error (chat asked)
  /\ messages (chat w') = messages (chat asked)
  /\ isLoading (chat w') = false
  /\ logged_out w'
  /\ session_discarded (env asked) (env w').
Proof.
  destruct unauthorized_discards_session_and_logs_out
    as (_ & _ & _ & _ & _ & Hsubmit & _).
  eapply Hsubmit; vm_compute; reflexivity.
Defined.

Lemma web_search_handler_updates_its_message_witness :
  let w2 :=
    handleWebSearch_settled "1421"
      (Return (mkResponse 200 "OK" (Return enrichment))) (answered true) in
  each_message "1421"
    (fun msg msg' =>
       Message.webSearchResponse msg' = Some enrichment
       /\ Message.isWebSearchLoading msg' = Some false
       /\ Message.showWebSearchButton msg' = Some false
       /\ same_but_enrichment msg msg')
    (messages (chat (answered true))) (messages (chat w2))
  /\ error (chat w2) = error (chat (answered true)).
Proof.
  destruct (web_search_handler_updates_its_message (answered true) "1421"
              "What is X" (eligible_response true))
    as (_ & Hsuccess & _).
  eapply Hsuccess. vm_compute. reflexivity.
Defined.

Lemma enhanced_button_follows_eligibility_witness :
  exists response enhancedResponse msg,
    EnhancedQueryStrategy.execute
      (Return (mkResponse 200 "OK" (Return (eligible_response false))))
      1420 1420 signed_in_storage
    = (signed_in_storage, Return msg)
    /\ (Return (mkResponse 200 "OK" (Return (eligible_response false)))
        : Fetched LocalQueryResponse.t) = Return response
    /\ json response = Return enhancedResponse
    /\ Message.showWebSearchButton msg
       = Some (LocalQueryResponse.web_search_eligible enhancedResponse)
    /\ offersWebSearch msg = false.
Proof.
  destruct enhanced_button_follows_eligibility as (Hflag & Hreturns & _).
  destruct (Hreturns (mkResponse 200 "OK" (Return (eligible_response false)))
              (eligible_response false) 1420 1420 signed_in_storage
              eq_refl eq_refl) as (msg & Hmsg).
  destruct (Hflag _ _ _ _ _ _ Hmsg)
    as (response & enhancedResponse & Hfetched & Hjson & _ & Hshow & Hoffers).
  exists response, enhancedResponse, msg.
  split; [exact Hmsg|]. split; [exact Hfetched|]. split; [exact Hjson|].
  split; [exact Hshow|]. rewrite Hoffers.
  injection Hfetched as <-. simpl in Hjson. injection Hjson as <-.
  reflexivity.
Defined.

Lemma blocked_submission_changes_nothing_witness :
  let w := run (mount signed_in signed_in_storage) [InputChanged "What is X"] in
  let w1 := step w (FormSubmitted 1000 1000) in
  let w2 := run w1 [WebSearchClicked 0; ErrorDismissed] in
  messages (chat w1)
  = (messages (chat w) ++ [userMessage_of 1000 1000 (chat w)])%list
  /\ isLoading (chat w2) = true
  /\ step w2 (FormSubmitted 1001 1001) = w2.
Proof.
  destruct blocked_submission_changes_nothing as (_ & _ & Hpending).
  eapply Hpending.
  - vm_compute. reflexivity.
  - vm_compute. reflexivity.
  - repeat constructor.
Defined.

(** ** Further properties of the controller *)

(** In basic mode, the question "What is X" answered by the backend with
    [{response: "Answer", source_nodes: []}] gives a history of the user
    message and exactly one assistant message, with content "Answer" and
    an empty source list and no enrichment property set; the request went
    to [/query] with the session's bearer token. *)
Example basic_submission_scenario :
  messages (chat (run (mount signed_in signed_in_storage) basic_run))
  = [ plain_message "1000" user "What is X" 1000;
      {| Message.id := "1421"; Message.type := assistant;
         Message.content := "Answer"; Message.timestamp := 1420;
         Message.sources := Some [];
         Message.enhancedResponse := None; Message.webSearchResponse := None;
         Message.isWebSearchLoading := None;
         Message.showWebSearchButton := None |} ]
  /\ isLoading (chat (run (mount signed_in signed_in_storage) basic_run))
     = false
  /\ (fun p => (endpoint (PendingQuery.request p),
                headers (PendingQuery.request p) !! "Authorization"))
       <$> pendingQueries
             (run (mount signed_in signed_in_storage)
                  [ ModeSelected "basic"; InputChanged "What is X";
                    FormSubmitted 1000 1000 ])
     = [("/query", Some "Bearer t0k3n")].
Proof. repeat split; vm_compute; reflexivity. Qed.

(** In enhanced mode, a phase-1 answer with [web_search_eligible: true]
    and [message_id: "m1"], then a web search on that message answered
    with [{web_search_results: [], enriched_response: "Enriched",
    sources_fetched: 0}]: the message ends with that response as its
    [webSearchResponse] and with [showWebSearchButton] [false], and the
    phase-2 request carried the question and the id "m1". *)
Example enhanced_web_search_scenario :
  (fun msg => (Message.id msg,
               WebEnrichmentResponse.enriched_response
                 <$> Message.webSearchResponse msg,
               Message.showWebSearchButton msg,
               Message.isWebSearchLoading msg))
    <$> messages (chat (run (mount signed_in signed_in_storage) enriched_run))
  = [ ("1000", None, None, None);
      ("1421", Some "Enriched", Some false, Some false) ]
  /\ (fun p => (endpoint (PendingWebSearch.request p),
                body (PendingWebSearch.request p)))
       <$> pendingWebSearches
             (run (answered true) [WebSearchClicked 1])
     = [ ("/query-web-enrich",
          Some (WebEnrichmentBody
                  {| WebEnrichmentRequest.query := "What is X";
                     WebEnrichmentRequest.message_id := Some "m1";
                     WebEnrichmentRequest.local_context := None;
                     WebEnrichmentRequest.preferred_sources := None;
                     WebEnrichmentRequest.keywords := None;
                     WebEnrichmentRequest.max_results := Some 5;
                     WebEnrichmentRequest.concise_mode := Some true |})) ].
Proof. split; vm_compute; reflexivity. Qed.

(** When the phase-2 call is answered with a status that is neither 401
    nor in the 2xx range, the banner reads "Web search failed: " twice:
    once from the handler, once from the message of the error the client
    threw. *)
Theorem web_search_failure_banner (w : World) (messageId : string)
    (response : Response WebEnrichmentResponse.t) :
  status response <> 401 ->
  ok response = false ->
  error (chat (handleWebSearch_settled messageId (Return response) w))
  = Some ("Web search failed: Web search failed: " +:+ statusText response).
Proof.
  intros H401 Hok.
  unfold handleWebSearch_settled, api.webSearchExplicit, handleAuthError.
  rewrite (proj2 (Z.eqb_neq _ _) H401), Hok. reflexivity.
Qed.

Lemma web_search_failure_banner_witness :
  error (chat (handleWebSearch_settled "1421"
                 (Return (mkResponse 503 "Service Unavailable"
                            (Throw (Error "body not read"))))
                 (answered true)))
  = Some "Web search failed: Web search failed: Service Unavailable".
Proof.
  apply (web_search_failure_banner (answered true) "1421"
           (mkResponse 503 "Service Unavailable"
              (Throw (Error "body not read")))).
  - discriminate.
  - reflexivity.
Defined.

Lemma one_query_at_a_time_step w ev :
  one_query_at_a_time w -> one_query_at_a_time (step w ev).
Proof.
  intros Hinv.
  destruct ev as [f|v|m| |now date|k s now date|i|k f];
    try (match goal with
         | |- one_query_at_a_time (step w ?ev) =>
             destruct (step_quiet w ev I) as (_ & Hp & Hl)
         end;
         unfold one_query_at_a_time; rewrite Hp, Hl; exact Hinv).
  - simpl. destruct (submitDisabled (chat w)); [exact Hinv|].
    unfold handleSubmit.
    destruct (negb (truthy (trim (input (chat w)))) || isLoading (chat w))
      eqn:Hguard; [exact Hinv|].
    apply orb_false_iff in Hguard as [_ Hloading].
    destruct Hinv as [[Hnone _]|(p & _ & H)]; [|congruence].
    destruct (QueryStrategyFactory.getStrategy (queryMode (chat w)))
      as [[strategy|name]|err];
      [|generalize execute_is_not_a_function; intros err|].
    + right. simpl. rewrite Hnone. eexists. split; reflexivity.
    + left. unfold handleSubmit_settled.
      destruct (instanceof_AuthenticationError err); simpl;
        rewrite Hnone; split; reflexivity.
    + left. unfold handleSubmit_settled.
      destruct (instanceof_AuthenticationError err); simpl;
        rewrite Hnone; split; reflexivity.
  - simpl. destruct (pendingQueries w !! k) as [pending|] eqn:Hk;
      [|exact Hinv].
    destruct (execute (PendingQuery.strategy pending) s now date (env w))
      as [[e' outcome]|]; [|exact Hinv].
    destruct Hinv as [[Hnone _]|(p & Hone & _)];
      [rewrite Hnone in Hk; discriminate|].
    rewrite Hone in Hk. destruct k as [|k]; [|discriminate].
    left. unfold handleSubmit_settled.
    destruct outcome as [msg|err];
      [|destruct (instanceof_AuthenticationError err)];
      simpl; rewrite Hone; split; reflexivity.
Qed.

(** After any run of events from the mounted controller, at most one
    query is pending, and [isLoading] is set exactly when one is. *)
Theorem at_most_one_query_pending (session : AuthContext.t) (e : Env)
    (events : list Event) :
  let w := run (mount session e) events in
  (length (pendingQueries w) <= 1)%nat
  /\ (isLoading (chat w) = true <-> pendingQueries w <> []).
Proof.
  cbv zeta.
  assert (one_query_at_a_time (run (mount session e) events)) as Hinv.
  { unfold run.
    assert (one_query_at_a_time (mount session e)) as H0
      by (left; split; reflexivity).
    revert H0. generalize (mount session e).
    induction events as [|ev events IH]; intros w Hw; [exact Hw|].
    simpl. apply IH, one_query_at_a_time_step, Hw. }
  destruct Hinv as [[Hnone Hl]|(p & Hone & Hl)].
  - rewrite Hnone, Hl. split; [simpl; lia|]. split; [discriminate|congruence].
  - rewrite Hone, Hl. split; [simpl; lia|]. split; [discriminate|reflexivity].
Qed.

Lemma update_message_frame_witness :
  chatReducer (state_with [plain_message "1" user "hello" 1000])
              (UPDATE_MESSAGE "9" (loading_updates true))
  = state_with [plain_message "1" user "hello" 1000].
Proof.
  destruct (update_message_frame
              (state_with [plain_message "1" user "hello" 1000]) "9"
              (loading_updates true)) as (_ & _ & _ & _ & Habsent).
  apply Habsent. intros msg Hin.
  apply list_elem_of_singleton in Hin. subst msg. discriminate.
Defined.


(** * Further properties of the code *)

(** ** Composition of reducer actions (hooks/use-chat-state.ts) *)

Lemma spread_spread msg updates :
  spread (spread msg updates) updates = spread msg updates.
Proof.
  destruct updates as [i t c ts s e w l b]; unfold spread; simpl.
  destruct i, t, c, ts, s, e, w, l, b; reflexivity.
Qed.

Lemma update_in_idempotent id updates (l : list Message.t) :
  update_in id updates (update_in id updates l) = update_in id updates l.
Proof.
  induction l as [|m l IH]; [reflexivity|].
  simpl. f_equal; [|exact IH].
  destruct (String.eqb_spec (Message.id m) id) as [E|N].
  - destruct (String.eqb_spec (Message.id (spread m updates)) id) as [_|_];
      [apply spread_spread|reflexivity].
  - destruct (String.eqb_spec (Message.id m) id); [contradiction|reflexivity].
Qed.

(** [UPDATE_MESSAGE] is idempotent: dispatching the same id and the same
    partial record a second time changes nothing, whatever the record
    names (a record that renames the message no longer finds it; any
    other record writes the values that are already there). *)
Theorem update_message_idempotent (state : ChatState) (id : string)
    (updates : Updates.t) :
  chatReducer (chatReducer state (UPDATE_MESSAGE id updates))
              (UPDATE_MESSAGE id updates)
  = chatReducer state (UPDATE_MESSAGE id updates).
Proof.
  simpl. fold (update_in id updates (messages state)).
  fold (update_in id updates (update_in id updates (messages state))).
  rewrite update_in_idempotent. reflexivity.
Qed.

Lemma spread_id_unnamed msg updates :
  Updates.id updates = None -> Message.id (spread msg updates) = Message.id msg.
Proof. intros H. unfold spread; simpl. rewrite H. reflexivity. Qed.

Lemma update_in_commute id1 u1 id2 u2 (l : list Message.t) :
  id1 <> id2 ->
  Updates.id u1 = None -> Updates.id u2 = None ->
  update_in id2 u2 (update_in id1 u1 l) = update_in id1 u1 (update_in id2 u2 l).
Proof.
  intros Hne H1 H2. induction l as [|m l IH]; [reflexivity|].
  simpl. f_equal; [|exact IH].
  destruct (String.eqb (Message.id m) id1) eqn:E1;
    destruct (String.eqb (Message.id m) id2) eqn:E2;
    rewrite ?(spread_id_unnamed _ _ H1), ?(spread_id_unnamed _ _ H2),
      ?E1, ?E2; try reflexivity.
  apply String.eqb_eq in E1, E2. congruence.
Qed.

(** Two [UPDATE_MESSAGE] actions for different ids, neither of which
    names [id] in its record, give the same state in either order.  This
    is a property of the reducer; it says nothing of the other actions a
    handler dispatches beside its update, such as [SET_ERROR], where the
    later one wins. *)
Theorem updates_of_distinct_messages_commute (state : ChatState)
    (id1 id2 : string) (u1 u2 : Updates.t) :
  id1 <> id2 ->
  Updates.id u1 = None ->
  Updates.id u2 = None ->
  chatReducer (chatReducer state (UPDATE_MESSAGE id1 u1)) (UPDATE_MESSAGE id2 u2)
  = chatReducer (chatReducer state (UPDATE_MESSAGE id2 u2))
                (UPDATE_MESSAGE id1 u1).
Proof.
  intros Hne H1 H2. simpl.
  fold (update_in id1 u1 (messages state)).
  fold (update_in id2 u2 (messages state)).
  fold (update_in id2 u2 (update_in id1 u1 (messages state))).
  fold (update_in id1 u1 (update_in id2 u2 (messages state))).
  rewrite (update_in_commute _ _ _ _ _ Hne H1 H2). reflexivity.
Qed.

Lemma updates_of_distinct_messages_commute_witness :
  let state :=
    state_with [plain_message "1" assistant "a" 1; plain_message "2" assistant "b" 2] in
  chatReducer (chatReducer state (UPDATE_MESSAGE "1" (loading_updates true)))
              (UPDATE_MESSAGE "2" (enrichment_updates enrichment))
  = chatReducer (chatReducer state
                   (UPDATE_MESSAGE "2" (enrichment_updates enrichment)))
                (UPDATE_MESSAGE "1" (loading_updates true)).
Proof.
  apply (updates_of_distinct_messages_commute
           (state_with [plain_message "1" assistant "a" 1;
                        plain_message "2" assistant "b" 2])
           "1" "2" (loading_updates true) (enrichment_updates enrichment)).
  - discriminate.
  - reflexivity.
  - reflexivity.
Defined.

(** Renaming breaks it: a record that gives message "1" the id "2" makes
    the order of the two updates visible. *)
Example renaming_update_does_not_commute :
  let state := state_with [plain_message "1" assistant "a" 1] in
  let rename := rename_updates "2" assistant 1 in
  Message.isWebSearchLoading
    <$> messages (chatReducer (chatReducer state (UPDATE_MESSAGE "1" rename))
                              (UPDATE_MESSAGE "2" (loading_updates true)))
  = [Some true]
  /\ Message.isWebSearchLoading
       <$> messages (chatReducer
                       (chatReducer state
                          (UPDATE_MESSAGE "2" (loading_updates true)))
                       (UPDATE_MESSAGE "1" rename))
     = [None].
Proof. split; reflexivity. Qed.

Lemma update_in_app id updates (l k : list Message.t) :
  update_in id updates (l ++ k)
  = (update_in id updates l ++ update_in id updates k)%list.
Proof. unfold update_in. apply map_app. Qed.

(** Appending a message and updating the messages with another id give
    the same state in either order: an answer that arrives while a web
    search on an older message settles is not affected by it, and does
    not affect it. *)
Theorem update_commutes_with_add (state : ChatState) (msg : Message.t)
    (id : string) (updates : Updates.t) :
  Message.id msg <> id ->
  chatReducer (chatReducer state (ADD_MESSAGE msg)) (UPDATE_MESSAGE id updates)
  = chatReducer (chatReducer state (UPDATE_MESSAGE id updates))
                (ADD_MESSAGE msg).
Proof.
  intros Hne. simpl.
  fold (update_in id updates (messages state ++ [msg])).
  fold (update_in id updates (messages state)).
  rewrite update_in_app. simpl.
  destruct (String.eqb_spec (Message.id msg) id); [contradiction|reflexivity].
Qed.

Lemma update_commutes_with_add_witness :
  let state := state_with [plain_message "1" assistant "a" 1] in
  chatReducer (chatReducer state (ADD_MESSAGE (plain_message "2" user "q" 2)))
              (UPDATE_MESSAGE "1" (loading_updates false))
  = chatReducer (chatReducer state (UPDATE_MESSAGE "1" (loading_updates false)))
                (ADD_MESSAGE (plain_message "2" user "q" 2)).
Proof.
  apply (update_commutes_with_add
           (state_with [plain_message "1" assistant "a" 1])
           (plain_message "2" user "q" 2) "1" (loading_updates false)).
  discriminate.
Defined.

(** Actions that write different components of the state give the same
    state in either order, and an action that overwrites its component
    makes an earlier action on that component invisible (the last write
    wins). *)
Theorem actions_on_components_compose (state : ChatState)
    (a b : ChatAction) :
  (component a <> component b ->
   chatReducer (chatReducer state a) b = chatReducer (chatReducer state b) a)
  /\ (component a = component b -> overwrites a = true ->
      overwrites b = true ->
      chatReducer (chatReducer state a) b = chatReducer state b).
Proof.
  split.
  - intros Hne. destruct a, b; simpl in Hne; try congruence; reflexivity.
  - intros He Ha Hb.
    destruct a, b; simpl in He, Ha, Hb; try discriminate; reflexivity.
Qed.

Lemma actions_on_components_compose_witness :
  chatReducer (chatReducer initialState (SET_INPUT "What is X")) (SET_LOADING true)
  = chatReducer (chatReducer initialState (SET_LOADING true))
                (SET_INPUT "What is X")
  /\ chatReducer (chatReducer initialState (SET_INPUT "What is X")) CLEAR_INPUT
     = chatReducer initialState CLEAR_INPUT.
Proof.
  split.
  - apply (proj1 (actions_on_components_compose initialState
                    (SET_INPUT "What is X") (SET_LOADING true))).
    discriminate.
  - apply (proj2 (actions_on_components_compose initialState
                    (SET_INPUT "What is X") CLEAR_INPUT));
      reflexivity.
Defined.

(** ** [trim] and the submission guard (ChatInterface) *)

Lemma append_nil s : "" +:+ s = s.
Proof. reflexivity. Qed.

Lemma append_cons c s t : String c s +:+ t = String c (s +:+ t).
Proof. reflexivity. Qed.

Lemma whitespace_only_app s t :
  whitespace_only (s +:+ t) <-> whitespace_only s /\ whitespace_only t.
Proof.
  induction s as [|c s IH].
  - rewrite append_nil. simpl. tauto.
  - rewrite append_cons. simpl. rewrite IH. tauto.
Qed.

Lemma trimStart_split s :
  exists pre, whitespace_only pre
              /\ s = pre +:+ trimStart s
              /\ forall c, first_char (trimStart s) = Some c ->
                           is_whitespace c = false.
Proof.
  induction s as [|c s (pre & Hpre & Hs & Hfirst)]; simpl.
  - exists "". repeat split. discriminate.
  - destruct (is_whitespace c) eqn:Hc.
    + exists (String c pre). split; [split; assumption|].
      split; [rewrite append_cons; f_equal; exact Hs|exact Hfirst].
    + exists "". split; [exact I|]. split; [reflexivity|].
      intros c' [= <-]. exact Hc.
Qed.

Lemma trimEnd_split s :
  exists post, whitespace_only post
               /\ s = trimEnd s +:+ post
               /\ (forall c, last_char (trimEnd s) = Some c ->
                             is_whitespace c = false)
               /\ (forall c, first_char s = Some c -> is_whitespace c = false ->
                             first_char (trimEnd s) = Some c).
Proof.
  induction s as [|c s (post & Hpost & Hs & Hlast & _)]; simpl.
  - exists "". repeat split; discriminate.
  - destruct (trimEnd s) as [|k kept] eqn:Hkept.
    + rewrite append_nil in Hs. subst post. destruct (is_whitespace c) eqn:Hc.
      * exists (String c s). repeat split; try assumption;
          try discriminate.
        intros c' [= <-] Hc'. congruence.
      * exists s. repeat split; try assumption.
        -- intros c' [= <-]. exact Hc.
        -- intros c' [= <-] _. reflexivity.
    + exists post. split; [exact Hpost|]. split.
      * rewrite append_cons. f_equal. exact Hs.
      * split; [exact Hlast|]. intros c' [= <-] _. reflexivity.
Qed.

Lemma trim_empty_iff s : trim s = "" <-> whitespace_only s.
Proof.
  split; [|apply trim_whitespace_only].
  unfold trim. intros Hempty.
  destruct (trimStart_split s) as (pre & Hpre & Hs & _).
  destruct (trimEnd_split (trimStart s)) as (post & Hpost & Ht & _).
  rewrite Hempty, append_nil in Ht. rewrite Hs, Ht.
  apply whitespace_only_app. split; assumption.
Qed.

Lemma trim_split s :
  exists pre post,
    whitespace_only pre /\ whitespace_only post
    /\ s = pre +:+ trim s +:+ post.
Proof.
  destruct (trimStart_split s) as (pre & Hpre & Hs & _).
  destruct (trimEnd_split (trimStart s)) as (post & Hpost & Ht & _).
  exists pre, post. split; [exact Hpre|]. split; [exact Hpost|].
  unfold trim. rewrite <- Ht. exact Hs.
Qed.

Lemma trim_clean s : no_outer_whitespace (trim s).
Proof.
  destruct (trimStart_split s) as (pre & Hpre & Hs & Hfirst).
  destruct (trimEnd_split (trimStart s)) as (post & Hpost & Ht & Hlast & Hkeep).
  unfold trim. split; [|exact Hlast].
  intros c Hc. destruct (trimStart s) as [|k rest] eqn:Hts.
  - discriminate.
  - destruct (is_whitespace k) eqn:Hk.
    + specialize (Hfirst k eq_refl). congruence.
    + rewrite (Hkeep k eq_refl Hk) in Hc. injection Hc as <-. exact Hk.
Qed.

Lemma trimEnd_clean s :
  (forall c, last_char s = Some c -> is_whitespace c = false) ->
  trimEnd s = s.
Proof.
  induction s as [|k rest IH]; intros Hl; [reflexivity|].
  simpl. destruct rest as [|k' rest'].
  - simpl. simpl in Hl. rewrite (Hl k eq_refl). reflexivity.
  - rewrite IH; [reflexivity|]. exact Hl.
Qed.

Lemma trim_idempotent s : trim (trim s) = trim s.
Proof.
  destruct (trim_clean s) as [Hf Hl].
  assert (trimStart (trim s) = trim s) as Hstart.
  { destruct (trim s) as [|k rest]; [reflexivity|].
    simpl. rewrite (Hf k eq_refl). reflexivity. }
  unfold trim at 1. rewrite Hstart. apply trimEnd_clean, Hl.
Qed.

(** [trim] removes a whitespace-only prefix and a whitespace-only suffix
    and nothing else; what is left neither starts nor ends with
    whitespace, so trimming again changes nothing; and the result is
    empty exactly for a whitespace-only string. *)
Theorem trim_removes_outer_whitespace (s : string) :
  (exists pre post,
      whitespace_only pre /\ whitespace_only post
      /\ s = pre +:+ trim s +:+ post)
  /\ no_outer_whitespace (trim s)
  /\ trim (trim s) = trim s
  /\ (trim s = "" <-> whitespace_only s).
Proof.
  split; [apply trim_split|]. split; [apply trim_clean|].
  split; [apply trim_idempotent|apply trim_empty_iff].
Qed.

(** The submit button is enabled exactly when the input has a character
    that is not whitespace, no request is in flight and the health check
    has not reported failure (an unknown health status, before the check
    settles, does not disable it); and an accepted submission appends a
    user message whose content is the trimmed input, which is not empty
    and has no whitespace at either end. *)
Theorem submission_enabled_exactly (w : World) (now date : Z) :
  (submitDisabled (chat w) = false <-> ~ submission_blocked (chat w))
  /\ (submitDisabled (chat w) = false ->
      exists msg,
        messages (chat (step w (FormSubmitted now date)))
        = (messages (chat w) ++ [msg])%list
        /\ Message.type msg = user
        /\ Message.id msg = toString now
        /\ Message.content msg = trim (input (chat w))
        /\ Message.content msg <> ""
        /\ no_outer_whitespace (Message.content msg)).
Proof.
  assert (submitDisabled (chat w) = false <-> ~ submission_blocked (chat w))
    as Hiff.
  { unfold submitDisabled, submission_blocked.
    rewrite <- trim_empty_iff.
    destruct (trim (input (chat w))) as [|c rest]; simpl.
    - split; [discriminate|]. intros H. exfalso. apply H. left. reflexivity.
    - destruct (isLoading (chat w)); simpl.
      + split; [discriminate|]. intros H. exfalso. apply H. right. left.
        reflexivity.
      + destruct (isHealthy (chat w)) as [[|]|]; simpl.
        * split; [|reflexivity]. intros _ [H|[H|H]]; discriminate.
        * split; [discriminate|]. intros H. exfalso. apply H. right. right.
          reflexivity.
        * split; [|reflexivity]. intros _ [H|[H|H]]; discriminate. }
  split; [exact Hiff|]. intros Hen.
  exists (userMessage_of now date (chat w)).
  assert (trim (input (chat w)) <> "") as Hne.
  { unfold submitDisabled in Hen.
    destruct (trim (input (chat w))); [discriminate|discriminate]. }
  split.
  - simpl. rewrite Hen. rewrite handleSubmit_messages.
    unfold submitDisabled in Hen.
    apply orb_false_iff in Hen as [Hen _]. rewrite Hen. reflexivity.
  - do 3 (split; [reflexivity|]). split; [exact Hne|]. apply trim_clean.
Qed.

(** ** Outcomes of the protected calls (lib/api) *)

Lemma ok_iff {A : Type} (response : Response A) :
  ok response = true <-> 200 <= status response <= 299.
Proof. unfold ok. rewrite andb_true_iff, !Z.leb_le. tauto. Qed.

Lemma handleAuthError_other {A : Type} (response : Response A) (e : Env) :
  status response <> 401 -> handleAuthError response e = (e, Return tt).
Proof.
  intros H. unfold handleAuthError.
  rewrite (proj2 (Z.eqb_neq _ _) H). reflexivity.
Qed.

Lemma protected_call_intro {A : Type} (label : string)
    (call : Fetched A -> Env -> Env * Result A) :
  (forall fetched e,
      call fetched e
      = match fetched with
        | Throw err => (e, Throw err)
        | Return response =>
            match handleAuthError response e with
            | (e', Throw err) => (e', Throw err)
            | (e', Return _) =>
                if negb (ok response)
                then (e', Throw (Error (label +:+ statusText response)))
                else (e', json response)
            end
        end) ->
  protected_call label call.
Proof.
  intros Hcall. unfold protected_call.
  split; [|split; [|split; [|split]]].
  - intros err e. rewrite Hcall. reflexivity.
  - intros [response|err] e; rewrite Hcall; [|left; reflexivity].
    destruct (Z.eq_dec (status response) 401) as [H401|Hother].
    + right. exists response. split; [reflexivity|exact H401].
    + left. rewrite (handleAuthError_other _ _ Hother).
      destruct (negb (ok response)); reflexivity.
  - intros [response|err] e e' value; rewrite Hcall; [|discriminate].
    destruct (Z.eq_dec (status response) 401) as [H401|Hother].
    + rewrite (handleAuthError_401 _ _ H401). discriminate.
    + rewrite (handleAuthError_other _ _ Hother).
      destruct (ok response) eqn:Hok; simpl; [|discriminate].
      intros H. injection H as <- Hjson.
      split; [reflexivity|]. exists response.
      split; [reflexivity|]. split; [apply ok_iff, Hok|exact Hjson].
  - intros response e Hrange.
    rewrite Hcall, (handleAuthError_other response e) by lia.
    rewrite (proj2 (ok_iff response) Hrange). reflexivity.
  - intros response e Hother Hrange.
    rewrite Hcall, (handleAuthError_other _ _ Hother).
    destruct (ok response) eqn:Hok; [|reflexivity].
    exfalso. apply Hrange, ok_iff, Hok.
Qed.

(** [api.query], [api.queryEnhanced], [api.webSearchExplicit] and
    [api.getFilters] each pass a transport failure on unchanged, write
    the storage only when the status is 401, return a value only from a
    2xx response whose body parses (that body, with the storage
    untouched), and turn any other status into an [Error] whose message
    is their own label followed by the status text. *)
Theorem protected_calls_classify_responses :
  protected_call "Query failed: " api.query
  /\ protected_call "Enhanced query failed: " api.queryEnhanced
  /\ protected_call "Web search failed: " api.webSearchExplicit
  /\ protected_call "Get filters failed: " api.getFilters.
Proof.
  split; [|split; [|split]];
    apply protected_call_intro; intros fetched e; reflexivity.
Qed.

(** ** The health check (ChatInterface, lib/api) *)

Lemma healthCheck_reported fetched health :
  api.healthCheck fetched = Return health <-> health_reported fetched health.
Proof.
  unfold api.healthCheck, health_reported. split.
  - destruct fetched as [response|err]; [|discriminate].
    destruct (ok response) eqn:Hok; simpl; [|discriminate].
    intros Hjson. exists response.
    split; [reflexivity|]. split; [apply ok_iff, Hok|exact Hjson].
  - intros (response & -> & Hrange & Hjson).
    rewrite (proj2 (ok_iff response) Hrange). exact Hjson.
Qed.

(** When the health check settles, the status becomes [true] exactly
    when the endpoint answered 2xx with a body that parses, says
    [healthy] and says [index_loaded]; in every other case (transport
    failure, any other status including 401, unparsable body, degraded,
    index not loaded) it becomes [false].  The details are kept exactly
    when a body was read.  Nothing else changes: not the history, the
    input, the flags or the mode, and not the session, even under a 401.
    A second settlement changes nothing, since the check runs once. *)
Theorem health_check_result (w : World) (fetched : Fetched HealthResponse.t) :
  healthCheckPending w = true ->
  let w' := step w (HealthSettled fetched) in
  healthCheckPending w' = false
  /\ (isHealthy (chat w') = Some true
      <-> exists health,
            health_reported fetched health
            /\ HealthResponse.status health = HealthResponse.healthy
            /\ HealthResponse.index_loaded health = true)
  /\ (isHealthy (chat w') <> Some true -> isHealthy (chat w') = Some false)
  /\ (forall health,
         healthDetails (chat w') = Some health
         <-> health_reported fetched health)
  /\ (messages (chat w') = messages (chat w)
      /\ input (chat w') = input (chat w)
      /\ isLoading (chat w') = isLoading (chat w)
      /\ error (chat w') = error (chat w)
      /\ queryMode (chat w') = queryMode (chat w)
      /\ expandedSources (chat w') = expandedSources (chat w))
  /\ (auth w' = auth w /\ env w' = env w
      /\ pendingQueries w' = pendingQueries w
      /\ pendingWebSearches w' = pendingWebSearches w)
  /\ (forall again, step w' (HealthSettled again) = w').
Proof.
  intros Hpending. cbv zeta. simpl. rewrite Hpending. unfold checkHealth.
  destruct (api.healthCheck fetched) as [health|err] eqn:Hcheck; simpl.
  - apply healthCheck_reported in Hcheck.
    split; [reflexivity|]. split; [|split; [|split; [|split; [|split]]]].
    + split.
      * intros H. exists health. split; [exact Hcheck|].
        destruct (HealthResponse.status health); [|discriminate].
        split; [reflexivity|]. congruence.
      * intros (health' & Hrep & Hs & Hi).
        assert (health' = health) as ->.
        { destruct Hcheck as (r & Hf & _ & Hj).
          destruct Hrep as (r' & Hf' & _ & Hj'). congruence. }
        rewrite Hs, Hi. reflexivity.
    + destruct (HealthResponse.status health);
        [destruct (HealthResponse.index_loaded health)|]; intros H;
        congruence.
    + intros health'. split.
      * intros [= <-]. exact Hcheck.
      * intros Hrep. f_equal.
        destruct Hcheck as (r & Hf & _ & Hj).
        destruct Hrep as (r' & Hf' & _ & Hj'). congruence.
    + repeat split.
    + repeat split.
    + reflexivity.
  - split; [reflexivity|]. split; [|split; [|split; [|split; [|split]]]].
    + split; [discriminate|].
      intros (health & Hrep & _). apply healthCheck_reported in Hrep.
      congruence.
    + reflexivity.
    + intros health. split; [discriminate|].
      intros Hrep. apply healthCheck_reported in Hrep. congruence.
    + repeat split.
    + repeat split.
    + reflexivity.
Qed.

Lemma health_check_result_witness :
  let w' := step asked (HealthSettled (Return unauthorized)) in
  isHealthy (chat w') = Some false /\ env w' = env asked.
Proof.
  destruct (health_check_result asked (Return unauthorized) eq_refl)
    as (_ & Htrue & Hfalse & _ & _ & (_ & Henv & _) & _).
  split; [|exact Henv]. apply Hfalse.
  intros H. apply Htrue in H as (health & (r & Hr & _ & Hj) & _).
  injection Hr as <-. discriminate.
Defined.

Lemma unhealthy_step w ev :
  unhealthy w ->
  unhealthy (step w ev)
  /\ ids (step w ev) = ids w
  /\ input (chat (step w ev)) = input (chat w).
Proof.
  intros (Hh & Hp & Hq). unfold unhealthy, ids.
  destruct ev as [f|v|m| |now date|k s now date|i|k f]; simpl.
  - rewrite Hp. repeat split; assumption.
  - unfold inputDisabled. rewrite Hh, orb_true_r. repeat split; assumption.
  - destruct (bool_decide _); repeat split; assumption.
  - destruct (error (chat w)) as [text|]; [|repeat split; assumption].
    destruct (truthy text); repeat split; assumption.
  - unfold submitDisabled. rewrite Hh, orb_true_r. repeat split; assumption.
  - rewrite Hq. simpl. repeat split; assumption.
  - destruct (messages (chat w) !! i) as [message|];
      [|repeat split; assumption].
    destruct (offersWebSearch message && negb (webSearchDisabled message));
      [|repeat split; assumption].
    unfold handleWebSearchClick.
    destruct (Message.enhancedResponse message);
      [|repeat split; assumption].
    split; [repeat split; assumption|]. split; [|reflexivity].
    rewrite handleWebSearch_messages. apply update_in_ids. reflexivity.
  - destruct (pendingWebSearches w !! k) as [pending|];
      [|repeat split; assumption].
    unfold handleWebSearch_settled. simpl env.
    destruct (api.webSearchExplicit f (env w)) as [e' [response|err]].
    + split; [repeat split; assumption|]. split; [|reflexivity].
      apply (update_in_ids _ (enrichment_updates response)). reflexivity.
    + destruct (instanceof_AuthenticationError err);
        [repeat split; assumption|].
      split; [repeat split; assumption|]. split; [|reflexivity].
      apply (update_in_ids _ (loading_updates false)). reflexivity.
Qed.

(** Once the health check has failed while no query was pending, the
    controller stays that way under every further event: the status
    stays [false], the check is never repeated, the input cannot be
    edited, and no message is ever appended. *)
Theorem failed_health_check_is_final (w : World) (events : list Event) :
  unhealthy w ->
  unhealthy (run w events)
  /\ ids (run w events) = ids w
  /\ input (chat (run w events)) = input (chat w).
Proof.
  unfold run. revert w.
  induction events as [|ev events IH]; intros w Hw; simpl.
  - repeat split; apply Hw.
  - destruct (unhealthy_step w ev Hw) as (Hw' & Hids & Hinput).
    destruct (IH _ Hw') as (Hfinal & Hids' & Hinput').
    split; [exact Hfinal|]. split; congruence.
Qed.

Lemma failed_health_check_is_final_witness :
  let w := step (mount signed_in signed_in_storage)
                (HealthSettled (Throw (Error "Failed to fetch"))) in
  let events := [InputChanged "What is X"; FormSubmitted 1000 1000] in
  unhealthy (run w events)
  /\ ids (run w events) = ids w
  /\ input (chat (run w events)) = input (chat w).
Proof.
  apply (failed_health_check_is_final
           (step (mount signed_in signed_in_storage)
                 (HealthSettled (Throw (Error "Failed to fetch"))))
           [InputChanged "What is X"; FormSubmitted 1000 1000]).
  repeat split.
Defined.

(** ** Failed and accepted submissions (ChatInterface) *)




Lemma one_query_at_a_time_run session (e : Env) events :
  one_query_at_a_time (run (mount session e) events).
Proof.
  unfold run.
  assert (one_query_at_a_time (mount session e)) as H0
    by (left; split; reflexivity).
  revert H0. generalize (mount session e).
  induction events as [|ev events IH]; intros w Hw; [exact Hw|].
  simpl. apply IH, one_query_at_a_time_step, Hw.
Qed.

Lemma step_keeps_mode_known w ev :
  queryMode (chat w) ∈ QUERY_MODES ->
  queryMode (chat (step w ev)) ∈ QUERY_MODES.
Proof.
  intros Hmode.
  destruct ev as [f|v|m| |now date|k s now date|i|k f]; simpl.
  - destruct (healthCheckPending w); [|exact Hmode].
    unfold checkHealth. destruct (api.healthCheck f); exact Hmode.
  - destruct (inputDisabled (chat w)); exact Hmode.
  - destruct (bool_decide (m ∈ QUERY_MODES)) eqn:Hm; [|exact Hmode].
    simpl. apply bool_decide_eq_true in Hm. exact Hm.
  - destruct (error (chat w)) as [text|]; [|exact Hmode].
    destruct (truthy text); exact Hmode.
  - destruct (submitDisabled (chat w)); [exact Hmode|].
    unfold handleSubmit. destruct (negb _ || _); [exact Hmode|].
    destruct (QueryStrategyFactory.getStrategy (queryMode (chat w)))
      as [[strategy|name]|err]; [exact Hmode| |];
      unfold handleSubmit_settled;
      destruct (instanceof_AuthenticationError _); exact Hmode.
  - destruct (pendingQueries w !! k) as [pending|]; [|exact Hmode].
    destruct (execute _ s now date (env w)) as [[e' outcome]|]; [|exact Hmode].
    unfold handleSubmit_settled. destruct outcome as [msg|err];
      [exact Hmode|].
    destruct (instanceof_AuthenticationError err); exact Hmode.
  - destruct (messages (chat w) !! i) as [message|]; [|exact Hmode].
    destruct (offersWebSearch message && negb (webSearchDisabled message));
      [|exact Hmode].
    unfold handleWebSearchClick.
    destruct (Message.enhancedResponse message); exact Hmode.
  - destruct (pendingWebSearches w !! k) as [pending|]; [|exact Hmode].
    unfold handleWebSearch_settled. simpl env.
    destruct (api.webSearchExplicit f (env w)) as [e' [response|err]];
      [exact Hmode|].
    destruct (instanceof_AuthenticationError err); exact Hmode.
Qed.

Lemma mode_known_run session (e : Env) events :
  queryMode (chat (run (mount session e) events)) ∈ QUERY_MODES.
Proof.
  unfold run.
  assert (queryMode (chat (mount session e)) ∈ QUERY_MODES) as H0
    by (apply (bool_decide_unpack _); vm_compute; exact I).
  revert H0. generalize (mount session e).
  induction events as [|ev events IH]; intros w Hw; [exact Hw|].
  simpl. apply IH, step_keeps_mode_known, Hw.
Qed.

Lemma getStrategy_known mode :
  mode ∈ QUERY_MODES ->
  exists strategy,
    QueryStrategyFactory.getStrategy mode = Return (strategy_object strategy)
    /\ strategy_of_mode mode strategy.
Proof.
  unfold QUERY_MODES, strategy_of_mode. intros Hmode.
  repeat (apply elem_of_cons in Hmode as [->|Hmode]);
    [exists Basic|exists Combined|exists Enhanced|inversion Hmode];
    (split; [vm_compute; reflexivity|]); tauto.
Qed.

Lemma execute_request_submitted strategy query (e : Env) :
  execute_request strategy query e
  = {| endpoint := endpoint_of strategy;
       method := "POST";
       headers := getAuthHeaders e;
       body := Some (QueryBody {| QueryRequest.query := query;
                                  QueryRequest.top_k := 5;
                                  QueryRequest.filters := None |}) |}.
Proof. destruct strategy; reflexivity. Qed.

(** In every state the controller reaches from its mount, the selected
    mode is one of the three the dropdown offers and the strategy table
    has a strategy for it, so a submission never ends in "Unknown query
    mode".  An accepted submission leaves exactly one pending call: a
    POST to the endpoint of the mode's strategy ([/query],
    [/query-combined] or [/query-local]) with the headers built from the
    storage and a body of the trimmed input with [top_k] 5 and no
    filters; it clears the banner and the input and sets [isLoading]. *)
Theorem submission_finds_its_strategy (session : AuthContext.t) (e : Env)
    (events : list Event) (now date : Z) :
  let w := run (mount session e) events in
  queryMode (chat w) ∈ QUERY_MODES
  /\ exists strategy,
       QueryStrategyFactory.getStrategy (queryMode (chat w))
       = Return (strategy_object strategy)
       /\ strategy_of_mode (queryMode (chat w)) strategy
       /\ (submitDisabled (chat w) = false ->
           let w1 := step w (FormSubmitted now date) in
           pendingQueries w1
           = [ {| PendingQuery.strategy := strategy;
                  PendingQuery.request :=
                    submitted_request strategy (chat w) (env w) |} ]
           /\ error (chat w1) = None
           /\ input (chat w1) = ""
           /\ isLoading (chat w1) = true).
Proof.
  cbv zeta.
  pose proof (mode_known_run session e events) as Hmode.
  split; [exact Hmode|].
  destruct (getStrategy_known _ Hmode) as (strategy & Hs & Hof).
  exists strategy. split; [exact Hs|]. split; [exact Hof|].
  intros Hen.
  destruct (handleSubmit_accepted now date _ strategy Hen Hs)
    as (_ & Hl & He & Hi & Hp).
  assert (pendingQueries (run (mount session e) events) = []) as Hnone.
  { destruct (one_query_at_a_time_run session e events)
      as [[H _]|(p & _ & H)]; [exact H|].
    unfold submitDisabled in Hen. rewrite H, orb_true_r in Hen.
    discriminate. }
  rewrite Hp, Hnone, execute_request_submitted.
  repeat split; assumption.
Qed.

Lemma submission_finds_its_strategy_witness :
  let w := run (mount signed_in signed_in_storage)
               [ModeSelected "combined"; InputChanged " What is X "] in
  (fun p => (endpoint (PendingQuery.request p), body (PendingQuery.request p)))
    <$> pendingQueries (step w (FormSubmitted 1000 1000))
  = [ ("/query-combined",
       Some (QueryBody {| QueryRequest.query := "What is X";
                          QueryRequest.top_k := 5;
                          QueryRequest.filters := None |})) ].
Proof.
  destruct (submission_finds_its_strategy signed_in signed_in_storage
              [ModeSelected "combined"; InputChanged " What is X "] 1000 1000)
    as (_ & strategy & _ & Hof & Hsubmit).
  destruct (Hsubmit eq_refl) as (Hpending & _).
  cbv zeta. rewrite Hpending.
  destruct Hof as [[Hm _]|[[_ ->]|[Hm _]]];
    [vm_compute in Hm; discriminate|reflexivity|vm_compute in Hm; discriminate].
Defined.

(** ** Basic and combined answers (services/query-strategies.ts) *)

Lemma step_click_unoffered w i msg :
  messages (chat w) !! i = Some msg ->
  offersWebSearch msg = false ->
  step w (WebSearchClicked i) = w.
Proof. intros Hi Hoff. simpl. rewrite Hi, Hoff. reflexivity. Qed.

Lemma plain_execute_message strategy fetched now date (e e' : Env) msg :
  strategy <> Enhanced ->
  execute strategy (QuerySettlement fetched) now date e
  = Some (e', Return msg) ->
  exists response body,
    fetched = Return response
    /\ 200 <= status response <= 299
    /\ json response = Return body
    /\ e' = e
    /\ msg = plain_answer_message body now date.
Proof.
  intros Hs.
  assert (forall r : Env * Result QueryResponse.t,
             r = api.query fetched e ->
             match r with
             | (e1, Return body) =>
                 exists response, fetched = Return response
                                  /\ 200 <= status response <= 299
                                  /\ json response = Return body /\ e1 = e
             | _ => True
             end) as Hquery.
  { intros [e1 [body|err]] Hr; [|exact I]. symmetry in Hr.
    revert Hr. unfold api.query.
    destruct fetched as [response|err]; [|discriminate].
    destruct (Z.eq_dec (status response) 401) as [H401|Hother].
    - rewrite (handleAuthError_401 _ _ H401). discriminate.
    - rewrite (handleAuthError_other _ _ Hother).
      destruct (ok response) eqn:Hok; simpl; [|discriminate].
      intros [= <- Hjson]. exists response.
      split; [reflexivity|]. split; [apply ok_iff, Hok|].
      split; [exact Hjson|reflexivity]. }
  destruct strategy; [| |contradiction]; simpl;
    unfold BasicQueryStrategy.execute, CombinedQueryStrategy.execute;
    specialize (Hquery _ eq_refl);
    destruct (api.query fetched e) as [e1 [body|err]]; try discriminate;
    intros [= <- <-];
    destruct Hquery as (response & Hf & Hr & Hj & He);
    exists response, body;
    (split; [exact Hf|]); (split; [exact Hr|]); (split; [exact Hj|]);
    (split; [exact He|reflexivity]).
Qed.

(** An answer of the basic or of the combined strategy is built only
    from a 2xx response whose body parses: its content is the body's
    [response], its sources the body's [source_nodes], its id the numeral
    of the clock value plus one, and it has no enrichment property.  Once
    it is appended, the web-search button is never rendered for it,
    whatever events follow, and a click on it is not possible. *)
Theorem plain_answers_never_offer_web_search (w : World) (k : nat)
    (pending : PendingQuery.t) (fetched : Fetched QueryResponse.t)
    (now date : Z) (e' : Env) (msg : Message.t) (events : list Event) :
  pendingQueries w !! k = Some pending ->
  PendingQuery.strategy pending <> Enhanced ->
  execute (PendingQuery.strategy pending) (QuerySettlement fetched) now date
          (env w)
  = Some (e', Return msg) ->
  let w1 := step w (QuerySettled k (QuerySettlement fetched) now date) in
  let i := length (messages (chat w)) in
  (exists response body,
      fetched = Return response
      /\ 200 <= status response <= 299
      /\ json response = Return body
      /\ msg = plain_answer_message body now date)
  /\ messages (chat w1) = (messages (chat w) ++ [msg])%list
  /\ exists msg',
       messages (chat (run w1 events)) !! i = Some msg'
       /\ offersWebSearch msg' = false
       /\ step (run w1 events) (WebSearchClicked i) = run w1 events.
Proof.
  intros Hk Hs Hexec. cbv zeta.
  destruct (plain_execute_message _ _ _ _ _ _ _ Hs Hexec)
    as (response & body & Hf & Hr & Hj & He & Hmsg).
  split; [exists response, body; tauto|].
  assert (messages (chat (step w (QuerySettled k (QuerySettlement fetched)
                                               now date)))
          = (messages (chat w) ++ [msg])%list) as Hafter.
  { simpl. rewrite Hk, Hexec. apply handleSubmit_settled_messages. }
  split; [exact Hafter|].
  assert (offersWebSearch msg = false) as Hoff by (rewrite Hmsg; reflexivity).
  assert (messages (chat (step w (QuerySettled k (QuerySettlement fetched)
                                               now date)))
          !! length (messages (chat w)) = Some msg) as Hat.
  { rewrite Hafter. apply list_lookup_middle. reflexivity. }
  destruct (run_keeps_unoffered events _ _ msg Hat Hoff) as (msg' & Hi' & Hoff').
  exists msg'. split; [exact Hi'|]. split; [exact Hoff'|].
  apply (step_click_unoffered _ _ msg'); assumption.
Qed.

Lemma plain_answers_never_offer_web_search_witness :
  let w := run (mount signed_in signed_in_storage)
               [ModeSelected "basic"; InputChanged "What is X";
                FormSubmitted 1000 1000] in
  let fetched := Return (mkResponse 200 "OK" (Return plain_answer)) in
  let w1 := step w (QuerySettled 0 (QuerySettlement fetched) 1420 1420) in
  messages (chat w1)
  = (messages (chat w) ++ [plain_answer_message plain_answer 1420 1420])%list.
Proof.
  destruct (plain_answers_never_offer_web_search
              (run (mount signed_in signed_in_storage)
                   [ModeSelected "basic"; InputChanged "What is X";
                    FormSubmitted 1000 1000])
              0
              {| PendingQuery.strategy := Basic;
                 PendingQuery.request :=
                   execute_request Basic "What is X" signed_in_storage |}
              (Return (mkResponse 200 "OK" (Return plain_answer)))
              1420 1420 signed_in_storage
              (plain_answer_message plain_answer 1420 1420) [])
    as (_ & Hafter & _).
  - vm_compute. reflexivity.
  - discriminate.
  - vm_compute. reflexivity.
  - exact Hafter.
Defined.

(** ** Questions and answers in the history (ChatInterface, MessageItem) *)

Lemma spread_keeps_role msg updates :
  keeps_role updates ->
  Message.type (spread msg updates) = Message.type msg
  /\ Message.content (spread msg updates) = Message.content msg
  /\ Message.enhancedResponse (spread msg updates)
     = Message.enhancedResponse msg.
Proof.
  intros (Ht & Hc & He). unfold spread; simpl. rewrite Ht, Hc, He.
  repeat split.
Qed.

Lemma asks_update id updates l :
  keeps_role updates ->
  asks_before_answers l -> asks_before_answers (update_in id updates l).
Proof.
  intros Hrole Hl i msg' Hi.
  destruct (l !! i) as [msg|] eqn:Hmsg.
  - rewrite (update_in_lookup _ _ _ _ _ Hmsg) in Hi. injection Hi as <-.
    specialize (Hl i msg Hmsg).
    destruct (spread_keeps_role msg updates Hrole) as (Ht & Hc & He).
    assert (Message.type (if String.eqb (Message.id msg) id
                          then spread msg updates else msg)
            = Message.type msg) as Htype
      by (destruct (String.eqb (Message.id msg) id); [exact Ht|reflexivity]).
    rewrite Htype. destruct (Message.type msg).
    + destruct (String.eqb (Message.id msg) id); [|exact Hl].
      rewrite Hc, He. exact Hl.
    + destruct Hl as (j & question & -> & Hj & Hq).
      exists j. eexists. split; [reflexivity|].
      split; [apply (update_in_lookup _ _ _ _ _ Hj)|].
      destruct (String.eqb (Message.id question) id); [|exact Hq].
      destruct (spread_keeps_role question updates Hrole) as (Ht' & _).
      rewrite Ht'. exact Hq.
  - exfalso. apply lookup_ge_None in Hmsg.
    apply lookup_lt_Some in Hi. unfold update_in in Hi.
    rewrite length_map in Hi. lia.
Qed.

Lemma asks_snoc l msg :
  asks_before_answers l ->
  match Message.type msg with
  | user => Message.enhancedResponse msg = None /\ Message.content msg <> ""
  | assistant =>
      exists question, last l = Some question /\ Message.type question = user
  end ->
  asks_before_answers (l ++ [msg]).
Proof.
  intros Hl Hmsg i m Hi.
  destruct (decide (i < length l)%nat) as [Hlt|Hge].
  - rewrite lookup_app_l in Hi by exact Hlt.
    specialize (Hl i m Hi). destruct (Message.type m); [exact Hl|].
    destruct Hl as (j & question & -> & Hj & Hq).
    exists j, question. split; [reflexivity|]. split; [|exact Hq].
    apply lookup_app_l_Some. exact Hj.
  - rewrite lookup_app_r in Hi by lia.
    destruct (i - length l)%nat as [|n] eqn:Hn; [|discriminate].
    injection Hi as <-. destruct (Message.type msg); [exact Hmsg|].
    destruct Hmsg as (question & Hlast & Hq).
    rewrite last_lookup in Hlast.
    destruct l as [|x l']; [discriminate|].
    exists (length l'), question. cbn [length pred] in *.
    split; [lia|]. split; [|exact Hq].
    apply (lookup_app_l_Some (x :: l')). exact Hlast.
Qed.

Lemma execute_type strategy settled now date (e e' : Env) msg :
  execute strategy settled now date e = Some (e', Return msg) ->
  Message.type msg = assistant.
Proof.
  destruct strategy, settled as [fetched|fetched]; simpl; try discriminate;
    unfold BasicQueryStrategy.execute, CombinedQueryStrategy.execute,
      EnhancedQueryStrategy.execute.
  - destruct (api.query fetched e) as [e1 [r|err]]; [|discriminate].
    intros [= _ <-]. reflexivity.
  - destruct (api.query fetched e) as [e1 [r|err]]; [|discriminate].
    intros [= _ <-]. reflexivity.
  - destruct (api.queryEnhanced fetched e) as [e1 [r|err]]; [|discriminate].
    intros [= _ <-]. reflexivity.
Qed.

Lemma last_update_in id updates l question :
  keeps_role updates ->
  last l = Some question -> Message.type question = user ->
  exists question', last (update_in id updates l) = Some question'
                    /\ Message.type question' = user.
Proof.
  intros Hrole Hlast Hq. unfold update_in.
  change (map ?f l) with (f <$> l). rewrite fmap_last, Hlast. simpl.
  eexists. split; [reflexivity|].
  destruct (String.eqb (Message.id question) id); [|exact Hq].
  destruct (spread_keeps_role question updates Hrole) as (Ht & _).
  rewrite Ht. exact Hq.
Qed.

Lemma conversation_invariant_update w w' id updates :
  keeps_role updates ->
  messages (chat w') = update_in id updates (messages (chat w)) ->
  pendingQueries w' = pendingQueries w ->
  isLoading (chat w') = isLoading (chat w) ->
  conversation_invariant w -> conversation_invariant w'.
Proof.
  intros Hrole Hm Hp Hl (Hasks & Hone & Hlast).
  unfold conversation_invariant, one_query_at_a_time.
  rewrite Hm, Hp, Hl. split; [apply asks_update; assumption|].
  split; [exact Hone|]. intros Hne.
  destruct (Hlast Hne) as (question & Hq & Hu).
  apply (last_update_in _ _ _ question); assumption.
Qed.

Lemma conversation_invariant_same w w' :
  messages (chat w') = messages (chat w) ->
  pendingQueries w' = pendingQueries w ->
  isLoading (chat w') = isLoading (chat w) ->
  conversation_invariant w -> conversation_invariant w'.
Proof.
  intros Hm Hp Hl Hinv.
  unfold conversation_invariant, one_query_at_a_time.
  rewrite Hm, Hp, Hl. exact Hinv.
Qed.

Lemma conversation_invariant_step w ev :
  conversation_invariant w -> conversation_invariant (step w ev).
Proof.
  intros Hinv.
  pose proof (one_query_at_a_time_step w ev (proj1 (proj2 Hinv))) as Hone'.
  destruct ev as [f|v|m| |now date|k s now date|i|k f]; simpl in *.
  - destruct (healthCheckPending w); [|exact Hinv].
    unfold checkHealth.
    destruct (api.healthCheck f);
      (apply (conversation_invariant_same w); [reflexivity..|exact Hinv]).
  - destruct (inputDisabled (chat w)); [exact Hinv|].
    apply (conversation_invariant_same w); [reflexivity..|exact Hinv].
  - destruct (bool_decide _); [|exact Hinv].
    apply (conversation_invariant_same w); [reflexivity..|exact Hinv].
  - destruct (error (chat w)) as [text|]; [|exact Hinv].
    destruct (truthy text); [|exact Hinv].
    apply (conversation_invariant_same w); [reflexivity..|exact Hinv].
  - destruct (submitDisabled (chat w)); [exact Hinv|].
    destruct Hinv as (Hasks & _ & Hlast).
    split; [|split; [exact Hone'|]]; rewrite handleSubmit_messages.
    + destruct (negb (truthy (trim (input (chat w)))) || isLoading (chat w))
        eqn:Hguard; [exact Hasks|].
      apply asks_snoc; [exact Hasks|]. simpl.
      split; [reflexivity|].
      apply orb_false_iff in Hguard as [Hguard _].
      destruct (trim (input (chat w))); [discriminate|discriminate].
    + intros Hne.
      destruct (negb (truthy (trim (input (chat w)))) || isLoading (chat w))
        eqn:Hguard.
      * unfold handleSubmit in Hne. rewrite Hguard in Hne.
        apply Hlast, Hne.
      * eexists. split; [apply last_snoc|reflexivity].
  - destruct (pendingQueries w !! k) as [pending|] eqn:Hk; [|exact Hinv].
    destruct (execute (PendingQuery.strategy pending) s now date (env w))
      as [[e' outcome]|] eqn:Hexec; [|exact Hinv].
    destruct Hinv as (Hasks & _ & Hlast).
    assert (pendingQueries w <> []) as Hne
      by (intros H; rewrite H in Hk; discriminate).
    assert (pendingQueries
              (handleSubmit_settled outcome
                 (with_env e'
                    (with_pendingQueries (delete k (pendingQueries w)) w)))
            = []) as Hnone.
    { destruct Hone' as [[H _]|(p & _ & H)]; [exact H|].
      unfold handleSubmit_settled in H.
      destruct outcome as [msg|err];
        [|destruct (instanceof_AuthenticationError err)]; discriminate. }
    split; [|split; [exact Hone'|]].
    + rewrite handleSubmit_settled_messages.
      destruct outcome as [msg|err]; [|exact Hasks].
      apply asks_snoc; [exact Hasks|].
      rewrite (execute_type _ _ _ _ _ _ _ Hexec). apply Hlast, Hne.
    + rewrite Hnone. intros H. contradiction.
  - destruct (messages (chat w) !! i) as [message|]; [|exact Hinv].
    destruct (offersWebSearch message && negb (webSearchDisabled message));
      [|exact Hinv].
    unfold handleWebSearchClick.
    destruct (Message.enhancedResponse message); [|exact Hinv].
    apply (conversation_invariant_update w _ (Message.id message)
             (loading_updates true)); try reflexivity; [repeat split|exact Hinv].
  - destruct (pendingWebSearches w !! k) as [pending|]; [|exact Hinv].
    unfold handleWebSearch_settled. simpl env.
    destruct (api.webSearchExplicit f (env w)) as [e' [response|err]].
    + apply (conversation_invariant_update w _
               (PendingWebSearch.messageId pending)
               (enrichment_updates response));
        try reflexivity; [repeat split|exact Hinv].
    + destruct (instanceof_AuthenticationError err).
      * apply (conversation_invariant_same w); [reflexivity..|exact Hinv].
      * apply (conversation_invariant_update w _
                 (PendingWebSearch.messageId pending) (loading_updates false));
          try reflexivity; [repeat split|exact Hinv].
Qed.

Lemma conversation_invariant_run session (e : Env) events :
  conversation_invariant (run (mount session e) events).
Proof.
  unfold run.
  assert (conversation_invariant (mount session e)) as H0.
  { split; [intros i msg Hi; simpl in Hi; rewrite lookup_nil in Hi;
            discriminate|].
    split; [left; split; reflexivity|]. intros H. contradiction. }
  revert H0. generalize (mount session e).
  induction events as [|ev events IH]; intros w Hw; [exact Hw|].
  simpl. apply IH, conversation_invariant_step, Hw.
Qed.

(** In every state the controller reaches from its mount, every
    assistant message directly follows a user message, and every user
    message has a content that is not empty.  So wherever the web-search
    button can be clicked, the message is an answer of the enhanced
    strategy, the message before it is the user's question, and the click
    starts one phase-2 call for the id of the answer whose request
    carries that question, the answer's server-side message id, search
    context and preferred sources, [max_results] 5 and [concise_mode]. *)
Theorem web_search_sends_the_question (session : AuthContext.t) (e : Env)
    (events : list Event) :
  let w := run (mount session e) events in
  asks_before_answers (messages (chat w))
  /\ forall (i : nat) (message : Message.t),
       messages (chat w) !! i = Some message ->
       offersWebSearch message = true ->
       webSearchDisabled message = false ->
       exists j question enhancedResponse,
         i = S j
         /\ messages (chat w) !! j = Some question
         /\ Message.type question = user
         /\ Message.content question <> ""
         /\ Message.type message = assistant
         /\ Message.enhancedResponse message = Some enhancedResponse
         /\ pendingWebSearches (step w (WebSearchClicked i))
            = (pendingWebSearches w
                 ++ [ {| PendingWebSearch.messageId := Message.id message;
                         PendingWebSearch.request :=
                           api.webSearchExplicit_request
                             (enrichment_request (Message.content question)
                                                 enhancedResponse)
                             (env w) |} ])%list.
Proof.
  cbv zeta.
  destruct (conversation_invariant_run session e events) as (Hasks & _).
  split; [exact Hasks|].
  intros i message Hi Hoff Hdis.
  assert (exists enhancedResponse,
             Message.enhancedResponse message = Some enhancedResponse)
    as (enhancedResponse & Her).
  { unfold offersWebSearch in Hoff.
    destruct (Message.showWebSearchButton message) as [[|]|];
      try discriminate.
    destruct (Message.enhancedResponse message) as [r|]; [|discriminate].
    exists r. reflexivity. }
  pose proof (Hasks i message Hi) as Hrole.
  destruct (Message.type message) eqn:Htype.
  { destruct Hrole as (Hnone & _). congruence. }
  destruct Hrole as (j & question & -> & Hj & Hq).
  pose proof (Hasks j question Hj) as Hquestion. rewrite Hq in Hquestion.
  exists j, question, enhancedResponse.
  split; [reflexivity|]. split; [exact Hj|]. split; [exact Hq|].
  split; [apply Hquestion|]. split; [reflexivity|]. split; [exact Her|].
  simpl. rewrite Hi, Hoff, Hdis. simpl.
  unfold handleWebSearchClick. rewrite Her, Hj, Hq. reflexivity.
Qed.

Lemma web_search_sends_the_question_witness :
  exists question enhancedResponse,
    messages (chat (answered true)) !! 0%nat = Some question
    /\ Message.content question = "What is X"
    /\ pendingWebSearches (step (answered true) (WebSearchClicked 1))
       = [ {| PendingWebSearch.messageId := "1421";
              PendingWebSearch.request :=
                api.webSearchExplicit_request
                  (enrichment_request (Message.content question)
                                      enhancedResponse)
                  signed_in_storage |} ].
Proof.
  destruct (web_search_sends_the_question signed_in signed_in_storage
              [ InputChanged "What is X"; FormSubmitted 1000 1000;
                QuerySettled 0
                  (LocalSettlement
                     (Return (mkResponse 200 "OK"
                                (Return (eligible_response true)))))
                  1420 1420 ]) as (_ & Hclick).
  destruct (Hclick 1%nat
              {| Message.id := "1421"; Message.type := assistant;
                 Message.content := "Answer"; Message.timestamp := 1420;
                 Message.sources := Some [];
                 Message.enhancedResponse := Some (eligible_response true);
                 Message.webSearchResponse := None;
                 Message.isWebSearchLoading := None;
                 Message.showWebSearchButton := Some true |}
              eq_refl eq_refl eq_refl)
    as (j & question & enhancedResponse & Hj & Hq & _ & _ & _ & _ & Hpending).
  injection Hj as <-.
  exists question, enhancedResponse.
  split; [exact Hq|]. split; [|exact Hpending].
  vm_compute in Hq. injection Hq as <-. reflexivity.
Defined.

(** ** Login, logout and reload (contexts/auth-context.tsx) *)

Lemma login_ok_iff (response : LoginHttpResponse.t) :
  LoginHttpResponse.ok response = true
  <-> 200 <= LoginHttpResponse.status response <= 299.
Proof.
  unfold LoginHttpResponse.ok. rewrite andb_true_iff, !Z.leb_le. tauto.
Qed.

Lemma login_success_result stringify response data p (e : Env) :
  200 <= LoginHttpResponse.status response <= 299 ->
  LoginHttpResponse.data response = Return data ->
  AuthProvider.login stringify (Return response) p e
  = ({| AuthProvider.context :=
          {| AuthContext.user := Some (LoginResponse.user data);
             AuthContext.token := Some (LoginResponse.access_token data) |};
        AuthProvider.loading := AuthProvider.loading p |},
     setItem "user" (stringify (LoginResponse.user data))
       (setItem "auth_token" (LoginResponse.access_token data) e),
     Return data).
Proof.
  intros Hrange Hdata. unfold AuthProvider.login.
  rewrite (proj2 (login_ok_iff response) Hrange), Hdata. reflexivity.
Qed.

Lemma truthy_iff s : truthy s = true <-> s <> "".
Proof. destruct s; simpl; split; congruence. Qed.

(** A successful login (2xx, body parses) sets token and user in the
    provider and, in a browser, stores the token under [auth_token] and
    the serialised user under [user], leaving every other key alone; the
    caller gets the parsed body.  From then on the protected calls carry
    "Bearer <token>" (for a token that is not empty) and the protected
    content is shown once loading is over.  A logout after it removes
    both keys, takes the bearer header away again, shows the login
    screen, and leaves every other key as it was before the login. *)
Theorem login_then_logout (stringify : User.t -> string)
    (response : LoginHttpResponse.t) (data : LoginResponse.t)
    (p : AuthProvider.t) (store : gmap string string) :
  200 <= LoginHttpResponse.status response <= 299 ->
  LoginHttpResponse.data response = Return data ->
  let after := AuthProvider.login stringify (Return response) p (Some store) in
  let out := AuthProvider.logout after.1.1 after.1.2 in
  after.2 = Return data
  /\ AuthContext.token (AuthProvider.context after.1.1)
     = Some (LoginResponse.access_token data)
  /\ AuthContext.user (AuthProvider.context after.1.1)
     = Some (LoginResponse.user data)
  /\ AuthProvider.loading after.1.1 = AuthProvider.loading p
  /\ getItem "auth_token" after.1.2 = Some (LoginResponse.access_token data)
  /\ getItem "user" after.1.2 = Some (stringify (LoginResponse.user data))
  /\ same_but_session (Some store) after.1.2
  /\ (LoginResponse.access_token data <> "" ->
      getAuthHeaders after.1.2 !! "Authorization"
      = Some ("Bearer " +:+ LoginResponse.access_token data))
  /\ (AuthProvider.loading p = false ->
      ProtectedWrapper after.1.1 = ProtectedContent
      /\ AuthNavbar after.1.1 = true)
  /\ (getItem "auth_token" out.2 = None
      /\ getItem "user" out.2 = None
      /\ same_but_session (Some store) out.2
      /\ getAuthHeaders out.2 !! "Authorization" = None
      /\ AuthContext.isAuthenticated (AuthProvider.context out.1) = false
      /\ AuthNavbar out.1 = false
      /\ (AuthProvider.loading p = false ->
          ProtectedWrapper out.1 = LoginScreen)).
Proof.
  intros Hrange Hdata. cbv zeta.
  rewrite (login_success_result stringify response data p _ Hrange Hdata).
  simpl.
  split; [reflexivity|]. split; [reflexivity|]. split; [reflexivity|].
  split; [reflexivity|].
  split; [rewrite lookup_insert_ne by discriminate; apply lookup_insert_eq|].
  split; [apply lookup_insert_eq|].
  split.
  { intros key Ht Hu. simpl. rewrite !lookup_insert_ne by congruence.
    reflexivity. }
  split.
  { intros Htoken. unfold getAuthHeaders. simpl.
    rewrite lookup_insert_ne by discriminate. rewrite lookup_insert_eq.
    rewrite (proj2 (truthy_iff _) Htoken). apply lookup_insert_eq. }
  split.
  { intros Hl. unfold ProtectedWrapper, AuthNavbar. simpl. rewrite Hl.
    split; reflexivity. }
  split; [rewrite lookup_delete_ne by discriminate; apply lookup_delete_eq|].
  split; [apply lookup_delete_eq|].
  split.
  { intros key Ht Hu. simpl.
    rewrite !lookup_delete_ne, !lookup_insert_ne by congruence. reflexivity. }
  split.
  { unfold getAuthHeaders. simpl.
    rewrite lookup_delete_ne by discriminate. rewrite lookup_delete_eq.
    apply lookup_singleton_ne. discriminate. }
  split; [reflexivity|]. split; [reflexivity|].
  intros Hl. unfold ProtectedWrapper. simpl. rewrite Hl. reflexivity.
Qed.

Lemma login_then_logout_witness :
  let after :=
    AuthProvider.login name_of_user (Return login_success)
      {| AuthProvider.context := AuthProvider.context AuthProvider.initial;
         AuthProvider.loading := false |}
      (Some {[ "theme" := "dark" ]}) in
  getAuthHeaders after.1.2 !! "Authorization" = Some "Bearer t0k3n"
  /\ ProtectedWrapper after.1.1 = ProtectedContent
  /\ getItem "theme" (AuthProvider.logout after.1.1 after.1.2).2 = Some "dark".
Proof.
  destruct (login_then_logout name_of_user login_success
              {| LoginResponse.access_token := "t0k3n";
                 LoginResponse.token_type := "bearer";
                 LoginResponse.user := ada |}
              {| AuthProvider.context :=
                   AuthProvider.context AuthProvider.initial;
                 AuthProvider.loading := false |}
              {[ "theme" := "dark" ]})
    as (_ & _ & _ & _ & _ & _ & _ & Hheader & Hscreen & _ & _ & Hkeep & _).
  - simpl. lia.
  - reflexivity.
  - split; [apply Hheader; discriminate|].
    split; [apply Hscreen; reflexivity|].
    rewrite (Hkeep "theme") by discriminate. reflexivity.
Defined.

(** A login that fails changes neither the provider nor the storage,
    whatever the failure.  A transport failure and an unparsable 2xx body
    are passed on as they are; any status outside 2xx, 401 included, is a
    plain [Error] (never an [AuthenticationError], and the stored session
    is not cleared).  Its message is the server's [detail] if that is a
    non-empty string, the string conversion of [detail] if that is
    another truthy value ("[object Object]" for an array holding one
    object), and "Login failed: <statusText>" when [detail] is absent,
    the empty string or another falsy value.  A value is returned only
    from a 2xx response. *)
Theorem failed_login_changes_nothing (stringify : User.t -> string)
    (fetched : Result LoginHttpResponse.t) (p : AuthProvider.t) (e : Env) :
  let r := AuthProvider.login stringify fetched p e in
  (forall err, r.2 = Throw err -> r.1 = (p, e))
  /\ (forall err, fetched = Throw err -> r.2 = Throw err)
  /\ (forall response,
         fetched = Return response ->
         ~ 200 <= LoginHttpResponse.status response <= 299 ->
         exists text,
           r.2 = Throw (Error text)
           /\ (forall detail,
                  LoginHttpResponse.detail response = Detail.a_string detail ->
                  detail <> "" -> text = detail)
           /\ (forall shown,
                  LoginHttpResponse.detail response = Detail.other true shown ->
                  text = shown)
           /\ (LoginHttpResponse.detail response = Detail.undefined
               \/ LoginHttpResponse.detail response = Detail.a_string ""
               \/ (exists shown,
                      LoginHttpResponse.detail response
                      = Detail.other false shown) ->
               text = "Login failed: "
                      +:+ LoginHttpResponse.statusText response))
  /\ (forall response err,
         fetched = Return response ->
         200 <= LoginHttpResponse.status response <= 299 ->
         LoginHttpResponse.data response = Throw err ->
         r.2 = Throw err)
  /\ (forall data,
         r.2 = Return data ->
         exists response,
           fetched = Return response
           /\ 200 <= LoginHttpResponse.status response <= 299
           /\ LoginHttpResponse.data response = Return data).
Proof.
  cbv zeta. unfold AuthProvider.login.
  destruct fetched as [response|err0].
  - destruct (LoginHttpResponse.ok response) eqn:Hok; simpl.
    + apply login_ok_iff in Hok.
      destruct (LoginHttpResponse.data response) as [data|err1] eqn:Hdata;
        simpl.
      * split; [discriminate|]. split; [discriminate|].
        split; [intros r [= <-] Hno; contradiction|].
        split; [intros r err [= <-] _ H; congruence|].
        intros d [= <-]. exists response. tauto.
      * split; [reflexivity|]. split; [discriminate|].
        split; [intros r [= <-] Hno; contradiction|].
        split; [intros r err [= <-] _ H; congruence|].
        discriminate.
    + assert (~ 200 <= LoginHttpResponse.status response <= 299) as Hno.
      { intros H. apply login_ok_iff in H. congruence. }
      split; [reflexivity|]. split; [discriminate|].
      split.
      { intros r [= <-] _. eexists. split; [reflexivity|]. split; [|split].
        - intros detail -> Hne. simpl.
          rewrite (proj2 (truthy_iff _) Hne). reflexivity.
        - intros shown ->. reflexivity.
        - intros [->|[->|[shown ->]]]; reflexivity. }
      split; [intros r err [= <-] H; contradiction|].
      discriminate.
  - simpl. split; [reflexivity|]. split; [intros err [= <-]; reflexivity|].
    split; [discriminate|]. split; [discriminate|]. discriminate.
Qed.

Lemma failed_login_changes_nothing_witness :
  AuthProvider.login name_of_user (Return login_refused) AuthProvider.initial
                     signed_in_storage
  = (AuthProvider.initial, signed_in_storage,
     Throw (Error "Incorrect username or password"))
  /\ (AuthProvider.login name_of_user (Return login_invalid)
                         AuthProvider.initial signed_in_storage).2
     = Throw (Error "[object Object]").
Proof.
  split.
  - destruct (failed_login_changes_nothing name_of_user
                (Return login_refused) AuthProvider.initial signed_in_storage)
      as (Hsame & _ & Hstatus & _).
    destruct (Hstatus login_refused eq_refl)
      as (text & Hresult & Hdetail & _); [simpl; lia|].
    rewrite (Hdetail "Incorrect username or password" eq_refl) in Hresult
      by discriminate.
    pose proof (Hsame _ Hresult) as Hstate.
    destruct (AuthProvider.login name_of_user (Return login_refused)
                AuthProvider.initial signed_in_storage) as [[p' e'] result].
    simpl in Hresult, Hstate. congruence.
  - destruct (failed_login_changes_nothing name_of_user
                (Return login_invalid) AuthProvider.initial signed_in_storage)
      as (_ & _ & Hstatus & _).
    destruct (Hstatus login_invalid eq_refl)
      as (text & Hresult & _ & Hother & _); [simpl; lia|].
    rewrite (Hother "[object Object]" eq_refl) in Hresult. exact Hresult.
Defined.

Lemma hydrate_saved parse p (store : gmap string string) savedToken savedUser :
  store !! "auth_token" = Some savedToken -> savedToken <> "" ->
  store !! "user" = Some savedUser -> savedUser <> "" ->
  AuthProvider.hydrate parse p (Some store)
  = match parse savedUser with
    | Return parsed =>
        ({| AuthProvider.context :=
              {| AuthContext.user := parsed;
                 AuthContext.token := Some savedToken |};
            AuthProvider.loading := false |}, Some store)
    | Throw _ =>
        ({| AuthProvider.context :=
              {| AuthContext.user :=
                   AuthContext.user (AuthProvider.context p);
                 AuthContext.token := Some savedToken |};
            AuthProvider.loading := false |},
         discard_session (Some store))
    end.
Proof.
  intros Ht Htne Hu Hune. unfold AuthProvider.hydrate.
  rewrite Ht, Hu, (proj2 (truthy_iff _) Htne), (proj2 (truthy_iff _) Hune).
  reflexivity.
Qed.

(** Reloading after a login restores the session: when the token and the
    serialised user are not empty and parsing the serialised user gives
    the user back, the mount effect run on a fresh provider over the
    storage the login left gives exactly the context the login produced,
    with loading over and the storage untouched. *)
Theorem reload_restores_login (stringify : User.t -> string)
    (parse : string -> Result (option User.t))
    (response : LoginHttpResponse.t) (data : LoginResponse.t)
    (p : AuthProvider.t) (store : gmap string string) :
  200 <= LoginHttpResponse.status response <= 299 ->
  LoginHttpResponse.data response = Return data ->
  LoginResponse.access_token data <> "" ->
  stringify (LoginResponse.user data) <> "" ->
  parse (stringify (LoginResponse.user data))
  = Return (Some (LoginResponse.user data)) ->
  let after := AuthProvider.login stringify (Return response) p (Some store) in
  let reloaded := AuthProvider.hydrate parse AuthProvider.initial after.1.2 in
  reloaded
  = ({| AuthProvider.context := AuthProvider.context after.1.1;
        AuthProvider.loading := false |}, after.1.2)
  /\ ProtectedWrapper reloaded.1 = ProtectedContent.
Proof.
  intros Hrange Hdata Htoken Huser Hparse. cbv zeta.
  rewrite (login_success_result stringify response data p _ Hrange Hdata).
  cbn [fst snd setItem].
  rewrite (hydrate_saved parse _ _ (LoginResponse.access_token data)
             (stringify (LoginResponse.user data)));
    [|rewrite lookup_insert_ne by discriminate; apply lookup_insert_eq
     |exact Htoken|apply lookup_insert_eq|exact Huser].
  rewrite Hparse. split; reflexivity.
Qed.

Lemma reload_restores_login_witness :
  let after :=
    AuthProvider.login name_of_user (Return login_success)
                       AuthProvider.initial (Some ∅) in
  AuthProvider.hydrate user_of_name AuthProvider.initial after.1.2
  = ({| AuthProvider.context := AuthProvider.context after.1.1;
        AuthProvider.loading := false |}, after.1.2).
Proof.
  apply (reload_restores_login name_of_user user_of_name login_success
           {| LoginResponse.access_token := "t0k3n";
              LoginResponse.token_type := "bearer";
              LoginResponse.user := ada |}
           AuthProvider.initial ∅).
  - simpl. lia.
  - reflexivity.
  - discriminate.
  - discriminate.
  - reflexivity.
Defined.

(** The mount effect in its other cases.  It always ends loading, and it
    never adds to the storage.  Without a [window], or when the token or
    the user is missing from the storage or is the empty string, it
    changes nothing else.  When both are there but the stored user does
    not parse, it removes both keys, and the provider keeps the stored
    token without a user, which is not authenticated; when the stored
    user parses to [null] the storage is kept as it is and the provider
    is not authenticated either.  In all these cases a fresh provider
    shows the login screen. *)
Theorem reload_without_a_session (parse : string -> Result (option User.t))
    (p : AuthProvider.t) (e : Env) :
  let r := AuthProvider.hydrate parse p e in
  AuthProvider.loading r.1 = false
  /\ (forall key, getItem key r.2 = getItem key e \/ getItem key r.2 = None)
  /\ (~ holds "auth_token" e \/ ~ holds "user" e ->
      r = ({| AuthProvider.context := AuthProvider.context p;
              AuthProvider.loading := false |}, e))
  /\ (forall savedToken savedUser,
         getItem "auth_token" e = Some savedToken -> savedToken <> "" ->
         getItem "user" e = Some savedUser -> savedUser <> "" ->
         (forall err, parse savedUser = Throw err ->
            r.2 = discard_session e
            /\ AuthContext.token (AuthProvider.context r.1) = Some savedToken
            /\ AuthContext.user (AuthProvider.context r.1)
               = AuthContext.user (AuthProvider.context p))
         /\ (parse savedUser = Return None ->
             r.2 = e
             /\ AuthContext.isAuthenticated (AuthProvider.context r.1)
                = false
             /\ ProtectedWrapper r.1 = LoginScreen))
  /\ (AuthContext.user (AuthProvider.context p) = None ->
      (forall user, parse <$> getItem "user" e <> Some (Return (Some user))) ->
      AuthContext.isAuthenticated (AuthProvider.context r.1) = false
      /\ ProtectedWrapper r.1 = LoginScreen).
Proof.
  cbv zeta.
  assert ((~ holds "auth_token" e \/ ~ holds "user" e)
          \/ exists store savedToken savedUser,
               e = Some store
               /\ store !! "auth_token" = Some savedToken
               /\ savedToken <> ""
               /\ store !! "user" = Some savedUser /\ savedUser <> "")
    as Hcases.
  { unfold holds. destruct e as [store|]; simpl.
    - destruct (store !! "auth_token") as [savedToken|] eqn:Ht.
      + destruct (decide (savedToken = "")) as [->|Htne].
        * left. left. intros (v & [= <-] & Hv). contradiction.
        * destruct (store !! "user") as [savedUser|] eqn:Hu.
          -- destruct (decide (savedUser = "")) as [->|Hune].
             ++ left. right. intros (v & [= <-] & Hv). contradiction.
             ++ right. exists store, savedToken, savedUser. tauto.
          -- left. right. intros (v & Hv & _). discriminate.
      + left. left. intros (v & Hv & _). discriminate.
    - left. left. intros (v & Hv & _). discriminate. }
  assert (~ holds "auth_token" e \/ ~ holds "user" e ->
          AuthProvider.hydrate parse p e
          = ({| AuthProvider.context := AuthProvider.context p;
                AuthProvider.loading := false |}, e)) as Hmissing.
  { intros Hno. unfold AuthProvider.hydrate.
    destruct e as [store|]; [|reflexivity].
    destruct (store !! "auth_token") as [savedToken|] eqn:Ht; [|reflexivity].
    destruct (store !! "user") as [savedUser|] eqn:Hu; [|reflexivity].
    destruct (truthy savedToken) eqn:Htt; [|reflexivity].
    destruct (truthy savedUser) eqn:Htu; [|reflexivity].
    exfalso. apply truthy_iff in Htt, Htu.
    destruct Hno as [Hno|Hno]; apply Hno; eexists; split; simpl; eauto. }
  destruct Hcases
    as [Hno|(store & savedToken & savedUser & -> & Ht & Htne & Hu & Hune)].
  - rewrite (Hmissing Hno). simpl.
    split; [reflexivity|]. split; [left; reflexivity|].
    split; [reflexivity|]. split.
    + intros savedToken savedUser Ht Htne Hu Hune.
      exfalso. destruct Hno as [Hno|Hno]; apply Hno; eexists; split; eauto.
    + intros Hnone _. unfold ProtectedWrapper, AuthContext.isAuthenticated.
      simpl. rewrite Hnone.
      destruct (AuthContext.token (AuthProvider.context p));
        split; reflexivity.
  - split; [|split; [|split; [exact Hmissing|]]];
      rewrite (hydrate_saved parse p store savedToken savedUser
                 Ht Htne Hu Hune).
    { destruct (parse savedUser); reflexivity. }
    { intros key. destruct (parse savedUser); [left; reflexivity|].
      simpl. destruct (decide (key = "user")) as [->|Hk1];
        [right; apply lookup_delete_eq|].
      rewrite lookup_delete_ne by congruence.
      destruct (decide (key = "auth_token")) as [->|Hk2];
        [right; apply lookup_delete_eq|].
      left. apply lookup_delete_ne. congruence. }
    split.
    { intros savedToken' savedUser' Ht' _ Hu' _. simpl in Ht', Hu'.
      assert (savedToken' = savedToken) as -> by congruence.
      assert (savedUser' = savedUser) as -> by congruence.
      split.
      - intros err Hparse. rewrite Hparse. repeat split.
      - intros Hparse. rewrite Hparse. repeat split. }
    intros Hnone Hnever. simpl in Hnever. rewrite Hu in Hnever. simpl in Hnever.
    destruct (parse savedUser) as [[user|]|err]; simpl.
    + exfalso. apply (Hnever user). reflexivity.
    + split; reflexivity.
    + rewrite Hnone. split; reflexivity.
Qed.

Lemma reload_without_a_session_witness :
  let r :=
    AuthProvider.hydrate user_of_name AuthProvider.initial
      (Some (<[ "auth_token" := "t0k3n" ]> {[ "user" := "{" ]})) in
  r.2 = Some ∅
  /\ AuthContext.token (AuthProvider.context r.1) = Some "t0k3n"
  /\ ProtectedWrapper r.1 = LoginScreen.
Proof.
  destruct (reload_without_a_session user_of_name AuthProvider.initial
              (Some (<[ "auth_token" := "t0k3n" ]> {[ "user" := "{" ]})))
    as (_ & _ & _ & Hcorrupt & Hscreen).
  destruct (Hcorrupt "t0k3n" "{" eq_refl) as (Hthrow & _);
    [discriminate|reflexivity|discriminate|].
  destruct (Hthrow (Error "Unexpected end of JSON input") eq_refl)
    as (Hstore & Htoken & _).
  split; [rewrite Hstore; vm_compute; reflexivity|].
  split; [exact Htoken|].
  apply Hscreen; [reflexivity|]. intros user. vm_compute. discriminate.
Defined.

(** ** The login form (LoginModal) *)



(** ** Mode configuration (config/query-modes.ts) *)

Lemma find_first_such {A : Type} (test : A -> bool) (l : list A) :
  match List.find test l with
  | Some x => first_such test l x
  | None => forall m, m ∈ l -> test m = false
  end.
Proof.
  induction l as [|a l IH]; simpl.
  - intros m Hm. inversion Hm.
  - destruct (test a) eqn:Ha.
    + exists [], l. split; [reflexivity|]. split; [exact Ha|].
      intros m Hm. inversion Hm.
    + destruct (List.find test l) as [x|].
      * destruct IH as (before & after & -> & Hx & Hbefore).
        exists (a :: before), after. split; [reflexivity|].
        split; [exact Hx|]. intros m Hm.
        apply elem_of_cons in Hm as [->|Hm]; [exact Ha|apply Hbefore, Hm].
      * intros m Hm.
        apply elem_of_cons in Hm as [->|Hm]; [exact Ha|apply IH, Hm].
Qed.

(** [getModeByValue] gives the first configuration of the list with the
    requested value when there is one, the first configuration of the
    list when there is none, and [undefined] exactly for the empty list;
    what it gives is always an element of the list. *)
Theorem getModeByValue_finds_or_falls_back (value : QueryMode)
    (modes : list QueryModeConfig.t) :
  let found := query_modes.getModeByValue value modes in
  (found = None <-> modes = [])
  /\ (forall cfg, found = Some cfg -> cfg ∈ modes)
  /\ (forall cfg,
         cfg ∈ modes -> QueryModeConfig.value cfg = value ->
         exists first,
           found = Some first
           /\ first_such (fun m => String.eqb (QueryModeConfig.value m) value)
                         modes first
           /\ QueryModeConfig.value first = value)
  /\ ((forall cfg, cfg ∈ modes -> QueryModeConfig.value cfg <> value) ->
      found = head modes).
Proof.
  cbv zeta. unfold query_modes.getModeByValue.
  pose proof (find_first_such
                (fun m => String.eqb (QueryModeConfig.value m) value) modes)
    as Hfind.
  destruct (List.find _ modes) as [x|] eqn:Hx.
  - destruct Hfind as (before & after & -> & Htest & Hbefore).
    split; [split; [discriminate|destruct before; discriminate]|].
    split; [intros cfg [= <-]; set_solver|].
    split.
    + intros cfg _ _. exists x. split; [reflexivity|].
      split; [exists before, after; tauto|apply String.eqb_eq, Htest].
    + intros Hnone. exfalso. apply (Hnone x); [set_solver|].
      apply String.eqb_eq, Htest.
  - split; [destruct modes; simpl; split; congruence|].
    split; [intros cfg Hcfg; destruct modes; [discriminate|];
            injection Hcfg as <-; left|].
    split; [|reflexivity].
    intros cfg Hin Hvalue. specialize (Hfind cfg Hin). simpl in Hfind.
    apply String.eqb_neq in Hfind. contradiction.
Qed.

(** [getDefaultModeValue] throws exactly for the empty list; otherwise it
    returns the value of the first configuration flagged [default: true],
    or of the first configuration when none is flagged. *)
Theorem getDefaultModeValue_picks_flagged (modes : list QueryModeConfig.t) :
  let flagged m := match QueryModeConfig.default m with
                   | Some true => true
                   | _ => false
                   end in
  ((exists err, query_modes.getDefaultModeValue modes = Throw err)
   <-> modes = [])
  /\ (forall cfg, first_such flagged modes cfg ->
        query_modes.getDefaultModeValue modes
        = Return (QueryModeConfig.value cfg))
  /\ (forall cfg rest,
         modes = cfg :: rest ->
         (forall m, m ∈ modes -> flagged m = false) ->
         query_modes.getDefaultModeValue modes
         = Return (QueryModeConfig.value cfg)).
Proof.
  cbv zeta. unfold query_modes.getDefaultModeValue.
  pose proof (find_first_such
                (fun m => match QueryModeConfig.default m with
                          | Some true => true
                          | _ => false
                          end) modes) as Hfind.
  destruct (List.find _ modes) as [x|] eqn:Hx.
  - destruct Hfind as (before & after & Hmodes & Htest & Hbefore).
    split; [split; [intros (err & H); discriminate
                   |intros ->; destruct before; discriminate]|].
    split.
    + intros cfg (before' & after' & Hmodes' & Htest' & Hbefore').
      f_equal. f_equal.
      assert (before = before' /\ x = cfg) as [_ ->]; [|reflexivity].
      clear Hx. subst modes. revert before' Hmodes' Hbefore'.
      induction before as [|b before IH]; intros [|b' before'] Hm Hb'.
      * injection Hm as -> _. split; reflexivity.
      * injection Hm as -> _. specialize (Hb' b' ltac:(left)). congruence.
      * injection Hm as -> _. specialize (Hbefore cfg ltac:(left)). congruence.
      * injection Hm as -> Hm.
        destruct (IH (fun m Hm => Hbefore m ltac:(right; exact Hm)) before' Hm
                     (fun m Hm => Hb' m ltac:(right; exact Hm))) as [-> ->].
        split; reflexivity.
    + intros cfg rest -> Hnone. exfalso.
      assert (x ∈ cfg :: rest) as Hin by (rewrite Hmodes; set_solver).
      specialize (Hnone x Hin). simpl in Hnone. congruence.
  - split.
    + destruct modes; simpl; split; try discriminate; eauto.
      intros (err & H). discriminate.
    + split.
      * intros cfg (before & after & -> & Htest & _). exfalso.
        specialize (Hfind cfg ltac:(set_solver)). simpl in Hfind. congruence.
      * intros cfg rest -> _. reflexivity.
Qed.

Lemma getDefaultModeValue_picks_flagged_witness :
  query_modes.getDefaultModeValue query_modes.QUERY_MODES_second
  = Return "enhanced"
  /\ exists err, query_modes.getDefaultModeValue [] = Throw err.
Proof.
  destruct (getDefaultModeValue_picks_flagged query_modes.QUERY_MODES_second)
    as (_ & Hflagged & _).
  destruct (getDefaultModeValue_picks_flagged []) as (Hempty & _).
  split; [|apply Hempty; reflexivity].
  rewrite (Hflagged
             {| QueryModeConfig.value := "enhanced";
                QueryModeConfig.label := "Two Step";
                QueryModeConfig.icon := "Sparkles";
                QueryModeConfig.description := "Embedding + Manual Web Search";
                QueryModeConfig.behavior := "enhanced";
                QueryModeConfig.default := Some true |}); [reflexivity|].
  eexists [_], [_]. split; [reflexivity|]. split; [reflexivity|].
  intros m Hm. apply list_elem_of_singleton in Hm. subst m. reflexivity.
Defined.

Lemma getModeByValue_finds_or_falls_back_witness :
  QueryModeConfig.label
    <$> query_modes.getModeByValue "combined" query_modes.QUERY_MODES
  = Some "Web Enhanced".
Proof.
  destruct (getModeByValue_finds_or_falls_back "combined"
              query_modes.QUERY_MODES) as (_ & _ & Hfound & _).
  destruct (Hfound
              {| QueryModeConfig.value := "combined";
                 QueryModeConfig.label := "Web Enhanced";
                 QueryModeConfig.icon := "Globe";
                 QueryModeConfig.description := "Automatic web search";
                 QueryModeConfig.behavior := "combined";
                 QueryModeConfig.default := None |})
    as (first & Hfirst & _ & _).
  - apply list_elem_of_further, list_elem_of_here.
  - reflexivity.
  - rewrite Hfirst in *. vm_compute in Hfirst. injection Hfirst as <-.
    reflexivity.
Defined.

(** The three tables of modes agree.  Both copies of the configuration
    list offer exactly the keys of the strategy table, each once, with
    [behavior] equal to [value]; the default of either list is the mode
    the reducer starts in.  So in every state the controller reaches, the
    configuration looked up for the header is the one of the selected
    mode, not the fallback. *)
Theorem mode_tables_agree (session : AuthContext.t) (e : Env)
    (events : list Event) :
  QueryModeConfig.value <$> query_modes.QUERY_MODES = QUERY_MODES
  /\ QueryModeConfig.value <$> query_modes.QUERY_MODES_second
     ≡ₚ QUERY_MODES
  /\ (forall mode,
         mode ∈ QUERY_MODES
         <-> is_Some (QueryStrategyFactory.strategies !! mode))
  /\ query_modes.getDefaultModeValue query_modes.QUERY_MODES
     = Return (queryMode initialState)
  /\ query_modes.getDefaultModeValue query_modes.QUERY_MODES_second
     = Return (queryMode initialState)
  /\ (forall cfg,
         cfg ∈ query_modes.QUERY_MODES
         \/ cfg ∈ query_modes.QUERY_MODES_second ->
         QueryModeConfig.behavior cfg = QueryModeConfig.value cfg)
  /\ let w := run (mount session e) events in
     exists cfg,
       query_modes.getModeByValue (queryMode (chat w)) query_modes.QUERY_MODES
       = Some cfg
       /\ QueryModeConfig.value cfg = queryMode (chat w)
       /\ getCurrentModeConfig (chat w)
          = Some (QueryModeConfig.icon cfg, QueryModeConfig.label cfg,
                  QueryModeConfig.description cfg).
Proof.
  split; [reflexivity|].
  split.
  { simpl. unfold QUERY_MODES. apply perm_skip, perm_swap. }
  split.
  { intros mode. split.
    - intros Hmode. unfold QUERY_MODES in Hmode.
      repeat (apply elem_of_cons in Hmode as [->|Hmode]);
        [eexists; reflexivity..|inversion Hmode].
    - intros [s Hs].
      destruct (decide (mode ∈ QUERY_MODES)) as [Hin|Hout]; [exact Hin|].
      pose proof (strategies_own mode Hout) as Hnone.
      assert (Some s = None) by (rewrite <- Hs; exact Hnone).
      discriminate. }
  split; [reflexivity|]. split; [reflexivity|].
  split.
  { unfold query_modes.QUERY_MODES, query_modes.QUERY_MODES_second.
    intros cfg [Hin|Hin];
      repeat (apply elem_of_cons in Hin as [->|Hin]; [reflexivity|]);
      inversion Hin. }
  cbv zeta. pose proof (mode_known_run session e events) as Hmode.
  unfold getCurrentModeConfig.
  unfold QUERY_MODES in Hmode.
  repeat (apply elem_of_cons in Hmode as [->|Hmode]);
    [| | |inversion Hmode];
    eexists; (split; [reflexivity|]); split; reflexivity.
Qed.

(** ** The list of sources (SourcesList) *)

Lemma length_append s t :
  String.length (s +:+ t) = (String.length s + String.length t)%nat.
Proof.
  induction s as [|c s IH]; [reflexivity|].
  rewrite append_cons. simpl. rewrite IH. reflexivity.
Qed.

Lemma substring_prefix n s :
  (n <= String.length s)%nat ->
  exists cut,
    s = String.substring 0 n s +:+ cut
    /\ String.length (String.substring 0 n s) = n
    /\ String.length cut = (String.length s - n)%nat.
Proof.
  revert s. induction n as [|n IH]; intros s Hn.
  - exists s. destruct s; simpl; repeat split; lia.
  - destruct s as [|c s]; [simpl in Hn; lia|].
    destruct (IH s ltac:(simpl in Hn; lia)) as (cut & Hs & Hlen & Hcut).
    exists cut. simpl. rewrite append_cons. split; [f_equal; exact Hs|].
    split; [f_equal; exact Hlen|exact Hcut].
Qed.

(** The text shown for a source is the text itself when that has at most
    400 characters; otherwise it is the first 400 characters followed by
    "...", so it never has more than 403 characters, and for a text of
    401 or 402 characters it is longer than the text. *)
Theorem source_text_preview_is_bounded (text : string) :
  let preview := SourcesList.text_preview text in
  (String.length preview <= 403)%nat
  /\ ((String.length text <= 400)%nat -> preview = text)
  /\ ((400 < String.length text)%nat ->
      exists kept cut,
        text = kept +:+ cut
        /\ String.length kept = 400%nat
        /\ cut <> ""
        /\ preview = kept +:+ "..."
        /\ String.length preview = 403%nat).
Proof.
  cbv zeta. unfold SourcesList.text_preview,
    SourcesList.SOURCE_TEXT_PREVIEW_LENGTH.
  destruct (400 <? String.length text)%nat eqn:Hlong.
  - apply Nat.ltb_lt in Hlong.
    destruct (substring_prefix 400 text ltac:(lia)) as (cut & Htext & Hkept & Hcut).
    assert (String.length (String.substring 0 400 text +:+ "...") = 403%nat)
      as Hlen by (rewrite length_append, Hkept; reflexivity).
    split; [lia|]. split; [lia|]. intros _.
    exists (String.substring 0 400 text), cut.
    split; [exact Htext|]. split; [exact Hkept|].
    split; [intros ->; simpl in Hcut; lia|]. split; [reflexivity|exact Hlen].
  - apply Nat.ltb_ge in Hlong.
    split; [lia|]. split; [reflexivity|]. lia.
Qed.

Lemma source_text_preview_is_bounded_witness :
  SourcesList.text_preview "Revenue by platform, 2019-2023."
  = "Revenue by platform, 2019-2023.".
Proof.
  apply (proj1 (proj2 (source_text_preview_is_bounded
                         "Revenue by platform, 2019-2023."))).
  simpl. lia.
Defined.

Lemma not_excluded_iff key :
  SourcesList.not_excluded key = true
  <-> key <> "source_type" /\ key <> "web_sources".
Proof.
  unfold SourcesList.not_excluded, SourcesList.EXCLUDED_METADATA_KEYS. simpl.
  destruct (String.eqb_spec key "source_type");
    destruct (String.eqb_spec key "web_sources"); simpl; split;
    try discriminate; try tauto.
Qed.

Lemma filter_sublist {A : Type} (test : A -> bool) (l : list A) :
  sublist (List.filter test l) l.
Proof.
  induction l as [|a l IH]; simpl; [constructor|].
  destruct (test a); [apply sublist_skip|apply sublist_cons]; exact IH.
Qed.

Lemma filter_elem_of {A : Type} (test : A -> bool) (l : list A) x :
  x ∈ List.filter test l <-> x ∈ l /\ test x = true.
Proof. rewrite !list_elem_of_In. apply filter_In. Qed.

Lemma tag_entries_filter (metadata : list (string * Json)) :
  SourcesList.tag_entries metadata = filter qualifies metadata.
Proof.
  unfold SourcesList.tag_entries.
  induction metadata as [|entry metadata IH]; [reflexivity|].
  rewrite filter_cons. cbn [List.filter].
  destruct (decide (qualifies entry)) as [Hq|Hq].
  - rewrite (proj2 (not_excluded_iff _) Hq), IH. reflexivity.
  - destruct (SourcesList.not_excluded entry.1) eqn:Hn; [|exact IH].
    apply not_excluded_iff in Hn. contradiction.
Qed.

(** The metadata tags of a source.  The entries that qualify are those
    of the object, in its order, whose key is neither [source_type] nor
    [web_sources]; the tags shown are the first six of them, or all of
    them when there are at most six.  The "+N more" note appears exactly
    when some qualifying entry is left out, with N the number left out.
    The block is rendered exactly when the source has metadata with a
    qualifying key. *)
Theorem metadata_tags_are_capped (metadata : JsonRecord) :
  let shown := SourcesList.shown_entries metadata in
  let qualifying := SourcesList.tag_entries metadata in
  qualifying = filter qualifies metadata
  /\ (exists rest,
        qualifying = (shown ++ rest)%list
        /\ (rest = [] \/ length shown = 6%nat)
        /\ SourcesList.more_count metadata
           = match rest with
             | [] => None
             | _ :: _ => Some (length rest)
             end)
  /\ (length shown <= 6)%nat
  /\ sublist shown metadata
  /\ (forall entry,
         entry ∈ shown ->
         entry ∈ metadata
         /\ entry.1 <> "source_type" /\ entry.1 <> "web_sources")
  /\ (forall entry,
         entry ∈ qualifying
         <-> entry ∈ metadata
             /\ entry.1 <> "source_type" /\ entry.1 <> "web_sources")
  /\ (length shown + default 0%nat (SourcesList.more_count metadata)
      = length qualifying)%nat
  /\ (forall n,
         SourcesList.more_count metadata = Some n ->
         (1 <= n)%nat /\ length shown = 6%nat)
  /\ (SourcesList.more_count metadata = None -> shown = qualifying)
  /\ (forall text score,
         SourcesList.tags_rendered
           {| SourceNode.text := text; SourceNode.metadata := Some metadata;
              SourceNode.score := score |} = true
         <-> exists entry, entry ∈ qualifying)
  /\ (forall text score,
         SourcesList.tags_rendered
           {| SourceNode.text := text; SourceNode.metadata := None;
              SourceNode.score := score |} = false).
Proof.
  cbv zeta.
  split; [apply tag_entries_filter|].
  split.
  { exists (drop 6 (SourcesList.tag_entries metadata)).
    unfold SourcesList.shown_entries, SourcesList.more_count,
      SourcesList.MAX_METADATA_TAGS.
    split; [symmetry; apply take_drop|].
    destruct (6 <? length (SourcesList.tag_entries metadata))%nat eqn:Hmore.
    - apply Nat.ltb_lt in Hmore.
      split; [right; rewrite length_take; lia|].
      pose proof (length_drop (SourcesList.tag_entries metadata) 6) as Hlen.
      destruct (drop 6 (SourcesList.tag_entries metadata)) as [|x rest];
        [simpl in Hlen; lia|].
      rewrite Hlen. reflexivity.
    - apply Nat.ltb_ge in Hmore.
      rewrite (drop_ge _ _ Hmore). split; [left|]; reflexivity. }
  unfold SourcesList.shown_entries, SourcesList.more_count,
    SourcesList.MAX_METADATA_TAGS.
  assert (forall entry,
             entry ∈ SourcesList.tag_entries metadata
             <-> entry ∈ metadata
                 /\ entry.1 <> "source_type" /\ entry.1 <> "web_sources")
    as Hqual.
  { intros entry. unfold SourcesList.tag_entries.
    rewrite filter_elem_of, not_excluded_iff. reflexivity. }
  split; [rewrite length_take; lia|].
  split.
  { transitivity (SourcesList.tag_entries metadata);
      [apply sublist_take|apply filter_sublist]. }
  split.
  { intros entry Hin. apply Hqual.
    exact (elem_of_sublist _ _ _ Hin (sublist_take _ _)). }
  split; [exact Hqual|].
  destruct (6 <? length (SourcesList.tag_entries metadata))%nat eqn:Hmore.
  - apply Nat.ltb_lt in Hmore. simpl.
    split; [rewrite length_take; lia|].
    split; [intros n [= <-]; rewrite length_take; lia|].
    split; [discriminate|].
    split; [|reflexivity].
    intros text score. unfold SourcesList.tags_rendered. simpl.
    rewrite Nat.ltb_lt. split.
    + intros _. destruct (SourcesList.tag_entries metadata) as [|x l];
        [simpl in Hmore; lia|]. exists x. left.
    + intros _. lia.
  - apply Nat.ltb_ge in Hmore. simpl.
    split; [rewrite length_take; lia|].
    split; [discriminate|].
    split; [intros _; apply take_ge; exact Hmore|].
    split; [|reflexivity].
    intros text score. unfold SourcesList.tags_rendered. simpl.
    rewrite Nat.ltb_lt. split.
    + intros Hpos. destruct (SourcesList.tag_entries metadata) as [|x l];
        [simpl in Hpos; lia|]. exists x. left.
    + intros (x & Hx).
      destruct (SourcesList.tag_entries metadata); [inversion Hx|simpl; lia].
Qed.

(** ** [formatBasicText] (utils/markdown.tsx) *)

Lemma string_pair_ind (P : string -> Prop) :
  P "" ->
  (forall a, P (String a "")) ->
  (forall a b rest, P rest -> P (String b rest) ->
                    P (String a (String b rest))) ->
  forall s, P s.
Proof.
  intros H0 H1 H2 s.
  assert (P s /\ forall a, P (String a s)) as [H _]; [|exact H].
  induction s as [|b rest [IH1 IH2]].
  - split; [exact H0|exact H1].
  - split; [apply IH2|]. intros a. apply H2; [exact IH1|apply IH2].
Qed.

Lemma replace_newlines_id s : replace_newlines s = s.
Proof.
  induction s as [|c s IH]; [reflexivity|]. simpl. rewrite IH.
  unfold is_newline. destruct (Ascii.eqb_spec c newline) as [->|_];
    reflexivity.
Qed.

Lemma halve_step a b rest :
  halve_newline_pairs (String a (String b rest))
  = if is_newline a && is_newline b
    then String newline (halve_newline_pairs rest)
    else String a (halve_newline_pairs (String b rest)).
Proof. reflexivity. Qed.

Lemma without_newlines_cons c s :
  without_newlines (String c s)
  = if is_newline c then without_newlines s
    else String c (without_newlines s).
Proof. reflexivity. Qed.

Lemma is_newline_newline : is_newline newline = true.
Proof. reflexivity. Qed.

Lemma halve_newlines_even_odd k :
  halve_newline_pairs (newlines (2 * k)) = newlines k
  /\ halve_newline_pairs (newlines (S (2 * k))) = newlines (S k).
Proof.
  induction k as [|k [IHe IHo]]; [split; reflexivity|].
  replace (2 * S k)%nat with (S (S (2 * k))) by lia.
  generalize dependent (2 * k)%nat. intros m IHe IHo.
  split.
  - change (newlines (S (S m)))
      with (String newline (String newline (newlines m))).
    rewrite halve_step, is_newline_newline, IHe. reflexivity.
  - change (newlines (S (S (S m))))
      with (String newline (String newline (newlines (S m)))).
    rewrite halve_step, is_newline_newline, IHo. reflexivity.
Qed.

Lemma halve_other c s :
  is_newline c = false ->
  halve_newline_pairs (String c s) = String c (halve_newline_pairs s).
Proof.
  intros Hc. destruct s as [|b rest]; [reflexivity|].
  rewrite halve_step, Hc. reflexivity.
Qed.

Lemma halve_run n s :
  starts_with_newline s = false ->
  halve_newline_pairs (newlines n +:+ s)
  = newlines (Nat.div2 (S n)) +:+ halve_newline_pairs s.
Proof.
  intros Hs.
  assert (halve_newline_pairs (newlines n +:+ s)
          = newlines (Nat.div2 (S n)) +:+ halve_newline_pairs s
          /\ halve_newline_pairs (newlines (S n) +:+ s)
             = newlines (Nat.div2 (S (S n))) +:+ halve_newline_pairs s)
    as [H _]; [|exact H].
  induction n as [|n [IH0 IH1]].
  - split; [cbn [newlines Nat.div2]; rewrite !append_nil; reflexivity|].
    cbn [newlines Nat.div2]. rewrite !append_cons, !append_nil.
    destruct s as [|c s']; [reflexivity|].
    simpl in Hs. rewrite halve_step, is_newline_newline, Hs. reflexivity.
  - split; [exact IH1|].
    change (newlines (S (S n)))
      with (String newline (String newline (newlines n))).
    change (Nat.div2 (S (S (S n)))) with (S (Nat.div2 (S n))).
    cbn [newlines]. rewrite !append_cons, halve_step, is_newline_newline, IH0.
    reflexivity.
Qed.

(** [formatBasicText] replaces each pair of newlines, found from left to
    right, by one newline, and its second replacement changes nothing.
    It copies a character that is no newline, and it turns a run of n
    newlines that ends the text or is followed by another character into
    a run of n/2 rounded up, wherever in the text the run stands; these
    equations determine its result on every text.  So it halves runs of
    newlines rather than collapsing them, and the result can still
    contain blank lines.  It never lengthens the text, keeps every other
    character in place and order, and leaves a text without two newlines
    in a row as it is. *)
Theorem formatBasicText_halves_newline_runs (content : string) :
  (String.length (formatBasicText content) <= String.length content)%nat
  /\ without_newlines (formatBasicText content) = without_newlines content
  /\ (no_blank_line content -> formatBasicText content = content)
  /\ (forall k,
         formatBasicText (newlines (2 * k)) = newlines k
         /\ formatBasicText (newlines (S (2 * k))) = newlines (S k))
  /\ formatBasicText "" = ""
  /\ (forall c s,
         is_newline c = false ->
         formatBasicText (String c s) = String c (formatBasicText s))
  /\ (forall n s,
         starts_with_newline s = false ->
         formatBasicText (newlines n +:+ s)
         = newlines (Nat.div2 (S n)) +:+ formatBasicText s).
Proof.
  unfold formatBasicText.
  split; [|split; [|split; [|split; [|split; [|split]]]]].
  - rewrite replace_newlines_id.
    induction content as [|c|a b rest IHrest IHtail] using string_pair_ind.
    + simpl. lia.
    + simpl. lia.
    + rewrite halve_step. destruct (is_newline a && is_newline b);
        cbn [String.length] in *; lia.
  - rewrite replace_newlines_id.
    induction content as [|c|a b rest IHrest IHtail] using string_pair_ind.
    + reflexivity.
    + reflexivity.
    + rewrite halve_step.
      destruct (is_newline a && is_newline b) eqn:Hab.
      * apply andb_prop in Hab as [Ha Hb].
        rewrite !without_newlines_cons, is_newline_newline, Ha, Hb.
        exact IHrest.
      * rewrite (without_newlines_cons a), IHtail.
        rewrite <- without_newlines_cons. reflexivity.
  - rewrite replace_newlines_id.
    induction content as [|c|a b rest IHrest IHtail] using string_pair_ind.
    + reflexivity.
    + reflexivity.
    + intros [Hab Hrest]. rewrite halve_step, Hab. f_equal.
      apply IHtail, Hrest.
  - intros k. rewrite !replace_newlines_id. apply halve_newlines_even_odd.
  - reflexivity.
  - intros c s Hc. rewrite !replace_newlines_id. apply halve_other, Hc.
  - intros n s Hs. rewrite !replace_newlines_id. apply halve_run, Hs.
Qed.

Lemma formatBasicText_halves_newline_runs_witness :
  formatBasicText "Sources:" = "Sources:"
  /\ formatBasicText (newlines 4) = newlines 2
  /\ formatBasicText (String "a" (newlines 4 +:+ "b"))
     = String "a" (newlines 2 +:+ "b").
Proof.
  destruct (formatBasicText_halves_newline_runs "Sources:")
    as (_ & _ & Hsame & Hruns & _ & Hother & Hrun).
  split; [apply Hsame; simpl; repeat split|].
  split; [apply (proj1 (Hruns 2%nat))|].
  rewrite (Hother "a"%char) by reflexivity.
  rewrite (Hrun 4%nat "b") by reflexivity.
  reflexivity.
Defined.
